(** * Checkpoint merger of [modules/extras.py]

    A shallow embedding of [run_modelmerger] and of the helpers nested in it
    ([load_model], [weighted_sum], [get_difference], [add_difference]),
    followed by the properties of the merge engine.

    Conventions of the embedding.
    - A state dict ("theta") is a finite map from string keys to tensors.
      The iteration order of a Python dict is not kept: every loop of the
      source that walks a dict touches, at each key, that key only.
    - A tensor is a shape, the format of its elements and its row-major
      data.  Elements are IEEE 754 binary floating-point numbers
      ([spec_float] of the standard library: signed zeros, infinities, one
      NaN, and finite numbers as sign, mantissa and exponent), of one of the
      formats float16, bfloat16, float32 and float64; every operation
      rounds to nearest, ties to even.  Tensors of other element types
      (integers, 8-bit floats) are left out, and the change of element
      type asked of [Tensor.to] is left to the environment.
    - The multiplier is a Python float, a float64.
    - A raised exception, or the early return of [fail], ends a run; both
      are carried by the error side of [res].
    - Progress reporting ([shared.state]), the file name and the metadata of
      the saved checkpoint are left out. *)

From Stdlib Require Import Ascii ZArith SpecFloat.
From stdpp Require Import base option list strings gmap fin_maps.

Set Default Proof Using "Type".

(** ** Exceptions and early returns *)

Inductive exn : Type :=
  | RuntimeError (msg : string)
  | AssertionError (key : string)
  | IndexError
  | KeyError (key : string)
  | UnboundLocalError (var : string)
  | ReError (pattern : string)
  | ExternalError (who : string).

Inductive abort : Type :=
  | Failed (message : string)
  | Raised (e : exn).

Inductive res (A : Type) : Type :=
  | Ok (a : A)
  | Err (e : abort).
Arguments Ok {A} a.
Arguments Err {A} e.

Definition bind {A B} (m : res A) (f : A → res B) : res B :=
  match m with Ok a => f a | Err e => Err e end.

Notation "'do' x <- m ; k" := (bind m (λ x, k))
  (at level 10, x name, m at level 100, k at level 200,
   format "'[v' 'do'  x  <-  m ; '/' k ']'").
Notation "'do' ' p <- m ; k" := (bind m (λ x, match x with p => k end))
  (at level 10, p strict pattern, m at level 100, k at level 200,
   format "'[v' 'do'  ' p  <-  m ; '/' k ']'").

Global Instance exn_eq_dec : EqDecision exn.
Proof. solve_decision. Defined.
Global Instance abort_eq_dec : EqDecision abort.
Proof. solve_decision. Defined.
Global Instance res_eq_dec {A} `{EqDecision A} : EqDecision (res A).
Proof. solve_decision. Defined.

Definition raise {A} (e : exn) : res A := Err (Raised e).

(** A computation that ends, if not on a value, on an exception: it does not
    return through [fail]. *)
Definition raises_only {A} (o : res A) : Prop := ∀ message, o ≠ Err (Failed message).

(** What a computation returned, or [d] if it raised. *)
Definition value {A} (d : A) (o : res A) : A :=
  match o with Ok a => a | Err _ => d end.

Definition of_option {A} (e : exn) (o : option A) : res A :=
  match o with Some a => Ok a | None => raise e end.

(** ** Strings: [in], and the regular expressions of the source *)

Module Str.

Fixpoint strip_prefix (p s : string) : option string :=
  match p, s with
  | EmptyString, _ => Some s
  | String a p', String b s' => if decide (a = b) then strip_prefix p' s' else None
  | String _ _, EmptyString => None
  end.

(** [p in s] on Python strings. *)
Fixpoint contains (p s : string) : bool :=
  match strip_prefix p s with
  | Some _ => true
  | None => match s with
            | EmptyString => false
            | String _ s' => contains p s'
            end
  end.

(** [\w] on ASCII keys: letters, digits and the underscore. *)
Definition is_word (c : ascii) : bool :=
  let n := nat_of_ascii c in
  ((48 <=? n) && (n <=? 57)) || ((65 <=? n) && (n <=? 90))
  || ((97 <=? n) && (n <=? 122)) || (n =? 95).

Definition word_ahead (s : string) : bool :=
  match s with
  | String c _ => is_word c
  | EmptyString => false
  end.

(** [\b] between a character that is a word character or not ([prev]; the
    start of the string counts as not) and the rest [s] of the string. *)
Definition boundary (prev : bool) (s : string) : bool := xorb prev (word_ahead s).

End Str.

Module Re.

(** The patterns of the source are of three shapes. *)
Inductive regex : Type :=
  | Group (alts : list string)          (* r'\b(a1|a2|...)\.\b', the [ai] literal *)
  | Wild (pattern : string)             (* a pattern whose only operator is [.] *)
  | Compiled (search : string → bool).  (* a pattern given by the user *)

(** One alternative, then [\.], then [\b]. *)
Definition match_alt (s lit : string) : bool :=
  match Str.strip_prefix (lit +:+ ".") s with
  | Some rest => Str.boundary false rest
  | None => false
  end.

Definition match_group_here (alts : list string) (prev : bool) (s : string) : bool :=
  Str.boundary prev s && existsb (match_alt s) alts.

Fixpoint search_group (alts : list string) (prev : bool) (s : string) : bool :=
  match_group_here alts prev s
  || match s with
     | EmptyString => false
     | String c s' => search_group alts (Str.is_word c) s'
     end.

(** [.] is any character but the newline. *)
Fixpoint match_wild_here (p s : string) : bool :=
  match p, s with
  | EmptyString, _ => true
  | String a p', String b s' =>
      (if decide (a = "."%char) then negb (bool_decide (b = "010"%char))
       else bool_decide (a = b))
      && match_wild_here p' s'
  | String _ _, EmptyString => false
  end.

Fixpoint search_wild (p s : string) : bool :=
  match_wild_here p s
  || match s with
     | EmptyString => false
     | String _ s' => search_wild p s'
     end.

(** [re.search(regex, key)], as a truth value. *)
Definition search (r : regex) (key : string) : bool :=
  match r with
  | Group alts => search_group alts false key
  | Wild p => search_wild p key
  | Compiled f => f key
  end.

End Re.

(** ** Floating-point numbers *)

Definition float : Type := spec_float.

Global Instance float_eq_dec : EqDecision float.
Proof. solve_decision. Defined.

Module Float.

(** The formats of the elements: [torch.float16], [torch.bfloat16],
    [torch.float32] and [torch.float64]. *)
Inductive format : Type := Half | BFloat | Single | Double.

Global Instance format_eq_dec : EqDecision format.
Proof. solve_decision. Defined.

(** The bits of the mantissa, the implicit one included, and the exponent
    of the infinities. *)
Definition prec (f : format) : Z :=
  match f with Half => 11 | BFloat => 8 | Single => 24 | Double => 53 end.

Definition emax (f : format) : Z :=
  match f with Half => 16 | BFloat => 128 | Single => 128 | Double => 1024 end.

(** The numbers of a format: a finite one has the mantissa and the exponent
    that the format gives it. *)
Definition valid (f : format) (x : float) : Prop :=
  valid_binary (prec f) (emax f) x = true.

Global Instance valid_dec f x : Decision (valid f x).
Proof. unfold valid. apply _. Defined.

(** [math.isfinite] *)
Definition finite (x : float) : bool :=
  match x with
  | S754_zero _ | S754_finite _ _ _ => true
  | S754_infinity _ | S754_nan => false
  end.

(** The conversion to a format. *)
Definition round (f : format) (x : float) : float :=
  match x with
  | S754_finite s m e => binary_round (prec f) (emax f) s m e
  | _ => x
  end.

Definition add (f : format) : float → float → float := SFadd (prec f) (emax f).
Definition sub (f : format) : float → float → float := SFsub (prec f) (emax f).
Definition mul (f : format) : float → float → float := SFmul (prec f) (emax f).

(** The format of the result of an operator of two tensors. *)
Definition promote (f g : format) : format :=
  match f, g with
  | Double, _ | _, Double => Double
  | Single, _ | _, Single => Single
  | Half, Half => Half
  | BFloat, BFloat => BFloat
  | Half, BFloat | BFloat, Half => Single
  end.

(** The format a kernel computes in: the 16-bit formats are computed in
    float32 and the result rounded back. *)
Definition opmath (f : format) : format :=
  match f with
  | Half | BFloat => Single
  | Single | Double => f
  end.

(** The element [x] of a tensor of format [f] times the Python number [c]:
    both operands are taken to the format of the computation. *)
Definition scaled (f : format) (c x : float) : float :=
  round f (mul (opmath f) (round (opmath f) x) (round (opmath f) c)).

(** The integer [z] in a format. *)
Definition of_Z (f : format) (z : Z) : float :=
  binary_normalize (prec f) (emax f) z 0 false.

(** The Python floats [0.0] and [1.0], and [x - y] on Python floats. *)
Definition zero : float := S754_zero false.
Definition one : float := S754_finite false 4503599627370496 (-52).
Definition minus (x y : float) : float := sub Double x y.

Definition is_zero (x : float) : bool :=
  match x with S754_zero _ => true | _ => false end.

(** The mantissa [m] followed by [k] zero bits. *)
Definition shl (k : nat) (m : positive) : positive := Nat.iter k xO m.

(** [r] is [x], or the positive zero where [x] is the negative one. *)
Definition kept (x r : float) : Prop :=
  r = x ∨ (x = S754_zero true ∧ r = S754_zero false).

Global Instance kept_dec x r : Decision (kept x r).
Proof. unfold kept. apply _. Defined.

End Float.

(** ** Tensors *)

Record tensor : Type := Tensor {
  shape : list nat;
  format : Float.format;
  data : list float;
}.

Global Instance tensor_eq_dec : EqDecision tensor.
Proof. solve_decision. Defined.

Definition numel (s : list nat) : nat := foldr Nat.mul 1 s.

(** What every tensor of the library satisfies. *)
Definition well_formed (t : tensor) : Prop := length (data t) = numel (shape t).

Global Instance well_formed_dec t : Decision (well_formed t).
Proof. unfold well_formed. apply _. Defined.

(** The elements of a tensor are numbers of its format. *)
Definition well_typed (t : tensor) : Prop := Forall (Float.valid (format t)) (data t).

Global Instance well_typed_dec t : Decision (well_typed t).
Proof. unfold well_typed. apply _. Defined.

(** No element is an infinity or a NaN. *)
Definition all_finite (t : tensor) : Prop := Forall (λ x, Float.finite x = true) (data t).

Global Instance all_finite_dec t : Decision (all_finite t).
Proof. unfold all_finite. apply _. Defined.

Module Torch.

Definition size_mismatch : string :=
  "The size of tensor a must match the size of tensor b".

(** [n] consecutive blocks of [row] elements. *)
Fixpoint rows {A} (n row : nat) (d : list A) : list (list A) :=
  match n with
  | 0 => []
  | S n' => take row d :: rows n' row (drop row d)
  end.

(** Broadcasting.  [expand s tgt d] repeats the data [d] of shape [s] along
    the dimensions of size one until it has shape [tgt]. *)
Fixpoint expand (s tgt : list nat) (d : list float) : option (list float) :=
  match s, tgt with
  | [], [] => Some d
  | n :: s', m :: tgt' =>
      r ← mapM (expand s' tgt') (rows n (numel s') d);
      if decide (n = m) then Some (concat r)
      else if decide (n = 1) then Some (concat (replicate m (concat r)))
      else None
  | _, _ => None
  end.

Definition pad_shape (rank : nat) (s : list nat) : list nat :=
  replicate (rank - length s) 1 ++ s.

Fixpoint broadcast_dims (s1 s2 : list nat) : option (list nat) :=
  match s1, s2 with
  | [], [] => Some []
  | n :: s1', m :: s2' =>
      d ← (if decide (n = m) then Some n
           else if decide (n = 1) then Some m
           else if decide (m = 1) then Some n
           else None);
      ds ← broadcast_dims s1' s2';
      Some (d :: ds)
  | _, _ => None
  end.

Definition broadcast_shapes (s1 s2 : list nat) : option (list nat) :=
  let rank := length s1 `max` length s2 in
  broadcast_dims (pad_shape rank s1) (pad_shape rank s2).

Definition expand_to (t : tensor) (tgt : list nat) : option tensor :=
  if decide (shape t = tgt) then Some t
  else d ← expand (pad_shape (length tgt) (shape t)) tgt (data t);
       Some (Tensor tgt (format t) d).

(** The conversion of an operand to the format of the result: none when the
    operand has that format. *)
Definition convert (f : Float.format) (t : tensor) : tensor :=
  if decide (format t = f) then t
  else Tensor (shape t) f (Float.round f <$> data t).

(** An elementwise operator of two tensors: the operands are broadcast to a
    common shape and converted to a common format, in which the operator
    is computed. *)
Definition binop (op : Float.format → float → float → float) (a b : tensor) : res tensor :=
  match broadcast_shapes (shape a) (shape b) with
  | None => raise (RuntimeError size_mismatch)
  | Some s =>
      let f := Float.promote (format a) (format b) in
      match expand_to (convert f a) s, expand_to (convert f b) s with
      | Some a', Some b' => Ok (Tensor s f (zip_with (op f) (data a') (data b')))
      | _, _ => raise (RuntimeError size_mismatch)
      end
  end.

Definition add : tensor → tensor → res tensor := binop Float.add.
Definition sub : tensor → tensor → res tensor := binop Float.sub.

(** A Python number times a tensor: a tensor of the same format. *)
Definition scale (c : float) (t : tensor) : tensor :=
  Tensor (shape t) (format t) (Float.scaled (format t) c <$> data t).

Definition zeros_like (t : tensor) : tensor :=
  Tensor (shape t) (format t) (replicate (length (data t)) Float.zero).

(** [t.shape[i]] *)
Definition shape_at (t : tensor) (i : nat) : res nat :=
  of_option IndexError (shape t !! i).

(** [t.shape[0:1] + t.shape[2:]] *)
Definition shape_but_1 (t : tensor) : list nat := take 1 (shape t) ++ drop 2 (shape t).

(** The bounds of the slice [lo:hi] of a dimension of size [c]. *)
Definition clamp (lo hi c : nat) : nat * nat :=
  let stop := hi `min` c in (lo `min` stop, stop).

(** The part of a row from [lo], of length [len]; and the row [r] with the
    part from [lo] to [hi] replaced by [w]. *)
Definition sub_row {A} (lo len : nat) (r : list A) : list A := take len (drop lo r).

Definition put_row {A} (lo hi : nat) (r w : list A) : list A :=
  take lo r ++ w ++ drop hi r.

(** [t[:, lo:hi, :, :]].  Four indices need four dimensions. *)
Definition get_channels (lo hi : nat) (t : tensor) : res tensor :=
  match shape t with
  | n :: c :: (_ :: _ :: _) as rest =>
      let inner := numel rest in
      let '(start, stop) := clamp lo hi c in
      Ok (Tensor (n :: (stop - start) :: rest) (format t)
            (concat (sub_row (start * inner) ((stop - start) * inner)
                       <$> rows n (c * inner) (data t))))
  | _ => raise IndexError
  end.

(** [t[:, lo:hi, :, :] = v], as the new value of [t]: [v] is converted to
    the format of [t]. *)
Definition set_channels (lo hi : nat) (t v : tensor) : res tensor :=
  match shape t with
  | n :: c :: (_ :: _ :: _) as rest =>
      let inner := numel rest in
      let '(start, stop) := clamp lo hi c in
      match expand_to (convert (format t) v) (n :: (stop - start) :: rest) with
      | None => raise (RuntimeError size_mismatch)
      | Some v' =>
          Ok (Tensor (shape t) (format t)
                (concat (zip_with (put_row (start * inner) (stop * inner))
                           (rows n (c * inner) (data t))
                           (rows n ((stop - start) * inner) (data v')))))
      end
  | _ => raise IndexError
  end.

End Torch.

(** ** The three operators of [run_modelmerger] *)

Definition weighted_sum (theta0 theta1 : tensor) (alpha : float) : res tensor :=
  Torch.add (Torch.scale (Float.minus Float.one alpha) theta0) (Torch.scale alpha theta1).

Definition get_difference (theta1 theta2 : tensor) : res tensor :=
  Torch.sub theta1 theta2.

Definition add_difference (theta0 theta1_2_diff : tensor) (alpha : float) : res tensor :=
  Torch.add theta0 (Torch.scale alpha theta1_2_diff).

(** ** The request and the environment of a run *)

Inductive interp : Type :=
  | InterpNone
  | WeightedSum
  | AddDifference
  | ExtractUnet
  | ExtractVAE
  | ExtractTE.

Global Instance interp_eq_dec : EqDecision interp.
Proof. solve_decision. Defined.

(** The keys of [theta_funcs]. *)
Definition interp_name (m : interp) : string :=
  match m with
  | InterpNone => "None"
  | WeightedSum => "Weighted sum"
  | AddDifference => "Add difference"
  | ExtractUnet => "Extract Unet"
  | ExtractVAE => "Extract VAE"
  | ExtractTE => "Extract Text encoder(s)"
  end.

(** The second and third components of [theta_funcs[interp_method]]. *)
Definition theta_func1 (m : interp) : option (tensor → tensor → res tensor) :=
  match m with
  | AddDifference => Some get_difference
  | _ => None
  end.

Definition theta_func2 (m : interp) : option (tensor → tensor → float → res tensor) :=
  match m with
  | WeightedSum => Some weighted_sum
  | AddDifference => Some add_difference
  | _ => None
  end.

(** The arguments of [run_modelmerger] that reach the tensors. *)
Record request : Type := Request {
  model_names : list string;
  interp_method : interp;
  multiplier : float;
  save_u : string;
  save_v : string;
  save_t : string;
  calc_fp32 : bool;
  bake_in_vae : string;
  bake_in_te : list string;
  discard_weights : string;
}.

Inductive dtype : Type := Float32 | BFloat16 | Float16 | Float8_e4m3fn | Float8_e5m2.

(** What the run asks of the other modules: the registries of checkpoints,
    VAEs and text encoders (a name to a file name), the reader of weight
    files, [re.compile] (no value for a pattern that does not compile),
    [huggingface_guess.guess], [backend.loader.replace_state_dict]
    (whose dict has the key [None] when the probe found nothing) and
    [Tensor.to]. *)
Record env : Type := Env {
  guess_t : Type;
  checkpoint_aliases : string → option string;
  load_torch_file : string → res (gmap string tensor);
  vae_dict : string → option string;
  vae_load_torch_file : string → res (gmap string tensor);
  module_list : string → option string;
  re_compile : string → option (string → bool);
  guess : gmap string tensor → res guess_t;
  replace_state_dict :
    gmap (option string) tensor → gmap string tensor → guess_t →
    res (gmap (option string) tensor);
  tensor_to : dtype → tensor → tensor;
}.

(** What [safetensors.torch.save_file] is called with. *)
Inductive model_type : Type := Checkpoint | TextEncoders | VAE | Unet.

Global Instance model_type_eq_dec : EqDecision model_type.
Proof. solve_decision. Defined.

Record saved : Type := Saved {
  saved_theta : gmap string tensor;
  saved_type : model_type;
  result_is_inpainting_model : bool;
  result_is_instruct_pix2pix_model : bool;
}.

Global Instance saved_eq_dec : EqDecision saved.
Proof. solve_decision. Defined.

(** ** Walking a state dict *)

(** [for key in list(theta): if re.search(regex, key): theta.pop(key, None)] *)
Definition pop_matching (regex : Re.regex) (theta : gmap string tensor) : gmap string tensor :=
  filter (λ kv, Re.search regex kv.1 = false) theta.

(** [for key in theta.keys(): theta[key] = f(key, theta[key])], where [f]
    may raise. *)
Definition traverse {A B} (f : string → A → res B) (theta : gmap string A) : res (gmap string B) :=
  map_fold (λ key v acc, do done <- acc; do v' <- f key v; Ok (<[key:=v']> done)) (Ok ∅) theta.

(** What [traverse] leaves: every key mapped, or one turn that raised. *)
Definition traversed {A B} (f : string → A → res B)
    (theta : gmap string A) (r : res (gmap string B)) : Prop :=
  match r with
  | Ok m => ∀ key, match theta !! key with
                   | Some v => ∃ v', f key v = Ok v' ∧ m !! key = Some v'
                   | None => m !! key = None
                   end
  | Err e => ∃ key v, theta !! key = Some v ∧ f key v = Err e
  end.

(** ** [load_model] *)

(** The three sub-blocks of a checkpoint. *)
Inductive block : Type := Backbone | Vae | TextEncoder.

Global Instance block_eq_dec : EqDecision block.
Proof. solve_decision. Defined.

(** The conditions of the three [strip += ...]. *)
Definition strips (r : request) (b : block) : bool :=
  match b with
  | TextEncoder =>
      (bool_decide (save_t r = "None (remove)")
       || bool_decide (interp_method r = ExtractUnet)
       || bool_decide (interp_method r = ExtractVAE))
      && negb (bool_decide ("Built in (A)" ∈ bake_in_te r))
  | Vae =>
      (bool_decide (save_v r = "None (remove)")
       || bool_decide (interp_method r = ExtractUnet)
       || bool_decide (interp_method r = ExtractTE))
      && negb (bool_decide (bake_in_vae r = "Built in (A)"))
  | Backbone =>
      bool_decide (save_u r = "None (remove)")
      || bool_decide (interp_method r = ExtractVAE)
      || bool_decide (interp_method r = ExtractTE)
  end.

Definition strip_code (r : request) : nat :=
  (if strips r TextEncoder then 1 else 0)
  + (if strips r Vae then 2 else 0)
  + (if strips r Backbone then 4 else 0).

Definition strip_regex (strip : nat) : option Re.regex :=
  match strip with
  | 1 => Some (Re.Group ["text_model"; "conditioner.embedders"; "cond_stage_model.model"])
  | 2 => Some (Re.Group ["first_stage_model"; "vae"])
  | 3 => Some (Re.Group ["text_model"; "conditioner.embedders"; "cond_stage_model.model";
                         "first_stage_model"; "vae"])
  | 4 => Some (Re.Group ["model.diffusion_model"])
  | 5 => Some (Re.Group ["text_model"; "conditioner.embedders"; "cond_stage_model.model";
                         "model.diffusion_model"])
  | 6 => Some (Re.Group ["first_stage_model"; "vae"; "model.diffusion_model"])
  | 7 => Some (Re.Group ["text_model"; "conditioner.embedders"; "cond_stage_model.model";
                         "first_stage_model"; "vae"; "model.diffusion_model"])
  | _ => None
  end.

(** The first of the three passes of [load_model]. *)
Definition strip_unwanted (r : request) (theta : gmap string tensor) : res (gmap string tensor) :=
  let strip := strip_code r in
  if 0 <? strip then
    do regex <- of_option (UnboundLocalError "regex") (strip_regex strip);
    Ok (pop_matching regex theta)
  else Ok theta.

(** The pass on [discard_weights]; it is run by [load_model] and once more
    before the result is saved. *)
Definition discard (E : env) (r : request) (theta : gmap string tensor) : res (gmap string tensor) :=
  if bool_decide (discard_weights r ≠ "") then
    do search <- of_option (ReError (discard_weights r)) (re_compile E (discard_weights r));
    Ok (pop_matching (Re.Compiled search) theta)
  else Ok theta.

Definition load_model (E : env) (r : request) (filename : string) : res (gmap string tensor) :=
  do theta <- load_torch_file E filename;
  do theta <- strip_unwanted r theta;
  do theta <- discard E r theta;
  Ok (if calc_fp32 r then tensor_to E Float32 <$> theta else theta).

(** ** The two merge loops *)

Definition checkpoint_dict_skip_on_merge : list string :=
  ["cond_stage_model.transformer.text_model.embeddings.position_ids"].

(** One turn of the loop "Merging B and C": the new value of [theta_1[key]]. *)
Definition merge_BC_key (f1 : tensor → tensor → res tensor)
    (theta_2 : gmap string tensor) (key : string) (t1 : tensor) : res tensor :=
  if bool_decide (key ∈ checkpoint_dict_skip_on_merge) then Ok t1
  else if Str.contains "model" key then
    if bool_decide (is_Some (theta_2 !! key)) then
      let t2 := default (Torch.zeros_like t1) (theta_2 !! key) in
      f1 t1 t2
    else Ok (Torch.zeros_like t1)
  else Ok t1.

Definition merge_BC (f1 : tensor → tensor → res tensor)
    (theta_1 theta_2 : gmap string tensor) : res (gmap string tensor) :=
  traverse (merge_BC_key f1 theta_2) theta_1.

Inductive variant : Type := Inpainting | InstructPix2Pix.

Global Instance variant_eq_dec : EqDecision variant.
Proof. solve_decision. Defined.

Definition inpainting_message : string :=
  "When merging inpainting model with a normal one, A must be the inpainting model.".
Definition instruct_pix2pix_message : string :=
  "When merging instruct-pix2pix model with a normal one, A must be the instruct-pix2pix model.".

(** [x.shape[1] == n] *)
Definition channels_are (t : tensor) (n : nat) : res bool :=
  do c <- Torch.shape_at t 1; Ok (bool_decide (c = n)).

(** [and], which leaves its right operand alone when the left one is false. *)
Definition and_then (x y : res bool) : res bool :=
  do b <- x; if b : bool then y else Ok false.

(** [theta_0[key][:, 0:4, :, :] = theta_func2(a[:, 0:4, :, :], b, multiplier)] *)
Definition merge_common_channels (f2 : tensor → tensor → float → res tensor)
    (alpha : float) (a b : tensor) : res tensor :=
  do a4 <- Torch.get_channels 0 4 a;
  do m <- f2 a4 b alpha;
  Torch.set_channels 0 4 a m.

(** One turn of the loop "Merging A and B": the new value of [theta_0[key]],
    and the flag the turn sets, if it sets one. *)
Definition merge_AB_key (f2 : tensor → tensor → float → res tensor) (alpha : float)
    (theta_1 : gmap string tensor) (key : string) (a : tensor) : res (tensor * option variant) :=
  match theta_1 !! key with
  | Some b =>
      if Str.contains "model" key then
        if bool_decide (key ∈ checkpoint_dict_skip_on_merge) then Ok (a, None)
        else if bool_decide (shape a ≠ shape b)
                && bool_decide (Torch.shape_but_1 a = Torch.shape_but_1 b) then
          do c <- and_then (channels_are a 4) (channels_are b 9);
          if c : bool then raise (RuntimeError inpainting_message) else
          do c <- and_then (channels_are a 4) (channels_are b 8);
          if c : bool then raise (RuntimeError instruct_pix2pix_message) else
          do c <- and_then (channels_are a 8) (channels_are b 4);
          if c : bool then
            do t <- merge_common_channels f2 alpha a b;
            Ok (t, Some InstructPix2Pix)
          else
            do c <- and_then (channels_are a 9) (channels_are b 4);
            if c : bool then
              do t <- merge_common_channels f2 alpha a b;
              Ok (t, Some Inpainting)
            else raise (AssertionError key)
        else
          do t <- f2 a b alpha;
          Ok (t, None)
      else Ok (a, None)
  | None => Ok (a, None)
  end.

(** The flag of the run that a variant stands for. *)
Definition flag_of (v : variant) (inpainting instruct_pix2pix : bool) : bool :=
  match v with
  | Inpainting => inpainting
  | InstructPix2Pix => instruct_pix2pix
  end.

Definition sets_flag (v : variant) (m : gmap string (tensor * option variant)) : bool :=
  bool_decide (map_Exists (λ _ x, x.2 = Some v) m).

Definition merge_AB (f2 : tensor → tensor → float → res tensor) (alpha : float)
    (theta_0 theta_1 : gmap string tensor) : res (gmap string tensor * bool * bool) :=
  do m <- traverse (merge_AB_key f2 alpha theta_1) theta_0;
  Ok (fst <$> m, sets_flag Inpainting m, sets_flag InstructPix2Pix m).

(** The keys that the loop "Merging A and B" passes over. *)
Definition passed_over (theta_1 : gmap string tensor) (key : string) : Prop :=
  theta_1 !! key = None ∨ Str.contains "model" key = false
  ∨ key ∈ checkpoint_dict_skip_on_merge.

(** ** The probe of the architecture *)

Definition sd15_test_key : string :=
  "model.diffusion_model.output_blocks.10.0.emb_layers.1.bias".
Definition sdxl_test_key : string :=
  "model.diffusion_model.output_blocks.8.0.emb_layers.1.bias".
Definition flux_test_key : string :=
  "model.diffusion_model.double_blocks.0.img_attn.norm.key_norm.scale".

(** [None] of the source is [None] here. *)
Definition unet_test_key (theta_0 : gmap string tensor) : option string :=
  if bool_decide (is_Some (theta_0 !! sd15_test_key)) then Some sd15_test_key
  else if bool_decide (is_Some (theta_0 !! sdxl_test_key)) then Some sdxl_test_key
  else if bool_decide (is_Some (theta_0 !! flux_test_key)) then Some flux_test_key
  else None.

(** ** Baking in a VAE and text encoders *)

(** The value [[0.0]] stored under the probe key. *)
Definition placeholder : tensor := Tensor [1] Float.Double [Float.zero].

(** [for key in converted.keys(): theta_0[key] = converted[key]].  The keys
    that [replace_state_dict] adds are strings. *)
Definition overlay (converted : gmap (option string) tensor)
    (theta_0 : gmap string tensor) : gmap string tensor :=
  map_fold (λ key v acc, match key with Some k => <[k:=v]> acc | None => acc end)
    theta_0 converted.

(** From [converted = {}] to [del converted], for one loaded file. *)
Definition bake (E : env) (probe : option string) (g : guess_t E)
    (source theta_0 : gmap string tensor) : res (gmap string tensor) :=
  do converted <- replace_state_dict E {[ probe := placeholder ]} source g;
  match converted !! probe with
  | None => raise (KeyError (default "None" probe))
  | Some _ => Ok (overlay (delete probe converted) theta_0)
  end.

Definition bakes_vae (r : request) : bool :=
  negb (Str.contains "None" (bake_in_vae r)) && negb (Str.contains "Built in" (bake_in_vae r)).

Definition bake_vae (E : env) (r : request) (probe : option string) (g : guess_t E)
    (theta_0 : gmap string tensor) : res (gmap string tensor) :=
  if bakes_vae r then
    do filename <- of_option (KeyError (bake_in_vae r)) (vae_dict E (bake_in_vae r));
    do vae <- vae_load_torch_file E filename;
    bake E probe g vae theta_0
  else Ok theta_0.

Definition bakes_te (r : request) : bool :=
  bool_decide (bake_in_te r ≠ []) && negb (bool_decide ("Built in" ∈ bake_in_te r)).

Definition bake_te (E : env) (r : request) (probe : option string) (g : guess_t E)
    (theta_0 : gmap string tensor) : res (gmap string tensor) :=
  if bakes_te r then
    foldl (λ acc te,
             do theta <- acc;
             do filename <- of_option (KeyError te) (module_list E te);
             do te_dict <- load_torch_file E filename;
             bake E probe g te_dict theta)
          (Ok theta_0) (bake_in_te r)
  else Ok theta_0.

(** ** The change of precision *)

(** The elements of [saves]. *)
Inductive save_item : Type :=
  | Block (n : nat)
  | Policy (s : string).

Definition saves (r : request) : list save_item :=
  [Block 0; Policy (save_u r); Block 1; Policy (save_v r); Block 2; Policy (save_t r)].

Definition to_bfloat16 (E : env) (t : tensor) : tensor := tensor_to E BFloat16 t.
Definition to_float16 (E : env) (t : tensor) : tensor := tensor_to E Float16 t.
Definition to_fp8e4m3 (E : env) (t : tensor) : tensor := tensor_to E Float8_e4m3fn t.
Definition to_fp8e5m2 (E : env) (t : tensor) : tensor := tensor_to E Float8_e5m2 t.

(** The cases of [match save] on a string: the conversion of the case, if
    the string is one of the four. *)
Definition precision_case (E : env) (save : string) : option (tensor → tensor) :=
  if bool_decide (save = "bfloat16") then Some (to_bfloat16 E)
  else if bool_decide (save = "float16") then Some (to_float16 E)
  else if bool_decide (save = "fp8e4m3") then Some (to_fp8e4m3 E)
  else if bool_decide (save = "fp8e5m2") then Some (to_fp8e5m2 E)
  else None.

(** [for key in theta_0.keys(): if re.search(regex, key): theta_0[key] = to(theta_0[key])] *)
Definition cast_matching (regex : Re.regex) (to : tensor → tensor)
    (theta_0 : gmap string tensor) : gmap string tensor :=
  map_imap (λ key v, Some (if Re.search regex key then to v else v)) theta_0.

(** One turn of [for save in saves], on the variable [regex] and on [theta_0]. *)
Definition recast_step (E : env) (st : res (option Re.regex * gmap string tensor))
    (save : save_item) : res (option Re.regex * gmap string tensor) :=
  do '(regex, theta_0) <- st;
  match save with
  | Block 0 => Ok (Some (Re.Wild "model.diffusion_model."), theta_0)
  | Block 1 => Ok (Some (Re.Group ["first_stage_model"; "vae"]), theta_0)
  | Block 2 => Ok (Some (Re.Group ["text_model"; "conditioner.embedders"]), theta_0)
  | Block _ => Ok (regex, theta_0)
  | Policy s =>
      if bool_decide (s ≠ "None") && bool_decide (s ≠ "No change") then
        match precision_case E s with
        | Some to =>
            do re <- of_option (UnboundLocalError "regex") regex;
            Ok (regex, cast_matching re to theta_0)
        | None => Ok (regex, theta_0)
        end
      else Ok (regex, theta_0)
  end.

Definition recast (E : env) (r : request) (theta_0 : gmap string tensor) : res (gmap string tensor) :=
  do st <- foldl (recast_step E) (Ok (None, theta_0)) (saves r);
  Ok st.2.

(** ** [run_modelmerger] *)

(** The checks of the model names, up to the file names of A, B and C. *)
Definition resolve (E : env) (r : request) : res (string * option string * option string) :=
  do primary_model_name <- of_option IndexError (model_names r !! 0);
  if bool_decide (primary_model_name = "") then
    Err (Failed "Failed: Merging requires a primary model.")
  else
  do primary <- of_option (KeyError primary_model_name)
                  (checkpoint_aliases E primary_model_name);
  do secondary <-
    match theta_func2 (interp_method r) with
    | Some _ =>
        do name <- of_option (UnboundLocalError "secondary_model_name") (model_names r !! 1);
        if bool_decide (name = "") then
          Err (Failed "Failed: Merging requires a secondary model.")
        else
          do info <- of_option (KeyError name) (checkpoint_aliases E name);
          Ok (Some info)
    | None => Ok None
    end;
  do tertiary <-
    match theta_func1 (interp_method r) with
    | Some _ =>
        do name <- of_option (UnboundLocalError "tertiary_model_name") (model_names r !! 2);
        if bool_decide (name = "") then
          Err (Failed ("Failed: Interpolation method (" +:+ interp_name (interp_method r)
                       +:+ ") requires a tertiary model."))
        else
          do info <- of_option (KeyError name) (checkpoint_aliases E name);
          Ok (Some info)
    | None => Ok None
    end;
  Ok (primary, secondary, tertiary).

(** From the first [load_model] to the last: [theta_1], with the difference
    of B and C in it when there is a C, and [theta_0]. *)
Definition load_all (E : env) (r : request) :
    res (gmap string tensor * option (gmap string tensor)) :=
  do '(primary, secondary, tertiary) <- resolve E r;
  do theta_1 <-
    match secondary with
    | Some filename => do theta <- load_model E r filename; Ok (Some theta)
    | None => Ok None
    end;
  do theta_1 <-
    match theta_func1 (interp_method r), tertiary with
    | Some f1, Some filename =>
        do theta_2 <- load_model E r filename;
        match theta_1 with
        | Some theta_1 => do theta <- merge_BC f1 theta_1 theta_2; Ok (Some theta)
        | None => raise (ExternalError "theta_1 is None")
        end
    | _, _ => Ok theta_1
    end;
  do theta_0 <- load_model E r primary;
  Ok (theta_0, theta_1).

(** The branch [if "Extract" in interp_method]. *)
Definition extract (r : request) (theta_0 : gmap string tensor) : res saved :=
  match interp_method r with
  | ExtractTE => Ok (Saved theta_0 TextEncoders false false)
  | ExtractVAE => Ok (Saved theta_0 VAE false false)
  | ExtractUnet => Ok (Saved theta_0 Unet false false)
  | _ => raise (UnboundLocalError "output_modelname")
  end.

(** [if theta_1:] and the loop under it. *)
Definition merge (r : request) (theta_0 : gmap string tensor)
    (theta_1 : option (gmap string tensor)) : res (gmap string tensor * bool * bool) :=
  match theta_1 with
  | Some theta_1 =>
      if bool_decide (theta_1 = ∅) then Ok (theta_0, false, false)
      else match theta_func2 (interp_method r) with
           | Some f2 => merge_AB f2 (multiplier r) theta_0 theta_1
           | None => raise (ExternalError "theta_func2 is None")
           end
  | None => Ok (theta_0, false, false)
  end.

(** From [guess] to the change of precision: what is done to the merged
    [theta_0] before it is saved. *)
Definition finish (E : env) (r : request) (probe : option string)
    (theta_0 : gmap string tensor) : res (gmap string tensor) :=
  do g <- guess E theta_0;
  do theta_0 <- bake_vae E r probe g theta_0;
  do theta_0 <- bake_te E r probe g theta_0;
  do theta_0 <- discard E r theta_0;
  recast E r theta_0.

(** The run from the loaded dicts on. *)
Definition merge_and_save (E : env) (r : request) (theta_0 : gmap string tensor)
    (theta_1 : option (gmap string tensor)) : res saved :=
  let probe := unet_test_key theta_0 in
  if Str.contains "Extract" (interp_name (interp_method r)) then extract r theta_0
  else
    do '(theta_0, inpainting, instruct_pix2pix) <- merge r theta_0 theta_1;
    do theta_0 <- finish E r probe theta_0;
    Ok (Saved theta_0 Checkpoint inpainting instruct_pix2pix).

Definition run_modelmerger (E : env) (r : request) : res saved :=
  do '(theta_0, theta_1) <- load_all E r;
  merge_and_save E r theta_0 theta_1.

(** ** The classes of keys *)

(** The markers of each block: the alternatives of the patterns of
    [load_model]. *)
Definition markers (b : block) : list string :=
  match b with
  | Backbone => ["model.diffusion_model"]
  | Vae => ["first_stage_model"; "vae"]
  | TextEncoder => ["text_model"; "conditioner.embedders"; "cond_stage_model.model"]
  end.

Definition marked (b : block) (key : string) : bool :=
  Re.search (Re.Group (markers b)) key.

(** A key is of a block when the markers of that block, and of no other,
    are found in it. *)
Definition classify (key : string) : option block :=
  match marked Backbone key, marked Vae key, marked TextEncoder key with
  | true, false, false => Some Backbone
  | false, true, false => Some Vae
  | false, false, true => Some TextEncoder
  | _, _, _ => None
  end.

(** ** A small environment to run the model in *)

Module Sample.

(** A natural number as a float32, and the Python float [0.5]. *)
Definition q (n : nat) : float := Float.of_Z Float.Single (Z.of_nat n).

Definition half : float := S754_finite false 4503599627370496 (-53).

(** A float32 vector of natural numbers. *)
Definition vec (l : list nat) : tensor := Tensor [length l] Float.Single (q <$> l).

(** A convolution weight of one filter and [c] channels of size one by one. *)
Definition conv (l : list nat) : tensor :=
  Tensor [1; length l; 1; 1] Float.Single (q <$> l).

(** A vector of integers in a format, and a vector of one float. *)
Definition vec_of (f : Float.format) (l : list Z) : tensor :=
  Tensor [length l] f (Float.of_Z f <$> l).

Definition scalar (f : Float.format) (x : float) : tensor := Tensor [1] f [x].

(** What the VAE file of this environment is remapped to: its keys under
    the prefix of the VAE of a checkpoint. *)
Definition prefixed (source : gmap string tensor) : gmap (option string) tensor :=
  list_to_map ((λ kv, (Some ("first_stage_model." +:+ kv.1), kv.2)) <$> map_to_list source).

(** Every registry is the identity on the names of [files]; a pattern is
    read as one whose only operator is [.]; no tensor changes under [to]. *)
Definition sample_env (files : gmap string (gmap string tensor)) : env := {|
  guess_t := unit;
  checkpoint_aliases := λ name, if bool_decide (is_Some (files !! name)) then Some name else None;
  load_torch_file := λ name, of_option (ExternalError "load_torch_file") (files !! name);
  vae_dict := λ name, if bool_decide (is_Some (files !! name)) then Some name else None;
  vae_load_torch_file := λ name, of_option (ExternalError "load_torch_file") (files !! name);
  module_list := λ name, if bool_decide (is_Some (files !! name)) then Some name else None;
  re_compile := λ pattern, Some (Re.search_wild pattern);
  guess := λ _, Ok ();
  replace_state_dict := λ sd asd _, Ok (prefixed asd ∪ sd);
  tensor_to := λ _ t, t;
|}.

Definition unet_key : string := "model.diffusion_model.input_blocks.0.0.weight".
Definition vae_key : string := "first_stage_model.decoder.conv_in.weight".
Definition te_key : string := "cond_stage_model.transformer.text_model.embeddings.token_embedding.weight".

Definition plain (names : list string) (m : interp) (alpha : float) : request := {|
  model_names := names;
  interp_method := m;
  multiplier := alpha;
  save_u := "No change";
  save_v := "No change";
  save_t := "No change";
  calc_fp32 := false;
  bake_in_vae := "None";
  bake_in_te := [];
  discard_weights := "";
|}.

(** The VAE and the text encoders are to be removed, and the VAE that is
    built in A is asked for. *)
Definition keep_built_in : request := {|
  model_names := ["A"];
  interp_method := InterpNone;
  multiplier := Float.zero;
  save_u := "No change";
  save_v := "None (remove)";
  save_t := "None (remove)";
  calc_fp32 := false;
  bake_in_vae := "Built in (A)";
  bake_in_te := [];
  discard_weights := "";
|}.

(** The VAE is removed and none is baked in. *)
Definition remove_vae : request := {|
  model_names := ["A"];
  interp_method := InterpNone;
  multiplier := Float.zero;
  save_u := "No change";
  save_v := "None (remove)";
  save_t := "No change";
  calc_fp32 := false;
  bake_in_vae := "None";
  bake_in_te := [];
  discard_weights := "";
|}.

Definition encoder_key : string := "first_stage_model.encoder.conv_in.weight".

(** Four checkpoints in which the probe of the architecture finds none of
    its keys, the last with the nine channels of an inpainting model, and a
    VAE file. *)
Definition files : gmap string (gmap string tensor) :=
  {[ "A" := {[ unet_key := conv [1; 2; 3; 4]; encoder_key := vec [1]; vae_key := vec [2];
               te_key := vec [10] ]};
     "B" := {[ unet_key := conv [3; 4; 5; 6]; vae_key := vec [4]; te_key := vec [20] ]};
     "C" := {[ vae_key := vec [1] ]};
     "inpainting" := {[ unet_key := conv [10; 20; 30; 40; 50; 60; 70; 80; 90];
                        vae_key := vec [6] ]};
     "ext.vae" := {[ "encoder.conv_in.weight" := vec [7];
                     "decoder.conv_in.weight" := vec [8] ]} ]}.

(** The VAE of the file is baked in. *)
Definition bake_external : request := {|
  model_names := ["A"];
  interp_method := InterpNone;
  multiplier := Float.zero;
  save_u := "No change";
  save_v := "No change";
  save_t := "No change";
  calc_fp32 := false;
  bake_in_vae := "ext.vae";
  bake_in_te := [];
  discard_weights := "";
|}.

(** The VAE of the file is baked in; the encoder is not wanted. *)
Definition bake_and_discard : request := {|
  model_names := ["A"];
  interp_method := InterpNone;
  multiplier := Float.zero;
  save_u := "No change";
  save_v := "No change";
  save_t := "No change";
  calc_fp32 := false;
  bake_in_vae := "ext.vae";
  bake_in_te := [];
  discard_weights := "first_stage_model.encoder.";
|}.

(** The run of a request on [files], and what it saves. *)
Definition run (r : request) : res saved := run_modelmerger (sample_env files) r.

Definition saved_by (r : request) : saved := value (Saved ∅ Checkpoint false false) (run r).

Definition A : gmap string tensor := files !!! "A".
Definition B : gmap string tensor := files !!! "B".
Definition C : gmap string tensor := files !!! "C".
Definition ext_vae : gmap string tensor := files !!! "ext.vae".
Definition inpainting : gmap string tensor := files !!! "inpainting".

(** Two matrices, of nine and of four columns. *)
Definition flat9 : tensor := Tensor [1; 9] Float.Single (q <$> [1; 2; 3; 4; 5; 6; 7; 8; 9]).
Definition flat4 : tensor := Tensor [1; 4] Float.Single (q <$> [1; 1; 1; 1]).

(** The two loops on A, B and C. *)
Definition sum_AB : gmap string tensor * bool * bool :=
  value (∅, false, false) (merge_AB weighted_sum half A B).

Definition delta_BC : gmap string tensor := value ∅ (merge_BC get_difference B C).

Definition sum_A_delta : gmap string tensor * bool * bool :=
  value (∅, false, false) (merge_AB add_difference Float.one A delta_BC).

End Sample.

(** ** The rest of the module *)

(** *** Python strings and dicts *)

Module Py.

Definition newline : string := String "010"%char "".

(** [str.isspace] on ASCII. *)
Definition is_space (c : ascii) : bool :=
  let n := nat_of_ascii c in
  ((9 <=? n) && (n <=? 13)) || ((28 <=? n) && (n <=? 32)).

Fixpoint lstrip (s : string) : string :=
  match s with
  | EmptyString => EmptyString
  | String c s' => if is_space c then lstrip s' else s
  end.

Fixpoint rstrip (s : string) : string :=
  match s with
  | EmptyString => EmptyString
  | String c s' =>
      match rstrip s' with
      | EmptyString => if is_space c then EmptyString else String c EmptyString
      | r => String c r
      end
  end.

(** [s.strip()] *)
Definition strip (s : string) : string := rstrip (lstrip s).

(** [d[k] = v] on a dict that keeps the order of insertion. *)
Fixpoint dict_set {V} (d : list (string * V)) (k : string) (v : V) : list (string * V) :=
  match d with
  | [] => [(k, v)]
  | (k', v') :: d' =>
      if decide (k' = k) then (k, v) :: d' else (k', v') :: dict_set d' k v
  end.

(** [{**d1, **d2}] *)
Definition dict_merge {V} (d1 d2 : list (string * V)) : list (string * V) :=
  foldl (λ d kv, dict_set d kv.1 kv.2) d1 d2.

(** [d.get(k)] *)
Fixpoint dict_get {V} (d : list (string * V)) (k : string) : option V :=
  match d with
  | [] => None
  | (k', v') :: d' => if decide (k' = k) then Some v' else dict_get d' k
  end.

(** A value is false when it is [None] or the empty string. *)
Definition truthy (x : option string) : bool :=
  match x with
  | Some s => bool_decide (s ≠ "")
  | None => false
  end.

(** [x or y] *)
Definition or (x y : option string) : option string := if truthy x then x else y.

End Py.

(** *** [run_pnginfo] *)

(** What [run_pnginfo] returns in second place: [''] or the [geninfo] of
    the image. *)
Inductive geninfo_or_empty (V : Type) : Type :=
  | EmptyStr
  | Geninfo (v : V).
Arguments EmptyStr {V}.
Arguments Geninfo {V} v.

Definition nothing_found : string := "<div><p>Nothing found in the image.<p></div>".

Section pnginfo.

(** [images.read_info_from_image], [plaintext_to_html] and [str] on the
    values of the dict of an image; the keys of that dict are strings. *)
Context {Image V : Type}.
Context (read_info_from_image : Image → V * list (string * V)).
Context (plaintext_to_html : string → string) (str : V → string).

(** What one turn of the loop adds to [info]. *)
Definition info_block (key : string) (text : V) : string :=
  Py.strip (Py.newline +:+ "<div>" +:+ Py.newline
            +:+ "<p><b>" +:+ plaintext_to_html key +:+ "</b></p>" +:+ Py.newline
            +:+ "<p>" +:+ plaintext_to_html (str text) +:+ "</p>" +:+ Py.newline
            +:+ "</div>" +:+ Py.newline)
  +:+ Py.newline.

Definition run_pnginfo (image : option Image) : string * geninfo_or_empty V * string :=
  match image with
  | None => ("", EmptyStr, "")
  | Some image =>
      let '(geninfo, items) := read_info_from_image image in
      let items := Py.dict_merge [("parameters", geninfo)] items in
      let info := foldl (λ info kv, info +:+ info_block kv.1 kv.2) "" items in
      let info := if bool_decide (String.length info = 0) then nothing_found else info in
      ("", Geninfo geninfo, info)
  end.

End pnginfo.

(** *** [create_config] *)

Section create_config.

(** [sd_models_config.find_checkpoint_config_near_filename],
    [shared.sd_default_config] and [os.path.splitext]. *)
Context {Info : Type}.
Context (find_checkpoint_config_near_filename : Info → option string).
Context (sd_default_config : string) (splitext : string → string * string).

Definition config (x : option Info) : option string :=
  let res := match x with
             | Some x => find_checkpoint_config_near_filename x
             | None => None
             end in
  if bool_decide (res ≠ Some sd_default_config) then res else None.

(** The file that [shutil.copyfile] is called on, and the file it is copied
    to; [None] when the function returns before the copy. *)
Definition create_config (ckpt_result : string) (config_source : nat)
    (a b c : option Info) : option (string * string) :=
  let cfg :=
    match config_source with
    | 0 => Py.or (Py.or (config a) (config b)) (config c)
    | 1 => config b
    | 2 => config c
    | _ => None
    end in
  match cfg with
  | None => None
  | Some cfg =>
      let '(filename, _) := splitext ckpt_result in
      Some (cfg, filename +:+ ".yaml")
  end.

End create_config.

(** *** The names of the saved file *)

Section filenames.

(** [f"{round(x, 2)}"] *)
Context (round2 : float → string).

(** The [model_name] of A, and of B and C when there are such. *)
Context (a : string) (b c : option string).

Definition filename_nothing : string := "[]" +:+ a.

Definition filename_weighted_sum (multiplier : float) : res string :=
  do b <- of_option (ExternalError "secondary_model_info is None") b;
  Ok (round2 (Float.minus Float.one multiplier) +:+ "(" +:+ a +:+ ") + " +:+ round2 multiplier
      +:+ "(" +:+ b +:+ ")").

Definition filename_add_difference (multiplier : float) : res string :=
  do b <- of_option (ExternalError "secondary_model_info is None") b;
  do c <- of_option (ExternalError "tertiary_model_info is None") c;
  Ok (a +:+ " + " +:+ round2 multiplier +:+ "(" +:+ b +:+ " - " +:+ c +:+ ")").

Definition filename_unet : string := "[UNET]-" +:+ a.
Definition filename_vae : string := "[VAE]-" +:+ a.
Definition filename_te : string := "[TE]-" +:+ a.

(** The first component of [theta_funcs[interp_method]], called. *)
Definition filename_generator (m : interp) (multiplier : float) : res string :=
  match m with
  | InterpNone => Ok filename_nothing
  | WeightedSum => filename_weighted_sum multiplier
  | AddDifference => filename_add_difference multiplier
  | ExtractUnet => Ok filename_unet
  | ExtractVAE => Ok filename_vae
  | ExtractTE => Ok filename_te
  end.

(** The name of the file of a merge, from the flags of the run. *)
Definition merged_filename (m : interp) (multiplier : float) (custom_name : string)
    (inpainting instruct_pix2pix : bool) : res string :=
  do filename <- (if bool_decide (custom_name = "") then filename_generator m multiplier
                  else Ok custom_name);
  Ok (filename +:+ (if inpainting then ".inpainting" else "")
      +:+ (if instruct_pix2pix then ".instruct-pix2pix" else "")
      +:+ ".safetensors").

(** The name of the file of an extraction. *)
Definition extracted_filename (m : interp) (multiplier : float) (custom_name : string) : res string :=
  do filename <- (if bool_decide (custom_name = "") then filename_generator m multiplier
                  else Ok custom_name);
  Ok (filename +:+ ".safetensors").

End filenames.

(** *** The metadata of the saved file *)

Section metadata.

(** The values of a metadata dict, with the strings among them, and what the
    block [try: metadata.update(json.loads(metadata_json))] leaves of the
    dict: it never raises. *)
Context {V : Type} (of_str : string → V).
Context (update_from_json : string → gmap string V → gmap string V).

(** From [metadata = {}] to the argument [metadata] of [save_file];
    [merge_recipe] and [sd_merge_models] are the two strings that
    [json.dumps] returns. *)
Definition assemble_metadata (save_metadata copy_metadata_fields add_merge_recipe : bool)
    (primary : gmap string V) (secondary tertiary : option (gmap string V))
    (metadata_json merge_recipe sd_merge_models : string) : option (gmap string V) :=
  let metadata : gmap string V := ∅ in
  let metadata :=
    if save_metadata && copy_metadata_fields then
      let metadata := primary ∪ metadata in
      let metadata := match secondary with Some s => s ∪ metadata | None => metadata end in
      match tertiary with Some t => t ∪ metadata | None => metadata end
    else metadata in
  let metadata :=
    if save_metadata then <["format" := of_str "pt"]> (update_from_json metadata_json metadata)
    else metadata in
  let metadata :=
    if save_metadata && add_merge_recipe then
      <["sd_merge_models" := of_str sd_merge_models]>
        (<["sd_merge_recipe" := of_str merge_recipe]> metadata)
    else metadata in
  if bool_decide (0 < size metadata) then Some metadata else None.

End metadata.

(** *** What the remaining properties are stated with *)

Definition is_extract (m : interp) : bool :=
  match m with
  | ExtractUnet | ExtractVAE | ExtractTE => true
  | _ => false
  end.

(** The type that an extraction is saved as. *)
Definition extracted_type (m : interp) : model_type :=
  match m with
  | ExtractTE => TextEncoders
  | ExtractVAE => VAE
  | ExtractUnet => Unet
  | _ => Checkpoint
  end.

(** The save policy of the block that an extraction saves. *)
Definition own_policy (r : request) : string :=
  match interp_method r with
  | ExtractUnet => save_u r
  | ExtractVAE => save_v r
  | ExtractTE => save_t r
  | _ => ""
  end.

(** A key that the first pass of [load_model] removes. *)
Definition stripped (r : request) (key : string) : bool :=
  (strips r TextEncoder && marked TextEncoder key)
  || (strips r Vae && marked Vae key)
  || (strips r Backbone && marked Backbone key).

(** A key that the pass on [discard_weights] removes. *)
Definition discarded (E : env) (r : request) (key : string) : bool :=
  bool_decide (discard_weights r ≠ "")
  && match re_compile E (discard_weights r) with
     | Some search => search key
     | None => false
     end.

(** The three patterns of the change of precision. *)
Definition unet_cast_regex : Re.regex := Re.Wild "model.diffusion_model.".
Definition vae_cast_regex : Re.regex := Re.Group ["first_stage_model"; "vae"].
Definition te_cast_regex : Re.regex := Re.Group ["text_model"; "conditioner.embedders"].

(** What a save policy makes of the tensor under a key, for the pattern of
    its block. *)
Definition converted_by (E : env) (regex : Re.regex) (save : string)
    (key : string) (v : tensor) : tensor :=
  match precision_case E save with
  | Some to => if Re.search regex key then to v else v
  | None => v
  end.

(** The value of a key in the metadata of the models of a run: that of C,
    else that of B, else that of A. *)
Definition copied_field {V} (primary : gmap string V)
    (secondary tertiary : option (gmap string V)) (key : string) : option V :=
  match tertiary ≫= (.!! key) with
  | Some v => Some v
  | None => match secondary ≫= (.!! key) with
            | Some v => Some v
            | None => primary !! key
            end
  end.

(** The save policies that name a precision. *)
Definition precisions : list string := ["bfloat16"; "float16"; "fp8e4m3"; "fp8e5m2"].

(** The pairs of channels that the loop "Merging A and B" knows of. *)
Definition known_channels : list (nat * nat) := [(4, 9); (4, 8); (8, 4); (9, 4)].

Module Case.

Definition items : list (string * string) :=
  [("Software", "webui"); ("parameters", "a cat"); ("Comment", " x ")].

(** A checkpoint with a tensor under a key with no marker, and a text
    encoder that the registry of modules does not have. *)
Definition files : gmap string (gmap string tensor) :=
  {[ "A" := {[ Sample.unet_key := Sample.conv [1; 2; 3; 4]; Sample.vae_key := Sample.vec [2];
               "model_ema.decay" := Sample.vec [9] ]};
     "B" := {[ Sample.unet_key := Sample.conv [3; 4; 5; 6; 7] ]} ]}.

Definition A : gmap string tensor := files !!! "A".
Definition B : gmap string tensor := files !!! "B".

Definition extract_vae : request := {|
  model_names := ["A"; "B"];
  interp_method := ExtractVAE;
  multiplier := Sample.half;
  save_u := "No change";
  save_v := "float16";
  save_t := "No change";
  calc_fp32 := false;
  bake_in_vae := "None";
  bake_in_te := [];
  discard_weights := "";
|}.

(** The same extraction, asked with other names after the first, another
    multiplier and other policies for the blocks that are not saved. *)
Definition extract_vae_again : request := {|
  model_names := ["A"; "C"; "D"];
  interp_method := ExtractVAE;
  multiplier := Float.one;
  save_u := "None (remove)";
  save_v := "bfloat16";
  save_t := "fp8e4m3";
  calc_fp32 := false;
  bake_in_vae := "None";
  bake_in_te := [];
  discard_weights := "";
|}.

Definition built_in_te : request := {|
  model_names := ["A"];
  interp_method := InterpNone;
  multiplier := Float.zero;
  save_u := "No change";
  save_v := "No change";
  save_t := "No change";
  calc_fp32 := false;
  bake_in_vae := "None";
  bake_in_te := ["Built in (A)"];
  discard_weights := "";
|}.

(** An environment whose [to] marks the tensor it converts: it puts the
    number of the type in front of the shape. *)
Definition marking_env : env := {|
  guess_t := unit;
  checkpoint_aliases := λ name, if bool_decide (is_Some (files !! name)) then Some name else None;
  load_torch_file := λ name, of_option (ExternalError "load_torch_file") (files !! name);
  vae_dict := λ _, None;
  vae_load_torch_file := λ _, raise (ExternalError "load_torch_file");
  module_list := λ _, None;
  re_compile := λ pattern, if bool_decide (pattern = "(") then None
                           else Some (Re.search_wild pattern);
  guess := λ _, Ok ();
  replace_state_dict := λ sd asd _, Ok (Sample.prefixed asd ∪ sd);
  tensor_to := λ d t,
    Tensor (match d with
            | Float32 => 32 | BFloat16 => 17 | Float16 => 16
            | Float8_e4m3fn => 8 | Float8_e5m2 => 9
            end :: shape t) (format t) (data t);
|}.

End Case.

(** * Properties *)

(** ** The error monad *)

Lemma bind_Ok {A B} (m : res A) (f : A → res B) (b : B) :
  bind m f = Ok b ↔ ∃ a, m = Ok a ∧ f a = Ok b.
Proof.
  split.
  - destruct m as [a|e]; simpl; [eauto | discriminate].
  - intros (a & -> & Hf). exact Hf.
Qed.

Lemma bind_Err {A B} (m : res A) (f : A → res B) (e : abort) :
  m = Err e → bind m f = Err e.
Proof. intros ->. reflexivity. Qed.

Lemma of_option_Ok {A} (e : exn) (o : option A) (a : A) :
  of_option e o = Ok a ↔ o = Some a.
Proof. destruct o; simpl; split; intros H; by inversion H. Qed.

(** Splits every hypothesis [bind m f = Ok b] into its two steps. *)
Ltac inv_bind :=
  repeat match goal with
  | H : bind _ _ = Ok _ |- _ =>
      let a := fresh "x" in
      let H1 := fresh "Hstep" in
      apply bind_Ok in H as (a & H1 & H)
  | H : Ok _ = Ok _ |- _ => injection H as H; try subst
  | H : Err _ = Ok _ |- _ => discriminate H
  | H : raise _ = Ok _ |- _ => discriminate H
  | H : of_option _ _ = Ok _ |- _ => apply of_option_Ok in H
  end.

(** ** Floating-point numbers *)

(** *** Mantissas and shifts *)

Lemma iter_pos_nat {A} (f : A → A) (p : positive) (x : A) :
  SpecFloat.iter_pos f p x = Nat.iter (Pos.to_nat p) f x.
Proof.
  revert x. induction p as [p IH|p IH|]; intros x; cbn [SpecFloat.iter_pos].
  - rewrite !IH, Pos2Nat.inj_xI.
    replace (S (2 * Pos.to_nat p)) with (S (Pos.to_nat p + Pos.to_nat p)) by lia.
    by rewrite Nat.iter_succ_r, Nat.iter_add.
  - rewrite !IH, Pos2Nat.inj_xO.
    replace (2 * Pos.to_nat p) with (Pos.to_nat p + Pos.to_nat p) by lia.
    by rewrite Nat.iter_add.
  - done.
Qed.

Lemma pos_iter_shl (d m : positive) : Pos.iter xO m d = Float.shl (Pos.to_nat d) m.
Proof. by rewrite Pos2Nat.inj_iter. Qed.

Lemma digits_shl (k : nat) (m : positive) :
  Zpos (digits2_pos (Float.shl k m)) = (Zpos (digits2_pos m) + Z.of_nat k)%Z.
Proof.
  induction k as [|k IH]; [simpl; lia|].
  change (Float.shl (S k) m) with (xO (Float.shl k m)). simpl digits2_pos.
  rewrite Pos2Z.inj_succ, IH. lia.
Qed.

Lemma shr_shl (k : nat) (m : positive) :
  Nat.iter k shr_1 {| shr_m := Zpos (Float.shl k m); shr_r := false; shr_s := false |}
  = {| shr_m := Zpos m; shr_r := false; shr_s := false |}.
Proof.
  induction k as [|k IH]; [done|].
  rewrite Nat.iter_succ_r. exact IH.
Qed.

Lemma mul_shl (k : nat) (m : positive) : (m * Float.shl k 1)%positive = Float.shl k m.
Proof.
  induction k as [|k IH]; [simpl; lia|].
  change (Float.shl (S k) 1) with (xO (Float.shl k 1)). change (Float.shl (S k) m) with (xO (Float.shl k m)).
  by rewrite Pos.mul_xO_r, IH.
Qed.

Section format.

Variables prec emax : Z.

Lemma bounded_spec (m : positive) (e : Z) :
  bounded prec emax m e = true ↔
  (fexp prec emax (Zpos (digits2_pos m) + e) = e ∧ e ≤ emax - prec)%Z.
Proof.
  unfold bounded, canonical_mantissa.
  rewrite andb_true_iff, Z.eqb_eq, Z.leb_le. done.
Qed.

Lemma shr_exact (k : nat) (m : positive) (e : Z) :
  shr {| shr_m := Zpos (Float.shl k m); shr_r := false; shr_s := false |} (e - Z.of_nat k) (Z.of_nat k)
  = ({| shr_m := Zpos m; shr_r := false; shr_s := false |}, e).
Proof.
  destruct k as [|k].
  - simpl. f_equal. lia.
  - unfold shr. change (Z.of_nat (S k)) with (Zpos (Pos.of_succ_nat k)). cbv beta iota.
    rewrite iter_pos_nat, SuccNat2Pos.id_succ, shr_shl. f_equal. lia.
Qed.

(** A number of the format, written with a longer mantissa, is rounded to
    itself. *)
Lemma round_aux_exact (s : bool) (m : positive) (e : Z) (k : nat) :
  bounded prec emax m e = true →
  binary_round_aux prec emax s (Zpos (Float.shl k m)) (e - Z.of_nat k) loc_Exact
  = S754_finite s m e.
Proof.
  intros [Hc He]%bounded_spec.
  unfold binary_round_aux, shr_fexp.
  change (Zdigits2 (Zpos (Float.shl k m))) with (Zpos (digits2_pos (Float.shl k m))).
  rewrite digits_shl.
  replace (Zpos (digits2_pos m) + Z.of_nat k + (e - Z.of_nat k))%Z
    with (Zpos (digits2_pos m) + e)%Z by lia.
  rewrite Hc.
  replace (e - (e - Z.of_nat k))%Z with (Z.of_nat k) by lia.
  change (shr_record_of_loc (Zpos (Float.shl k m)) loc_Exact)
    with {| shr_m := Zpos (Float.shl k m); shr_r := false; shr_s := false |}.
  rewrite shr_exact.
  cbn [shr_m loc_of_shr_record round_nearest_even shr_record_of_loc Zdigits2].
  rewrite Hc, Z.sub_diag. cbn [shr shr_m].
  by apply Z.leb_le in He as ->.
Qed.

Lemma round_aux_valid (s : bool) (m : positive) (e : Z) :
  bounded prec emax m e = true →
  binary_round_aux prec emax s (Zpos m) e loc_Exact = S754_finite s m e.
Proof.
  intros Hb. generalize (round_aux_exact s m e 0 Hb).
  change (Float.shl 0 m) with m. by rewrite Z.sub_0_r.
Qed.

Lemma round_exact (s : bool) (m : positive) (e : Z) (k : nat) :
  bounded prec emax m e = true →
  binary_round prec emax s (Float.shl k m) (e - Z.of_nat k) = S754_finite s m e.
Proof.
  intros Hb. pose proof Hb as [Hc He]%bounded_spec.
  unfold binary_round. rewrite digits_shl.
  replace (Zpos (digits2_pos m) + Z.of_nat k + (e - Z.of_nat k))%Z
    with (Zpos (digits2_pos m) + e)%Z by lia.
  rewrite Hc. unfold shl_align.
  replace (e - (e - Z.of_nat k))%Z with (Z.of_nat k) by lia.
  destruct k as [|k]; [|change (Z.of_nat (S k)) with (Zpos (Pos.of_succ_nat k)) at 1];
    cbv beta iota; by apply round_aux_exact.
Qed.

Lemma mul_one (s : bool) (m : positive) (e : Z) :
  (0 < prec)%Z →
  bounded prec emax m e = true →
  SFmul prec emax (S754_finite s m e)
    (S754_finite false (Float.shl (Z.to_nat (prec - 1)) 1) (1 - prec))
  = S754_finite s m e.
Proof.
  intros Hprec Hb. unfold SFmul. rewrite mul_shl, xorb_false_r.
  replace (e + (1 - prec))%Z with (e - Z.of_nat (Z.to_nat (prec - 1)))%Z by lia.
  by apply round_aux_exact.
Qed.

End format.

(** A number of a format is a number of every wider format. *)
Lemma round_wider (p1 x1 p2 x2 : Z) (s : bool) (m : positive) (e : Z) :
  (p1 ≤ p2)%Z → (x1 ≤ x2)%Z → (2 ≤ x2)%Z →
  bounded p1 x1 m e = true →
  ∃ k, binary_round p2 x2 s m e = S754_finite s (Float.shl k m) (e - Z.of_nat k)
       ∧ bounded p2 x2 (Float.shl k m) (e - Z.of_nat k) = true.
Proof.
  intros Hp Hx Hx2 [Hc He]%bounded_spec.
  set (e2 := fexp p2 x2 (Zpos (digits2_pos m) + e)).
  assert (e2 ≤ e)%Z as Hle by (unfold e2, fexp, emin in *; lia).
  exists (Z.to_nat (e - e2)).
  assert (bounded p2 x2 (Float.shl (Z.to_nat (e - e2)) m) (e - Z.of_nat (Z.to_nat (e - e2))) = true) as Hb.
  { apply bounded_spec. rewrite digits_shl.
    replace (Zpos (digits2_pos m) + Z.of_nat (Z.to_nat (e - e2)) + (e - Z.of_nat (Z.to_nat (e - e2))))%Z
      with (Zpos (digits2_pos m) + e)%Z by lia.
    fold e2. unfold e2, fexp, emin in *. lia. }
  split; [|done].
  unfold binary_round. fold e2. unfold shl_align.
  destruct (e2 - e)%Z as [|d|d] eqn:Hd.
  - replace (Z.to_nat (e - e2)) with 0 in * by lia.
    change (Float.shl 0 m) with m in *. rewrite Z.sub_0_r in *. by apply round_aux_valid.
  - lia.
  - rewrite pos_iter_shl.
    replace (Z.to_nat (e - e2)) with (Pos.to_nat d) in * by lia.
    replace e2 with (e - Z.of_nat (Pos.to_nat d))%Z by lia.
    by apply round_aux_valid.
Qed.

(** *** What is rounded is a number of the format *)

Section digits.
Local Open Scope Z_scope.

Lemma digits_log2 (p : positive) : Zpos (digits2_pos p) = Z.succ (Z.log2 (Zpos p)).
Proof.
  assert (∀ q, digits2_pos q = Pos.size q) as Hsize.
  { induction q as [q IH|q IH|]; simpl; by rewrite ?IH. }
  destruct p as [p|p|]; simpl; rewrite ?Hsize; lia.
Qed.

Lemma Zdigits2_log2 (m : Z) : (0 < m)%Z → Zdigits2 m = Z.succ (Z.log2 m).
Proof. destruct m as [|p|p]; [lia| |lia]. intros _. apply digits_log2. Qed.

Lemma Zdigits2_nonneg (m : Z) : (0 ≤ Zdigits2 m)%Z.
Proof. destruct m; simpl; lia. Qed.

Lemma Zdigits2_mono (a b : Z) : (0 ≤ a ≤ b)%Z → (Zdigits2 a ≤ Zdigits2 b)%Z.
Proof.
  intros [Ha Hab]. destruct (decide (a = 0)) as [->|Hne].
  - apply Zdigits2_nonneg.
  - rewrite !Zdigits2_log2 by lia. pose proof (Z.log2_le_mono a b Hab). lia.
Qed.

Lemma Zdigits2_shiftr (m k : Z) :
  (0 ≤ m)%Z → (0 ≤ k)%Z → (0 < m / 2 ^ k)%Z →
  Zdigits2 (m / 2 ^ k) = (Zdigits2 m - k)%Z.
Proof.
  intros Hm Hk Hpos.
  assert (0 < m)%Z as Hm'.
  { destruct (decide (m = 0)) as [->|]; [|lia]. by rewrite Z.div_0_l in Hpos by lia. }
  rewrite !Zdigits2_log2 by done.
  rewrite <- Z.shiftr_div_pow2 in * by done.
  rewrite Z.log2_shiftr by done.
  assert (0 ≤ Z.log2 (Z.shiftr m k))%Z as H0.
  { apply Z.log2_nonneg. }
  destruct (decide (k ≤ Z.log2 m)%Z); [lia|].
  assert (m < 2 ^ k)%Z as Hlt by (apply Z.log2_lt_pow2; lia).
  rewrite Z.shiftr_div_pow2, Z.div_small in Hpos by lia. lia.
Qed.

Lemma Zdigits2_small (m k : Z) :
  (0 ≤ m)%Z → (0 ≤ k)%Z → (m / 2 ^ k = 0)%Z → (Zdigits2 m ≤ k)%Z.
Proof.
  intros Hm Hk Hz. destruct (decide (m = 0)) as [->|Hne]; [done|].
  rewrite Zdigits2_log2 by lia.
  assert (m < 2 ^ k)%Z as Hlt.
  { apply Z.div_small_iff in Hz; [|lia..]. destruct Hz as [?|?]; [lia|].
    assert (0 < 2 ^ k)%Z by (apply Z.pow_pos_nonneg; lia). lia. }
  apply Z.log2_lt_pow2 in Hlt; lia.
Qed.

Lemma shr_1_m (mrs : shr_record) :
  (0 ≤ shr_m mrs)%Z → shr_m (shr_1 mrs) = (shr_m mrs / 2)%Z.
Proof.
  destruct mrs as [m r s]. cbn [shr_m]. intros Hm.
  rewrite <- Z.div2_div.
  destruct m as [|[p|p|]|p]; try done; lia.
Qed.

Lemma iter_shr_m (k : nat) (mrs : shr_record) :
  (0 ≤ shr_m mrs)%Z →
  shr_m (Nat.iter k shr_1 mrs) = (shr_m mrs / 2 ^ Z.of_nat k)%Z.
Proof.
  intros Hm. induction k as [|k IH].
  - simpl. by rewrite Z.div_1_r.
  - rewrite Nat.iter_succ, shr_1_m.
    + rewrite IH, Nat2Z.inj_succ, Z.pow_succ_r by lia.
      rewrite Z.div_div by (try apply Z.pow_pos_nonneg; lia).
      f_equal. lia.
    + rewrite IH. apply Z.div_pos; [done|]. apply Z.pow_pos_nonneg; lia.
Qed.

Lemma shr_spec (mrs : shr_record) (e n : Z) :
  (0 ≤ shr_m mrs)%Z → (0 ≤ n)%Z →
  ∃ mrs', shr mrs e n = (mrs', (e + n)%Z) ∧ shr_m mrs' = (shr_m mrs / 2 ^ n)%Z.
Proof.
  intros Hm Hn. destruct n as [|p|p]; [| |lia].
  - exists mrs. simpl. rewrite Z.add_0_r, Z.div_1_r. done.
  - eexists. split; [reflexivity|].
    rewrite iter_pos_nat, iter_shr_m by done. by rewrite positive_nat_Z.
Qed.

Lemma shr_record_of_loc_m (m : Z) (l : location) : shr_m (shr_record_of_loc m l) = m.
Proof. by destruct l as [|[]]. Qed.

Lemma round_nearest_even_range (m : Z) (l : location) :
  (m ≤ round_nearest_even m l ≤ m + 1)%Z.
Proof. destruct l as [|[]]; simpl; try destruct (Z.even m); lia. Qed.

End digits.

Section valid.
Local Open Scope Z_scope.

Variables prec emax : Z.

Lemma fexp_mono (x y : Z) : (x ≤ y)%Z → (fexp prec emax x ≤ fexp prec emax y)%Z.
Proof. unfold fexp. lia. Qed.

Lemma shr_fexp_spec (m e : Z) (l : location) :
  (0 ≤ m)%Z → (e ≤ fexp prec emax (Zdigits2 m + e))%Z →
  ∃ mrs, shr_fexp prec emax m e l = (mrs, fexp prec emax (Zdigits2 m + e))
         ∧ shr_m mrs = (m / 2 ^ (fexp prec emax (Zdigits2 m + e) - e))%Z.
Proof.
  intros Hm He. unfold shr_fexp.
  destruct (shr_spec (shr_record_of_loc m l) e (fexp prec emax (Zdigits2 m + e) - e))
    as (mrs & Hshr & Hmrs); [by rewrite shr_record_of_loc_m|lia|].
  exists mrs. rewrite Hshr, Hmrs, shr_record_of_loc_m. split; [f_equal; lia|done].
Qed.

(** What is rounded is a number of the format. *)
Lemma binary_round_aux_valid (s : bool) (m e : Z) (l : location) :
  (0 < prec)%Z → (0 ≤ m)%Z → (e ≤ fexp prec emax (Zdigits2 m + e))%Z →
  valid_binary prec emax (binary_round_aux prec emax s m e l) = true.
Proof.
  intros Hprec Hm He. unfold binary_round_aux.
  destruct (shr_fexp_spec m e l Hm He) as (mrs1 & -> & Hm1).
  set (e1 := fexp prec emax (Zdigits2 m + e)) in *.
  set (m2 := round_nearest_even (shr_m mrs1) (loc_of_shr_record mrs1)).
  assert (0 ≤ shr_m mrs1)%Z as Hm1pos.
  { rewrite Hm1. apply Z.div_pos; [done|]. apply Z.pow_pos_nonneg; lia. }
  pose proof (round_nearest_even_range (shr_m mrs1) (loc_of_shr_record mrs1)) as Hm2.
  fold m2 in Hm2.
  assert (e1 ≤ fexp prec emax (Zdigits2 m2 + e1))%Z as He1.
  { destruct (decide (shr_m mrs1 = 0)) as [Hz|Hnz].
    - rewrite Hm1 in Hz. apply Zdigits2_small in Hz; [|done|lia].
      unfold e1, fexp, emin in *. lia.
    - assert (Zdigits2 (shr_m mrs1) = Zdigits2 m - (e1 - e))%Z as Hd.
      { rewrite Hm1. apply Zdigits2_shiftr; [done|lia|]. rewrite <- Hm1. lia. }
      assert (Zdigits2 (shr_m mrs1) ≤ Zdigits2 m2)%Z as Hmono
        by (apply Zdigits2_mono; lia).
      unfold e1 at 1. apply fexp_mono. lia. }
  destruct (shr_fexp_spec m2 e1 loc_Exact) as (mrs2 & -> & Hm3); [lia|done|].
  destruct (shr_m mrs2) as [|m3|m3] eqn:Hmrs2; [done| |done].
  destruct (Z.leb_spec (fexp prec emax (Zdigits2 m2 + e1)) (emax - prec)) as [Hle|Hgt];
    [|done].
  simpl. apply bounded_spec. split; [|done].
  assert (Zdigits2 (Zpos m3) = Zdigits2 m2 - (fexp prec emax (Zdigits2 m2 + e1) - e1))%Z
    as Hd.
  { rewrite Hm3. apply Zdigits2_shiftr; [lia|lia|]. rewrite <- Hm3. lia. }
  simpl in Hd. rewrite Hd. f_equal. lia.
Qed.

Lemma binary_round_valid (s : bool) (m : positive) (e : Z) :
  (0 < prec)%Z →
  valid_binary prec emax (binary_round prec emax s m e) = true.
Proof.
  intros Hprec. unfold binary_round, shl_align.
  destruct (fexp prec emax (Zpos (digits2_pos m) + e) - e)%Z as [|d|d] eqn:Hd.
  - apply binary_round_aux_valid; [done|lia|]. simpl. lia.
  - apply binary_round_aux_valid; [done|lia|]. simpl. lia.
  - apply binary_round_aux_valid; [done|lia|]. simpl.
    rewrite pos_iter_shl, digits_shl.
    replace (Zpos (digits2_pos m) + Z.of_nat (Pos.to_nat d)
             + fexp prec emax (Zpos (digits2_pos m) + e))%Z
      with (Zpos (digits2_pos m) + e)%Z by lia.
    lia.
Qed.

End valid.

(** *** The four formats *)

Section formats.

Lemma prec_pos (f : Float.format) : (0 < Float.prec f)%Z.
Proof. by destruct f. Qed.

Lemma round_valid (f : Float.format) (x : float) : Float.valid f (Float.round f x).
Proof.
  destruct x as [| | |s m e]; try done.
  apply binary_round_valid, prec_pos.
Qed.

Lemma round_zero (f : Float.format) (x : float) :
  Float.is_zero x = true → Float.is_zero (Float.round f x) = true.
Proof. by destruct x. Qed.

Lemma normalize_valid (f : Float.format) (z e : Z) (s : bool) :
  Float.valid f (binary_normalize (Float.prec f) (Float.emax f) z e s).
Proof. destruct z; [done|apply binary_round_valid, prec_pos..]. Qed.

Lemma add_valid (f : Float.format) (x y : float) :
  Float.valid f x → Float.valid f y → Float.valid f (Float.add f x y).
Proof.
  intros Hx Hy.
  destruct x as [sx|sx| |sx mx ex], y as [sy|sy| |sy my ey]; try done;
    try (by destruct sx, sy).
  apply normalize_valid.
Qed.

Lemma sub_valid (f : Float.format) (x y : float) :
  Float.valid f x → Float.valid f y → Float.valid f (Float.sub f x y).
Proof.
  intros Hx Hy.
  destruct x as [sx|sx| |sx mx ex], y as [sy|sy| |sy my ey]; try done;
    try (by destruct sx, sy).
  apply normalize_valid.
Qed.

Lemma scaled_valid (f : Float.format) (c x : float) : Float.valid f (Float.scaled f c x).
Proof. apply round_valid. Qed.

(** The format of the computation holds the numbers of the format. *)
Lemma opmath_wider (f : Float.format) (s : bool) (m : positive) (e : Z) :
  Float.valid f (S754_finite s m e) →
  ∃ k, Float.round (Float.opmath f) (S754_finite s m e)
       = S754_finite s (Float.shl k m) (e - Z.of_nat k)
       ∧ Float.valid (Float.opmath f) (S754_finite s (Float.shl k m) (e - Z.of_nat k)).
Proof.
  intros Hv.
  apply (round_wider (Float.prec f) (Float.emax f)); [by destruct f..|done].
Qed.

(** So does the format of a result: the conversion to it loses nothing. *)
Lemma promote_round_trip (f g : Float.format) (x : float) :
  Float.valid f x → Float.round f (Float.round (Float.promote f g) x) = x.
Proof.
  intros Hv. destruct x as [| | |s m e]; try done.
  destruct (round_wider (Float.prec f) (Float.emax f)
              (Float.prec (Float.promote f g)) (Float.emax (Float.promote f g)) s m e)
    as (k & Hk & _); [by destruct f, g..|done|].
  unfold Float.round at 2. rewrite Hk. by apply round_exact.
Qed.

Lemma opmath_one (f : Float.format) :
  Float.round (Float.opmath f) Float.one
  = S754_finite false (Float.shl (Z.to_nat (Float.prec (Float.opmath f) - 1)) 1)
      (1 - Float.prec (Float.opmath f)).
Proof. by destruct f. Qed.

(** [1.0 * x] is [x]. *)
Lemma scaled_one (f : Float.format) (x : float) :
  Float.valid f x → Float.scaled f Float.one x = x.
Proof.
  intros Hv. unfold Float.scaled. rewrite opmath_one.
  destruct x as [s|s| |s m e].
  - simpl. by rewrite xorb_false_r.
  - simpl. by rewrite xorb_false_r.
  - done.
  - destruct (opmath_wider f s m e Hv) as (k & -> & Hk).
    unfold Float.mul. rewrite mul_one; [|apply prec_pos|done].
    by apply round_exact.
Qed.

(** [0.0 * x] is a zero, when [x] is finite. *)
Lemma scaled_zero (f : Float.format) (x : float) :
  Float.valid f x → Float.finite x = true →
  Float.is_zero (Float.scaled f Float.zero x) = true.
Proof.
  intros Hv Hf. unfold Float.scaled.
  destruct x as [s|s| |s m e]; try done.
  destruct (opmath_wider f s m e Hv) as (k & -> & Hk). done.
Qed.

Lemma add_zero_r (f : Float.format) (x z : float) :
  Float.is_zero z = true → Float.kept x (Float.add f x z).
Proof.
  destruct z as [sz| | |]; try done. intros _.
  destruct x as [[]|s| |s m e], sz; unfold Float.kept; simpl; auto.
Qed.

Lemma add_zero_l (f : Float.format) (x z : float) :
  Float.is_zero z = true → Float.kept x (Float.add f z x).
Proof.
  destruct z as [sz| | |]; try done. intros _.
  destruct x as [[]|s| |s m e], sz; unfold Float.kept; simpl; auto.
Qed.

End formats.

(** ** Elementwise operators on tensors of one shape *)

Section same_shape.

Lemma pad_shape_full (s : list nat) : Torch.pad_shape (length s) s = s.
Proof. unfold Torch.pad_shape. by rewrite Nat.sub_diag. Qed.

Lemma broadcast_dims_diag (s : list nat) : Torch.broadcast_dims s s = Some s.
Proof.
  induction s as [|n s IH]; simpl; [done|].
  rewrite decide_True by done. simpl. by rewrite IH.
Qed.

Lemma broadcast_shapes_diag (s : list nat) : Torch.broadcast_shapes s s = Some s.
Proof.
  unfold Torch.broadcast_shapes. rewrite Nat.max_id, pad_shape_full.
  apply broadcast_dims_diag.
Qed.

Lemma expand_to_shape (t : tensor) : Torch.expand_to t (shape t) = Some t.
Proof. unfold Torch.expand_to. by rewrite decide_True. Qed.

Lemma tensor_eta (t : tensor) : Tensor (shape t) (format t) (data t) = t.
Proof. by destruct t. Qed.

Lemma convert_shape (f : Float.format) (t : tensor) : shape (Torch.convert f t) = shape t.
Proof. unfold Torch.convert. by destruct (decide _). Qed.

Lemma convert_format (f : Float.format) (t : tensor) : format (Torch.convert f t) = f.
Proof. unfold Torch.convert. by destruct (decide _). Qed.

Lemma convert_length (f : Float.format) (t : tensor) :
  length (data (Torch.convert f t)) = length (data t).
Proof. unfold Torch.convert. destruct (decide _); [done|]. apply length_fmap. Qed.

Lemma convert_same (f : Float.format) (t : tensor) : format t = f → Torch.convert f t = t.
Proof. intros H. unfold Torch.convert. by rewrite decide_True. Qed.

Lemma convert_well_typed (f : Float.format) (t : tensor) :
  well_typed t → well_typed (Torch.convert f t).
Proof.
  unfold well_typed, Torch.convert. intros Ht.
  destruct (decide (format t = f)) as [<-|Hne]; [done|]. simpl.
  apply Forall_fmap, Forall_true. intros x. apply round_valid.
Qed.

(** The conversion of an operand to the format of the result is exact:
    the conversion back gives the operand. *)
Lemma convert_round_trip (g : Float.format) (t : tensor) :
  well_typed t →
  Torch.convert (format t) (Torch.convert (Float.promote (format t) g) t) = t.
Proof.
  intros Ht. unfold Torch.convert at 2.
  destruct (decide (format t = Float.promote (format t) g)) as [_|Hne].
  { by apply convert_same. }
  unfold Torch.convert. rewrite decide_False by (simpl; congruence).
  destruct t as [s f d]. unfold well_typed in Ht. simpl in *. f_equal.
  induction Ht as [|x d Hx Hd IH]; [done|]. csimpl.
  by rewrite promote_round_trip, IH.
Qed.

Lemma convert_zeros (f : Float.format) (t : tensor) :
  Forall (λ x, Float.is_zero x = true) (data t) →
  Forall (λ x, Float.is_zero x = true) (data (Torch.convert f t)).
Proof.
  unfold Torch.convert. intros Ht. destruct (decide _); [done|]. simpl.
  apply Forall_fmap. eapply Forall_impl; [done|]. intros x. apply round_zero.
Qed.

Lemma binop_same_shape (op : Float.format → float → float → float) (a b : tensor) :
  shape a = shape b →
  Torch.binop op a b
  = Ok (Tensor (shape a) (Float.promote (format a) (format b))
          (zip_with (op (Float.promote (format a) (format b)))
             (data (Torch.convert (Float.promote (format a) (format b)) a))
             (data (Torch.convert (Float.promote (format a) (format b)) b)))).
Proof.
  intros Hs. unfold Torch.binop.
  rewrite <- Hs, broadcast_shapes_diag. unfold Torch.expand_to.
  rewrite !decide_True; [done|by rewrite convert_shape..].
Qed.

Lemma same_shape_same_length (a b : tensor) :
  well_formed a → well_formed b → shape a = shape b →
  length (data a) = length (data b).
Proof. unfold well_formed. intros Ha Hb Hs. by rewrite Ha, Hb, Hs. Qed.

(** The operators keep the elements in the format of the result. *)
Lemma zip_with_valid (f : Float.format) (op : float → float → float) (l k : list float) :
  (∀ x y, Float.valid f x → Float.valid f y → Float.valid f (op x y)) →
  Forall (Float.valid f) l → Forall (Float.valid f) k →
  Forall (Float.valid f) (zip_with op l k).
Proof.
  intros Hop Hl. revert k.
  induction Hl as [|x l Hx Hl IH]; intros k Hk; [done|].
  destruct Hk as [|y k Hy Hk]; [done|]. simpl. constructor; auto.
Qed.

Lemma sub_well_typed (a b d : tensor) :
  shape a = shape b → well_typed a → well_typed b →
  Torch.sub a b = Ok d → well_typed d.
Proof.
  intros Hs Ha Hb. unfold Torch.sub. rewrite binop_same_shape by done.
  intros [= <-]. unfold well_typed. simpl.
  apply zip_with_valid.
  - apply sub_valid.
  - rewrite <- (convert_format (Float.promote (format a) (format b)) a) at 1.
    by apply convert_well_typed.
  - rewrite <- (convert_format (Float.promote (format a) (format b)) b) at 1.
    by apply convert_well_typed.
Qed.

(** The multipliers 1 and 0. *)
Lemma scale_one (t : tensor) : well_typed t → Torch.scale Float.one t = t.
Proof.
  intros Ht. destruct t as [s f d]. unfold Torch.scale, well_typed in *.
  simpl in *. f_equal.
  induction Ht as [|x d Hx Hd IH]; [done|]. csimpl. by rewrite scaled_one, IH.
Qed.

Lemma scale_zero (t : tensor) :
  well_typed t → all_finite t →
  Forall (λ x, Float.is_zero x = true) (data (Torch.scale Float.zero t)).
Proof.
  unfold well_typed, all_finite. intros Ht Hf. simpl.
  apply Forall_fmap. rewrite Forall_forall in *.
  intros x Hx. apply scaled_zero; auto.
Qed.

Lemma zip_with_add_zeros_r (f : Float.format) (l z : list float) :
  length l = length z → Forall (λ x, Float.is_zero x = true) z →
  Forall2 Float.kept l (zip_with (Float.add f) l z).
Proof.
  intros Hlen Hz. revert l Hlen.
  induction Hz as [|y z Hy Hz IH]; intros [|x l] Hlen; simplify_eq/=; constructor.
  - by apply add_zero_r.
  - by apply IH.
Qed.

Lemma zip_with_add_zeros_l (f : Float.format) (l z : list float) :
  length l = length z → Forall (λ x, Float.is_zero x = true) z →
  Forall2 Float.kept l (zip_with (Float.add f) z l).
Proof.
  intros Hlen Hz. revert l Hlen.
  induction Hz as [|y z Hy Hz IH]; intros [|x l] Hlen; simplify_eq/=; constructor.
  - by apply add_zero_l.
  - by apply IH.
Qed.

(** Adding a tensor of zeros. *)
Lemma add_zeros_r (a z : tensor) :
  shape a = shape z → length (data a) = length (data z) →
  Forall (λ x, Float.is_zero x = true) (data z) →
  ∃ r, Torch.add a z = Ok r ∧ shape r = shape a
       ∧ format r = Float.promote (format a) (format z)
       ∧ Forall2 Float.kept (data (Torch.convert (format r) a)) (data r).
Proof.
  intros Hs Hlen Hz. unfold Torch.add. rewrite binop_same_shape by done.
  eexists. split; [reflexivity|]. split; [done|]. split; [done|]. simpl.
  apply zip_with_add_zeros_r.
  - by rewrite !convert_length.
  - by apply convert_zeros.
Qed.

Lemma add_zeros_l (z b : tensor) :
  shape z = shape b → length (data z) = length (data b) →
  Forall (λ x, Float.is_zero x = true) (data z) →
  ∃ r, Torch.add z b = Ok r ∧ shape r = shape b
       ∧ format r = Float.promote (format z) (format b)
       ∧ Forall2 Float.kept (data (Torch.convert (format r) b)) (data r).
Proof.
  intros Hs Hlen Hz. unfold Torch.add. rewrite binop_same_shape by done.
  eexists. split; [reflexivity|]. split; [done|]. split; [done|]. simpl.
  apply zip_with_add_zeros_l.
  - by rewrite !convert_length.
  - by apply convert_zeros.
Qed.


(** The weighted sum at the multipliers 0 and 1. *)
Lemma weighted_sum_at_zero (a b : tensor) :
  well_formed a → well_formed b → shape a = shape b →
  well_typed a → well_typed b → all_finite b →
  ∃ r, weighted_sum a b Float.zero = Ok r ∧ shape r = shape a
       ∧ format r = Float.promote (format a) (format b)
       ∧ Forall2 Float.kept (data (Torch.convert (format r) a)) (data r).
Proof.
  intros Ha Hb Hs Hta Htb Hfin.
  pose proof (same_shape_same_length a b Ha Hb Hs) as Hlen.
  unfold weighted_sum.
  change (Float.minus Float.one Float.zero) with Float.one.
  rewrite scale_one by done.
  apply (add_zeros_r a (Torch.scale Float.zero b)).
  - done.
  - simpl. by rewrite length_fmap.
  - by apply scale_zero.
Qed.

Lemma weighted_sum_at_one (a b : tensor) :
  well_formed a → well_formed b → shape a = shape b →
  well_typed a → well_typed b → all_finite a →
  ∃ r, weighted_sum a b Float.one = Ok r ∧ shape r = shape b
       ∧ format r = Float.promote (format a) (format b)
       ∧ Forall2 Float.kept (data (Torch.convert (format r) b)) (data r).
Proof.
  intros Ha Hb Hs Hta Htb Hfin.
  pose proof (same_shape_same_length a b Ha Hb Hs) as Hlen.
  unfold weighted_sum.
  change (Float.minus Float.one Float.one) with Float.zero.
  rewrite (scale_one b) by done.
  apply (add_zeros_l (Torch.scale Float.zero a) b).
  - done.
  - simpl. by rewrite length_fmap.
  - by apply scale_zero.
Qed.

End same_shape.

(** C7. For tensors [a] and [b] of one shape, [weighted_sum a b 0] is [a]
    when no element of [b] is an infinity or a NaN, and [weighted_sum a b 1]
    is [b] when no element of [a] is: element by element, in the format of
    the result, but for the negative zeros, which may come out positive. *)
Theorem weighted_sum_endpoints (a b : tensor) :
  well_formed a → well_formed b → shape a = shape b →
  well_typed a → well_typed b →
  (all_finite b →
   ∃ r, weighted_sum a b Float.zero = Ok r ∧ shape r = shape a
        ∧ format r = Float.promote (format a) (format b)
        ∧ Forall2 Float.kept (data (Torch.convert (format r) a)) (data r))
  ∧ (all_finite a →
     ∃ r, weighted_sum a b Float.one = Ok r ∧ shape r = shape b
          ∧ format r = Float.promote (format a) (format b)
          ∧ Forall2 Float.kept (data (Torch.convert (format r) b)) (data r)).
Proof.
  intros Ha Hb Hs Hta Htb. split; intros Hfin.
  - by apply weighted_sum_at_zero.
  - by apply weighted_sum_at_one.
Qed.

Lemma weighted_sum_endpoints_witness :
  well_formed (Sample.vec [1; 2]) ∧ well_formed (Sample.vec [5; 7])
  ∧ shape (Sample.vec [1; 2]) = shape (Sample.vec [5; 7])
  ∧ well_typed (Sample.vec [1; 2]) ∧ well_typed (Sample.vec [5; 7])
  ∧ all_finite (Sample.vec [5; 7]) ∧ all_finite (Sample.vec [1; 2])
  ∧ weighted_sum (Sample.vec [1; 2]) (Sample.vec [5; 7]) Float.zero = Ok (Sample.vec [1; 2])
  ∧ weighted_sum (Sample.vec [1; 2]) (Sample.vec [5; 7]) Float.one = Ok (Sample.vec [5; 7])
  ∧ (∃ r, weighted_sum (Sample.vec [1; 2]) (Sample.vec [5; 7]) Float.zero = Ok r
          ∧ shape r = shape (Sample.vec [1; 2])
          ∧ format r = Float.promote (format (Sample.vec [1; 2])) (format (Sample.vec [5; 7]))
          ∧ Forall2 Float.kept (data (Torch.convert (format r) (Sample.vec [1; 2]))) (data r))
  ∧ (∃ r, weighted_sum (Sample.vec [1; 2]) (Sample.vec [5; 7]) Float.one = Ok r
          ∧ shape r = shape (Sample.vec [5; 7])
          ∧ format r = Float.promote (format (Sample.vec [1; 2])) (format (Sample.vec [5; 7]))
          ∧ Forall2 Float.kept (data (Torch.convert (format r) (Sample.vec [5; 7]))) (data r)).
Proof.
  split; [reflexivity|]. split; [reflexivity|]. split; [reflexivity|].
  split; [compute_done|]. split; [compute_done|].
  split; [compute_done|]. split; [compute_done|].
  split; [compute_done|]. split; [compute_done|].
  destruct (weighted_sum_endpoints (Sample.vec [1; 2]) (Sample.vec [5; 7]))
    as [H0 H1]; [reflexivity|reflexivity|reflexivity|compute_done|compute_done|].
  split; [apply H0|apply H1]; compute_done.
Defined.

(** C7, as it is stated, fails on tensors of floats: an infinity under the
    multiplier 0 gives a NaN, which the sum keeps, and a negative zero of
    the operand that is kept comes out positive. *)
Lemma weighted_sum_of_infinity :
  well_formed (Sample.vec [1]) ∧ well_typed (Sample.vec [1])
  ∧ well_formed (Sample.scalar Float.Single (S754_infinity false))
  ∧ well_typed (Sample.scalar Float.Single (S754_infinity false))
  ∧ shape (Sample.vec [1]) = shape (Sample.scalar Float.Single (S754_infinity false))
  ∧ weighted_sum (Sample.vec [1]) (Sample.scalar Float.Single (S754_infinity false)) Float.zero
    = Ok (Sample.scalar Float.Single S754_nan)
  ∧ weighted_sum (Sample.scalar Float.Single (S754_infinity false)) (Sample.vec [1]) Float.one
    = Ok (Sample.scalar Float.Single S754_nan)
  ∧ weighted_sum (Sample.scalar Float.Single (S754_zero true)) (Sample.vec [1]) Float.zero
    = Ok (Sample.scalar Float.Single (S754_zero false)).
Proof. repeat split; compute_done. Qed.

(** C8. For tensors [a], [b] and [c] of one shape, the difference of [b] and
    [c] is defined; when no element of it is an infinity or a NaN, adding it
    to [a] with the multiplier 0 gives [a]: element by element, in the
    format of the result, but for the negative zeros, which may come out
    positive. *)
Theorem add_difference_zero (a b c : tensor) :
  well_formed a → well_formed b → well_formed c →
  shape a = shape b → shape b = shape c →
  well_typed b → well_typed c →
  ∃ d, get_difference b c = Ok d
       ∧ (all_finite d →
          ∃ r, add_difference a d Float.zero = Ok r ∧ shape r = shape a
               ∧ format r = Float.promote (format a) (format d)
               ∧ Forall2 Float.kept (data (Torch.convert (format r) a)) (data r)).
Proof.
  intros Ha Hb Hc Hab Hbc Htb Htc.
  pose proof (same_shape_same_length a b Ha Hb Hab) as Hlab.
  pose proof (same_shape_same_length b c Hb Hc Hbc) as Hlbc.
  destruct (Torch.sub b c) as [d|e] eqn:Hd.
  2:{ unfold Torch.sub in Hd. by rewrite binop_same_shape in Hd. }
  exists d. split; [done|]. intros Hfin.
  pose proof (sub_well_typed b c d Hbc Htb Htc Hd) as Htd.
  unfold Torch.sub in Hd. rewrite binop_same_shape in Hd by done.
  injection Hd as Hd.
  assert (shape d = shape b) as Hsd by (by rewrite <- Hd).
  assert (length (data d) = length (data b)) as Hld.
  { rewrite <- Hd. simpl. rewrite length_zip_with, !convert_length. lia. }
  unfold add_difference.
  apply (add_zeros_r a (Torch.scale Float.zero d)).
  - simpl. by rewrite Hsd.
  - simpl. rewrite length_fmap. by rewrite Hld.
  - by apply scale_zero.
Qed.

Lemma add_difference_zero_witness :
  well_formed (Sample.vec [1; 2]) ∧ well_formed (Sample.vec [5; 7])
  ∧ well_formed (Sample.vec [4; 9])
  ∧ shape (Sample.vec [1; 2]) = shape (Sample.vec [5; 7])
  ∧ shape (Sample.vec [5; 7]) = shape (Sample.vec [4; 9])
  ∧ well_typed (Sample.vec [5; 7]) ∧ well_typed (Sample.vec [4; 9])
  ∧ get_difference (Sample.vec [5; 7]) (Sample.vec [4; 9])
    = Ok (Sample.vec_of Float.Single [1%Z; (-2)%Z])
  ∧ all_finite (Sample.vec_of Float.Single [1%Z; (-2)%Z])
  ∧ add_difference (Sample.vec [1; 2]) (Sample.vec_of Float.Single [1%Z; (-2)%Z]) Float.zero
    = Ok (Sample.vec [1; 2])
  ∧ ∃ d, get_difference (Sample.vec [5; 7]) (Sample.vec [4; 9]) = Ok d
         ∧ (all_finite d →
            ∃ r, add_difference (Sample.vec [1; 2]) d Float.zero = Ok r
                 ∧ shape r = shape (Sample.vec [1; 2])
                 ∧ format r = Float.promote (format (Sample.vec [1; 2])) (format d)
                 ∧ Forall2 Float.kept
                     (data (Torch.convert (format r) (Sample.vec [1; 2]))) (data r)).
Proof.
  do 5 (split; [reflexivity|]).
  split; [compute_done|]. split; [compute_done|].
  split; [compute_done|]. split; [compute_done|]. split; [compute_done|].
  apply (add_difference_zero (Sample.vec [1; 2]) (Sample.vec [5; 7]) (Sample.vec [4; 9]));
    first [reflexivity | compute_done].
Defined.

(** C8, as it is stated, fails on tensors of floats: the difference of two
    finite float16 numbers overflows to an infinity, which the multiplier 0
    turns into a NaN. *)
Lemma difference_overflows :
  well_formed (Sample.vec_of Float.Half [60000%Z])
  ∧ well_formed (Sample.vec_of Float.Half [(-60000)%Z])
  ∧ well_typed (Sample.vec_of Float.Half [60000%Z])
  ∧ well_typed (Sample.vec_of Float.Half [(-60000)%Z])
  ∧ all_finite (Sample.vec_of Float.Half [60000%Z])
  ∧ all_finite (Sample.vec_of Float.Half [(-60000)%Z])
  ∧ get_difference (Sample.vec_of Float.Half [60000%Z]) (Sample.vec_of Float.Half [(-60000)%Z])
    = Ok (Sample.scalar Float.Half (S754_infinity false))
  ∧ add_difference (Sample.vec_of Float.Half [60000%Z])
      (Sample.scalar Float.Half (S754_infinity false)) Float.zero
    = Ok (Sample.scalar Float.Half S754_nan).
Proof. repeat split; compute_done. Qed.

(** ** Walking a state dict *)

Section walks.

Context {A B : Type} (f : string → A → res B).

Lemma traverse_traversed (theta : gmap string A) : traversed f theta (traverse f theta).
Proof.
  unfold traverse.
  apply (map_fold_weak_ind (λ r m, traversed f m r)); clear theta.
  - intros key. by rewrite !lookup_empty.
  - intros key v m r Hfresh IH. destruct r as [done|e]; simpl in *.
    + destruct (f key v) as [v'|e] eqn:Hf; simpl.
      * intros key'. destruct (decide (key = key')) as [<-|Hne].
        -- rewrite !lookup_insert_eq. eauto.
        -- rewrite !lookup_insert_ne by done. apply IH.
      * exists key, v. by rewrite lookup_insert_eq.
    + destruct IH as (key' & v' & Hin & Hf). exists key', v'.
      split; [|done]. rewrite lookup_insert_ne; [done|]. congruence.
Qed.

Lemma traverse_Ok (theta : gmap string A) (m : gmap string B) (key : string) :
  traverse f theta = Ok m →
  match theta !! key with
  | Some v => ∃ v', f key v = Ok v' ∧ m !! key = Some v'
  | None => m !! key = None
  end.
Proof. intros H. pose proof (traverse_traversed theta) as T. rewrite H in T. apply T. Qed.

Lemma traverse_fails (theta : gmap string A) (key : string) (v : A) (e : abort) :
  theta !! key = Some v → f key v = Err e →
  ∃ e' key' v', traverse f theta = Err e' ∧ theta !! key' = Some v' ∧ f key' v' = Err e'.
Proof.
  intros Hin Hf. pose proof (traverse_traversed theta) as T.
  destruct (traverse f theta) as [m|e'] eqn:Ht; simpl in T.
  - specialize (T key). rewrite Hin in T. destruct T as (v' & Hok & _). congruence.
  - destruct T as (key' & v' & ? & ?). eauto 6.
Qed.

End walks.

Lemma pop_matching_lookup (regex : Re.regex) (theta : gmap string tensor) (key : string) :
  pop_matching regex theta !! key
  = if Re.search regex key then None else theta !! key.
Proof.
  unfold pop_matching. rewrite map_lookup_filter.
  destruct (theta !! key) as [v|]; simpl; [|by destruct (Re.search regex key)].
  destruct (Re.search regex key) eqn:Hs.
  - rewrite option_guard_False; [done|]. simpl. congruence.
  - rewrite option_guard_True; done.
Qed.

Lemma cast_matching_lookup (regex : Re.regex) (to : tensor → tensor)
    (theta : gmap string tensor) (key : string) :
  cast_matching regex to theta !! key
  = (λ v, if Re.search regex key then to v else v) <$> theta !! key.
Proof. unfold cast_matching. rewrite map_lookup_imap. by destruct (theta !! key). Qed.

Lemma overlay_lookup (converted : gmap (option string) tensor)
    (theta_0 : gmap string tensor) (key : string) :
  overlay converted theta_0 !! key
  = match converted !! Some key with
    | Some v => Some v
    | None => theta_0 !! key
    end.
Proof.
  unfold overlay. revert key.
  apply (map_fold_weak_ind (λ r (m : gmap (option string) tensor),
    ∀ key, r !! key = match m !! Some key with Some v => Some v | None => theta_0 !! key end)).
  - intros key. by rewrite lookup_empty.
  - intros [k|] v m r Hfresh IH key.
    + destruct (decide (k = key)) as [->|Hne].
      * by rewrite !lookup_insert_eq.
      * rewrite !lookup_insert_ne by congruence. apply IH.
    + rewrite lookup_insert_ne by done. apply IH.
Qed.

(** ** The patterns *)

Lemma existsb_pointwise {X} (p q : X → bool) (l : list X) :
  (∀ x, p x = q x) → existsb p l = existsb q l.
Proof. intros H. induction l as [|x l IH]; simpl; [done|]. by rewrite H, IH. Qed.

Lemma match_group_here_one (lit : string) (prev : bool) (s : string) :
  Re.match_group_here [lit] prev s = Str.boundary prev s && Re.match_alt s lit.
Proof. unfold Re.match_group_here. simpl. by rewrite orb_false_r. Qed.

Lemma match_group_here_existsb (alts : list string) (prev : bool) (s : string) :
  Re.match_group_here alts prev s
  = existsb (λ lit, Re.match_group_here [lit] prev s) alts.
Proof.
  rewrite (existsb_pointwise _ (λ lit, Str.boundary prev s && Re.match_alt s lit))
    by (intros lit; apply match_group_here_one).
  unfold Re.match_group_here.
  induction alts as [|lit alts IH]; simpl.
  - by rewrite andb_false_r.
  - rewrite <- IH. by destruct (Str.boundary prev s), (Re.match_alt s lit).
Qed.

Lemma existsb_orb {X} (p q : X → bool) (l : list X) :
  existsb (λ x, p x || q x) l = existsb p l || existsb q l.
Proof.
  induction l as [|x l IH]; simpl; [done|]. rewrite IH.
  by destruct (p x), (q x), (existsb p l), (existsb q l).
Qed.

(** A group finds what one of its alternatives finds. *)
Lemma search_group_existsb (alts : list string) (prev : bool) (s : string) :
  Re.search_group alts prev s = existsb (λ lit, Re.search_group [lit] prev s) alts.
Proof.
  revert prev. induction s as [|c s IH]; intros prev; simpl.
  - rewrite !orb_false_r. rewrite match_group_here_existsb.
    apply existsb_pointwise. intros lit. by rewrite orb_false_r.
  - rewrite IH, match_group_here_existsb, <- existsb_orb. done.
Qed.

Lemma search_markers (alts : list string) (key : string) :
  Re.search (Re.Group alts) key
  = existsb (λ lit, Re.search (Re.Group [lit]) key) alts.
Proof. apply search_group_existsb. Qed.

(** ** [load_model] *)

Lemma marked_markers (b : block) (key : string) :
  marked b key = existsb (λ lit, Re.search (Re.Group [lit]) key) (markers b).
Proof. apply search_markers. Qed.

(** What the first pass of [load_model] leaves under a key. *)
Lemma strip_unwanted_lookup (r : request) (theta : gmap string tensor) (key : string) :
  ∃ theta', strip_unwanted r theta = Ok theta'
    ∧ theta' !! key
      = if (strips r TextEncoder && marked TextEncoder key)
           || (strips r Vae && marked Vae key)
           || (strips r Backbone && marked Backbone key)
        then None else theta !! key.
Proof.
  unfold strip_unwanted, strip_code. rewrite !marked_markers.
  destruct (strips r TextEncoder), (strips r Vae), (strips r Backbone);
    cbn [Nat.add Nat.ltb Nat.leb strip_regex of_option bind markers];
    eexists; (split; [reflexivity|]);
    rewrite ?pop_matching_lookup, ?search_markers; cbn [existsb andb orb];
    try reflexivity;
    repeat match goal with
    | |- context [Re.search (Re.Group [?l]) key] =>
        destruct (Re.search (Re.Group [l]) key); cbn [andb orb]
    end; reflexivity.
Qed.

Lemma discard_lookup (E : env) (r : request) (theta theta' : gmap string tensor) (key : string) :
  discard E r theta = Ok theta' →
  theta' !! key
  = if bool_decide (discard_weights r ≠ "")
    then match re_compile E (discard_weights r) with
         | Some search => if search key then None else theta !! key
         | None => theta !! key
         end
    else theta !! key.
Proof.
  unfold discard. case_bool_decide; [|by intros [= ->]].
  destruct (re_compile E (discard_weights r)) as [search|]; simpl; [|discriminate].
  intros [= <-]. apply pop_matching_lookup.
Qed.

Lemma discard_None (E : env) (r : request) (theta theta' : gmap string tensor) (key : string) :
  discard E r theta = Ok theta' → theta !! key = None → theta' !! key = None.
Proof.
  intros H Hn. rewrite (discard_lookup E r theta theta' key H), Hn.
  case_bool_decide; [|done].
  destruct (re_compile E (discard_weights r)) as [search|]; [|done].
  by destruct (search key).
Qed.

Lemma load_model_None (E : env) (r : request) (filename : string)
    (theta : gmap string tensor) (key : string) :
  load_model E r filename = Ok theta →
  (∃ b, strips r b = true ∧ marked b key = true)
  ∨ (discard_weights r ≠ "" ∧ ∃ search, re_compile E (discard_weights r) = Some search
                                         ∧ search key = true) →
  theta !! key = None.
Proof.
  unfold load_model. intros H Hcase. inv_bind.
  assert (x1 !! key = None) as Hgone.
  { destruct Hcase as [(b & Hb & Hm)|(Hne & search & Hc & Hs)].
    - eapply discard_None; [done|].
      destruct (strip_unwanted_lookup r x key) as (theta' & Hs & Hl).
      rewrite Hs in Hstep0. injection Hstep0 as <-. rewrite Hl.
      destruct b; rewrite Hb, Hm; cbn [andb]; rewrite ?orb_true_r; cbn [orb]; done.
    - rewrite (discard_lookup E r x0 x1 key Hstep1).
      rewrite bool_decide_eq_true_2 by done. by rewrite Hc, Hs. }
  destruct (calc_fp32 r); [|done]. by rewrite lookup_fmap, Hgone.
Qed.

(** ** The classes of keys *)

Lemma classify_marked (key : string) (b : block) :
  classify key = Some b → ∀ b', marked b' key = bool_decide (b' = b).
Proof.
  unfold classify.
  destruct (marked Backbone key) eqn:Hu, (marked Vae key) eqn:Hv,
    (marked TextEncoder key) eqn:Ht; intros [= <-]; intros []; done.
Qed.

(** C9. A block whose bake source is "Built in (A)" is not stripped by
    [load_model], whatever the save policies, "None (remove)" included: the
    entries of the loaded dict under the keys of that block go through the
    stripping pass as they are. *)
Theorem built_in_A_overrides_remove (r : request) (theta : gmap string tensor)
    (b : block) (key : string) :
  (b = Vae ∧ bake_in_vae r = "Built in (A)")
  ∨ (b = TextEncoder ∧ "Built in (A)" ∈ bake_in_te r) →
  classify key = Some b →
  strips r b = false
  ∧ ∃ theta', strip_unwanted r theta = Ok theta' ∧ theta' !! key = theta !! key.
Proof.
  intros Hsrc Hclass.
  assert (strips r b = false) as Hoff.
  { destruct Hsrc as [[-> Hv]|[-> Ht]]; simpl.
    - rewrite (bool_decide_eq_true_2 _ Hv). apply andb_false_r.
    - rewrite (bool_decide_eq_true_2 _ Ht). apply andb_false_r. }
  split; [done|].
  destruct (strip_unwanted_lookup r theta key) as (theta' & Hs & Hl).
  exists theta'. split; [done|]. rewrite Hl.
  rewrite !(classify_marked key b Hclass).
  destruct b; rewrite Hoff; simpl; rewrite ?andb_false_r; try done;
    destruct Hsrc as [[? _]|[? _]]; done.
Qed.

Lemma built_in_A_overrides_remove_witness :
  ((Vae = Vae ∧ bake_in_vae Sample.keep_built_in = "Built in (A)")
   ∨ (Vae = TextEncoder ∧ "Built in (A)" ∈ bake_in_te Sample.keep_built_in))
  ∧ classify Sample.vae_key = Some Vae
  ∧ save_v Sample.keep_built_in = "None (remove)"
  ∧ strips Sample.keep_built_in Vae = false
  ∧ ∃ theta',
      strip_unwanted Sample.keep_built_in {[ Sample.vae_key := Sample.vec [1] ]} = Ok theta'
      ∧ theta' !! Sample.vae_key
        = ({[ Sample.vae_key := Sample.vec [1] ]} : gmap string tensor) !! Sample.vae_key.
Proof.
  split; [left; split; reflexivity|].
  split; [reflexivity|].
  split; [reflexivity|].
  apply (built_in_A_overrides_remove Sample.keep_built_in
           {[ Sample.vae_key := Sample.vec [1] ]} Vae Sample.vae_key).
  - left. split; reflexivity.
  - reflexivity.
Defined.

(** ** The keys of a run *)

Lemma load_all_primary (E : env) (r : request) (theta_0 : gmap string tensor)
    (theta_1 : option (gmap string tensor)) :
  load_all E r = Ok (theta_0, theta_1) →
  ∃ filename, load_model E r filename = Ok theta_0.
Proof.
  unfold load_all. intros H. inv_bind.
  destruct x as [[primary secondary] tertiary]. inv_bind. eauto.
Qed.

Lemma merge_AB_keys (f2 : tensor → tensor → float → res tensor) (alpha : float)
    (theta_0 theta_1 theta' : gmap string tensor) (i p : bool) (key : string) :
  merge_AB f2 alpha theta_0 theta_1 = Ok (theta', i, p) →
  theta' !! key = None ↔ theta_0 !! key = None.
Proof.
  unfold merge_AB. intros H. inv_bind.
  pose proof (traverse_Ok _ theta_0 x key Hstep) as T.
  rewrite lookup_fmap.
  destruct (theta_0 !! key) as [a|].
  - destruct T as (v' & _ & ->). done.
  - by rewrite T.
Qed.

Lemma merge_keys (r : request) (theta_0 theta' : gmap string tensor)
    (theta_1 : option (gmap string tensor)) (i p : bool) (key : string) :
  merge r theta_0 theta_1 = Ok (theta', i, p) →
  theta' !! key = None ↔ theta_0 !! key = None.
Proof.
  unfold merge. destruct theta_1 as [theta_1|]; [|by intros [= <- _ _]].
  case_bool_decide; [by intros [= <- _ _]|].
  destruct (theta_func2 (interp_method r)) as [f2|]; [|discriminate].
  apply merge_AB_keys.
Qed.

Lemma recast_step_keys (E : env) (st : res (option Re.regex * gmap string tensor))
    (save : save_item) (st' : option Re.regex * gmap string tensor) (key : string) :
  recast_step E st save = Ok st' →
  ∃ st0, st = Ok st0 ∧ (st'.2 !! key = None ↔ st0.2 !! key = None).
Proof.
  unfold recast_step. intros H. inv_bind. destruct x as [regex theta_0].
  exists (regex, theta_0). split; [done|].
  destruct save as [[|[|[|n]]]|s]; simplify_eq/=; try done.
  destruct (bool_decide (s ≠ "None") && bool_decide (s ≠ "No change"));
    [|by simplify_eq/=].
  destruct (precision_case E s) as [to|]; [|by simplify_eq/=].
  inv_bind. simpl. rewrite cast_matching_lookup.
  by destruct (theta_0 !! key).
Qed.

Lemma recast_fold_keys (E : env) (l : list save_item)
    (st : res (option Re.regex * gmap string tensor))
    (st' : option Re.regex * gmap string tensor) (key : string) :
  foldl (recast_step E) st l = Ok st' →
  ∃ st0, st = Ok st0 ∧ (st'.2 !! key = None ↔ st0.2 !! key = None).
Proof.
  revert st. induction l as [|save l IH]; intros st H; simpl in H.
  - exists st'. done.
  - destruct (IH _ H) as (st1 & Hstep & Hiff).
    destruct (recast_step_keys E st save st1 key Hstep) as (st0 & -> & Hiff0).
    exists st0. split; [done|]. by rewrite Hiff.
Qed.

Lemma recast_keys (E : env) (r : request) (theta theta' : gmap string tensor) (key : string) :
  recast E r theta = Ok theta' → theta' !! key = None ↔ theta !! key = None.
Proof.
  unfold recast. intros H. inv_bind.
  destruct (recast_fold_keys E _ _ x key Hstep) as (st0 & [= <-] & Hiff). done.
Qed.

(** A run that saves either extracts, and saves the loaded A, or merges and
    finishes. *)
Lemma merge_and_save_Ok (E : env) (r : request) (theta_0 : gmap string tensor)
    (theta_1 : option (gmap string tensor)) (s : saved) :
  merge_and_save E r theta_0 theta_1 = Ok s →
  saved_theta s = theta_0
  ∨ ∃ theta' i p, merge r theta_0 theta_1 = Ok (theta', i, p)
                  ∧ finish E r (unet_test_key theta_0) theta' = Ok (saved_theta s).
Proof.
  unfold merge_and_save.
  destruct (Str.contains "Extract" (interp_name (interp_method r))).
  - unfold extract. destruct (interp_method r); intros H; inv_bind; by left.
  - intros H. inv_bind. destruct x as [[theta' i] p]. inv_bind.
    right. exists theta', i, p. done.
Qed.

Lemma finish_discards (E : env) (r : request) (probe : option string)
    (theta theta' : gmap string tensor) (search : string → bool) (key : string) :
  finish E r probe theta = Ok theta' →
  discard_weights r ≠ "" → re_compile E (discard_weights r) = Some search →
  search key = true → theta' !! key = None.
Proof.
  unfold finish. intros H Hne Hc Hs. inv_bind.
  apply (recast_keys E r x2 theta' key H).
  rewrite (discard_lookup E r x1 x2 key Hstep2).
  rewrite bool_decide_eq_true_2 by done. by rewrite Hc, Hs.
Qed.

Lemma finish_without_baking (E : env) (r : request) (probe : option string)
    (theta theta' : gmap string tensor) (key : string) :
  finish E r probe theta = Ok theta' →
  bakes_vae r = false → bakes_te r = false →
  theta !! key = None → theta' !! key = None.
Proof.
  unfold finish, bake_vae, bake_te. intros H Hv Ht Hn.
  rewrite Hv, Ht in H. inv_bind.
  apply (recast_keys E r x2 theta' key H).
  by apply (discard_None E r x1 x2 key Hstep2).
Qed.

(** C10. When a pattern is given in [discard_weights], no key that it finds
    is in the dict that a run saves: the pattern is applied by
    [load_model], and again after the baking of VAE and text encoders,
    before the change of precision. *)
Theorem discarded_keys_absent (E : env) (r : request) (s : saved)
    (search : string → bool) (key : string) :
  discard_weights r ≠ "" →
  re_compile E (discard_weights r) = Some search →
  run_modelmerger E r = Ok s →
  search key = true →
  saved_theta s !! key = None.
Proof.
  intros Hne Hc Hrun Hs. unfold run_modelmerger in Hrun. inv_bind.
  destruct x as [theta_0 theta_1].
  destruct (merge_and_save_Ok E r theta_0 theta_1 s Hrun)
    as [->|(theta' & i & p & _ & Hfin)].
  - destruct (load_all_primary E r theta_0 theta_1 Hstep) as (filename & Hload).
    apply (load_model_None E r filename theta_0 key Hload). right. eauto.
  - by apply (finish_discards E r _ theta' (saved_theta s) search key Hfin).
Qed.

Lemma discarded_keys_absent_witness :
  discard_weights Sample.bake_and_discard ≠ ""
  ∧ re_compile (Sample.sample_env Sample.files) (discard_weights Sample.bake_and_discard)
    = Some (Re.search_wild "first_stage_model.encoder.")
  ∧ Sample.run Sample.bake_and_discard = Ok (Sample.saved_by Sample.bake_and_discard)
  ∧ Re.search_wild "first_stage_model.encoder." Sample.encoder_key = true
  ∧ saved_theta (Sample.saved_by Sample.bake_and_discard) !! Sample.vae_key
    = Some (Sample.vec [8])
  ∧ saved_theta (Sample.saved_by Sample.bake_and_discard) !! Sample.encoder_key = None.
Proof.
  split; [discriminate|]. split; [reflexivity|]. split; [compute_done|].
  split; [reflexivity|]. split; [compute_done|].
  apply (discarded_keys_absent (Sample.sample_env Sample.files) Sample.bake_and_discard
           (Sample.saved_by Sample.bake_and_discard)
           (Re.search_wild "first_stage_model.encoder.") Sample.encoder_key).
  - discriminate.
  - reflexivity.
  - compute_done.
  - reflexivity.
Defined.

(** C4, amended. For every key of the class vae, after a run that saves,
    whose VAE save policy is "None (remove)", whose method is not the
    extraction of the VAE, whose VAE bake source is not "Built in (A)" and
    that bakes in neither a VAE nor a text encoder, the key is not in the
    saved dict. *)
Theorem removed_vae_absent (E : env) (r : request) (s : saved) (key : string) :
  run_modelmerger E r = Ok s →
  save_v r = "None (remove)" →
  interp_method r ≠ ExtractVAE →
  bake_in_vae r ≠ "Built in (A)" →
  bakes_vae r = false → bakes_te r = false →
  classify key = Some Vae →
  saved_theta s !! key = None.
Proof.
  intros Hrun Hv _ Hsrc Hbv Hbt Hclass. unfold run_modelmerger in Hrun. inv_bind.
  destruct x as [theta_0 theta_1].
  destruct (load_all_primary E r theta_0 theta_1 Hstep) as (filename & Hload).
  assert (theta_0 !! key = None) as Hgone.
  { apply (load_model_None E r filename theta_0 key Hload). left. exists Vae. split.
    - simpl. rewrite (bool_decide_eq_true_2 _ Hv), (bool_decide_eq_false_2 _ Hsrc). done.
    - rewrite (classify_marked key Vae Hclass). done. }
  destruct (merge_and_save_Ok E r theta_0 theta_1 s Hrun)
    as [->|(theta' & i & p & Hm & Hfin)]; [done|].
  apply (finish_without_baking E r _ theta' (saved_theta s) key Hfin Hbv Hbt).
  by apply (merge_keys r theta_0 theta' theta_1 i p key Hm).
Qed.

Lemma removed_vae_absent_witness :
  Sample.run Sample.remove_vae = Ok (Sample.saved_by Sample.remove_vae)
  ∧ save_v Sample.remove_vae = "None (remove)"
  ∧ interp_method Sample.remove_vae ≠ ExtractVAE
  ∧ bake_in_vae Sample.remove_vae ≠ "Built in (A)"
  ∧ bakes_vae Sample.remove_vae = false ∧ bakes_te Sample.remove_vae = false
  ∧ classify Sample.vae_key = Some Vae
  ∧ saved_theta (Sample.saved_by Sample.remove_vae) !! Sample.unet_key
    = Some (Sample.conv [1; 2; 3; 4])
  ∧ saved_theta (Sample.saved_by Sample.remove_vae) !! Sample.vae_key = None.
Proof.
  split; [compute_done|]. split; [reflexivity|]. split; [discriminate|].
  split; [discriminate|]. split; [reflexivity|]. split; [reflexivity|].
  split; [reflexivity|]. split; [compute_done|].
  apply (removed_vae_absent (Sample.sample_env Sample.files) Sample.remove_vae
           (Sample.saved_by Sample.remove_vae) Sample.vae_key).
  - compute_done.
  - reflexivity.
  - discriminate.
  - discriminate.
  - reflexivity.
  - reflexivity.
  - reflexivity.
Defined.

(** C4, as it is stated, fails: with the policy "None (remove)" for the VAE
    and the bake source "Built in (A)", the key of the VAE of A is saved. *)
Lemma removed_vae_saved_when_built_in :
  save_v Sample.keep_built_in = "None (remove)"
  ∧ interp_method Sample.keep_built_in ≠ ExtractVAE
  ∧ classify Sample.vae_key = Some Vae
  ∧ Sample.run Sample.keep_built_in = Ok (Sample.saved_by Sample.keep_built_in)
  ∧ saved_theta (Sample.saved_by Sample.keep_built_in) !! Sample.vae_key
    = Some (Sample.vec [2]).
Proof.
  split; [reflexivity|]. split; [discriminate|]. split; [reflexivity|].
  split; compute_done.
Qed.

(** ** Baking *)

(** C3, amended. When the probe of the architecture finds none of its three
    keys, a bake is not skipped: the dict with the one key [None] is handed
    to [replace_state_dict]; if the dict that comes back has lost that key,
    [KeyError] is raised; otherwise every other key of it is written to the
    working dict, and the keys it does not have keep their values. *)
Theorem bake_unknown_architecture (E : env) (g : guess_t E)
    (source theta_0 : gmap string tensor) (converted : gmap (option string) tensor) :
  unet_test_key theta_0 = None →
  replace_state_dict E {[ None := placeholder ]} source g = Ok converted →
  match converted !! None with
  | None => bake E (unet_test_key theta_0) g source theta_0 = raise (KeyError "None")
  | Some _ =>
      ∃ theta', bake E (unet_test_key theta_0) g source theta_0 = Ok theta'
        ∧ ∀ key, theta' !! key = match converted !! Some key with
                                 | Some v => Some v
                                 | None => theta_0 !! key
                                 end
  end.
Proof.
  intros -> Hconv. unfold bake. rewrite Hconv. simpl.
  destruct (converted !! None) as [v|]; [|done].
  eexists. split; [reflexivity|]. intros key.
  rewrite overlay_lookup. by rewrite lookup_delete_ne.
Qed.

Lemma bake_unknown_architecture_witness :
  unet_test_key Sample.A = None
  ∧ replace_state_dict (Sample.sample_env Sample.files) {[ None := placeholder ]}
      Sample.ext_vae ()
    = Ok (Sample.prefixed Sample.ext_vae ∪ {[ None := placeholder ]})
  ∧ ∃ theta', bake (Sample.sample_env Sample.files) (unet_test_key Sample.A) ()
                Sample.ext_vae Sample.A = Ok theta'
      ∧ theta' !! Sample.vae_key = Some (Sample.vec [8])
      ∧ theta' !! Sample.unet_key = Some (Sample.conv [1; 2; 3; 4]).
Proof.
  split; [reflexivity|]. split; [reflexivity|].
  pose proof (bake_unknown_architecture (Sample.sample_env Sample.files) ()
                Sample.ext_vae Sample.A
                (Sample.prefixed Sample.ext_vae ∪ {[ None := placeholder ]})
                eq_refl eq_refl) as H.
  change ((Sample.prefixed Sample.ext_vae ∪ {[ None := placeholder ]}) !! None)
    with (Some placeholder) in H.
  destruct H as (theta' & Hbake & Hkeys).
  exists theta'. split; [exact Hbake|].
  split; [apply (Hkeys Sample.vae_key) | apply (Hkeys Sample.unet_key)].
Defined.

(** C3, as it is stated, fails: the probe finds nothing in A, a VAE is asked
    for, and the run writes the keys of that VAE over those of A. *)
Lemma unknown_architecture_is_baked :
  load_all (Sample.sample_env Sample.files) Sample.bake_external = Ok (Sample.A, None)
  ∧ unet_test_key Sample.A = None
  ∧ bakes_vae Sample.bake_external = true
  ∧ Sample.A !! Sample.vae_key = Some (Sample.vec [2])
  ∧ value ∅ (bake_vae (Sample.sample_env Sample.files) Sample.bake_external
               (unet_test_key Sample.A) () Sample.A) !! Sample.vae_key
    = Some (Sample.vec [8])
  ∧ Sample.run Sample.bake_external = Ok (Sample.saved_by Sample.bake_external)
  ∧ saved_theta (Sample.saved_by Sample.bake_external) !! Sample.vae_key
    = Some (Sample.vec [8]).
Proof.
  split; [compute_done|]. split; [reflexivity|]. split; [reflexivity|].
  split; [compute_done|]. split; [compute_done|]. split; compute_done.
Qed.

(** ** The two merge loops *)

Lemma merge_AB_lookup (f2 : tensor → tensor → float → res tensor) (alpha : float)
    (theta_0 theta_1 theta' : gmap string tensor) (i p : bool) (key : string) :
  merge_AB f2 alpha theta_0 theta_1 = Ok (theta', i, p) →
  match theta_0 !! key with
  | Some a => ∃ t v, merge_AB_key f2 alpha theta_1 key a = Ok (t, v) ∧ theta' !! key = Some t
  | None => theta' !! key = None
  end.
Proof.
  unfold merge_AB. intros H. inv_bind.
  pose proof (traverse_Ok _ theta_0 x key Hstep) as T.
  rewrite lookup_fmap. destruct (theta_0 !! key) as [a|].
  - destruct T as ([t v] & Hkey & ->). eauto.
  - by rewrite T.
Qed.

Lemma merge_AB_key_passed_over (f2 : tensor → tensor → float → res tensor) (alpha : float)
    (theta_1 : gmap string tensor) (key : string) (a : tensor) :
  passed_over theta_1 key → merge_AB_key f2 alpha theta_1 key a = Ok (a, None).
Proof.
  unfold merge_AB_key. intros [->|[->|Hskip]]; [done| |].
  - by destruct (theta_1 !! key).
  - destruct (theta_1 !! key); [|done].
    destruct (Str.contains "model" key); [|done].
    by rewrite bool_decide_eq_true_2.
Qed.

Lemma merge_AB_key_same_shape (f2 : tensor → tensor → float → res tensor) (alpha : float)
    (theta_1 : gmap string tensor) (key : string) (a b : tensor) :
  theta_1 !! key = Some b → Str.contains "model" key = true →
  key ∉ checkpoint_dict_skip_on_merge → shape a = shape b →
  merge_AB_key f2 alpha theta_1 key a = (do t <- f2 a b alpha; Ok (t, None)).
Proof.
  intros Hb Hm Hskip Hs. unfold merge_AB_key. rewrite Hb, Hm.
  rewrite (bool_decide_eq_false_2 _ Hskip).
  rewrite (bool_decide_eq_false_2 (shape a ≠ shape b)) by tauto. done.
Qed.

Lemma merge_AB_passed_over (f2 : tensor → tensor → float → res tensor) (alpha : float)
    (theta_0 theta_1 theta' : gmap string tensor) (i p : bool) (key : string) :
  merge_AB f2 alpha theta_0 theta_1 = Ok (theta', i, p) →
  passed_over theta_1 key → theta' !! key = theta_0 !! key.
Proof.
  intros H Hpass. pose proof (merge_AB_lookup _ _ _ _ _ _ _ key H) as L.
  destruct (theta_0 !! key) as [a|]; [|done].
  destruct L as (t & v & Hkey & ->).
  rewrite (merge_AB_key_passed_over _ _ _ _ a Hpass) in Hkey. by simplify_eq.
Qed.

(** C1, amended. In the loop "Merging A and B" the arithmetic is applied to
    every key of A that is in [theta_1], contains "model" and is not the
    key of the position ids, whatever its class: for tensors of one shape
    the value that is left is that of the operator.  A key of A keeps its
    value when it is not in [theta_1], does not contain "model" or is the
    key of the position ids. *)
Theorem merge_AB_restriction (f2 : tensor → tensor → float → res tensor) (alpha : float)
    (theta_0 theta_1 theta' : gmap string tensor) (i p : bool) :
  merge_AB f2 alpha theta_0 theta_1 = Ok (theta', i, p) →
  (∀ key, passed_over theta_1 key → theta' !! key = theta_0 !! key)
  ∧ (∀ key a b, theta_0 !! key = Some a → theta_1 !! key = Some b →
       Str.contains "model" key = true → key ∉ checkpoint_dict_skip_on_merge →
       shape a = shape b →
       ∃ t, f2 a b alpha = Ok t ∧ theta' !! key = Some t).
Proof.
  intros H. split.
  - intros key. by apply (merge_AB_passed_over f2 alpha theta_0 theta_1 theta' i p).
  - intros key a b Ha Hb Hm Hskip Hs.
    pose proof (merge_AB_lookup _ _ _ _ _ _ _ key H) as L. rewrite Ha in L.
    destruct L as (t & v & Hkey & ->).
    rewrite (merge_AB_key_same_shape _ _ _ _ a b Hb Hm Hskip Hs) in Hkey.
    inv_bind. eauto.
Qed.

Lemma merge_AB_restriction_witness :
  merge_AB weighted_sum Sample.half Sample.A Sample.B = Ok Sample.sum_AB
  ∧ (∀ key, passed_over Sample.B key → Sample.sum_AB.1.1 !! key = Sample.A !! key)
  ∧ (∀ key a b,
       Sample.A !! key = Some a → Sample.B !! key = Some b →
       Str.contains "model" key = true → key ∉ checkpoint_dict_skip_on_merge →
       shape a = shape b →
       ∃ t, weighted_sum a b Sample.half = Ok t ∧ Sample.sum_AB.1.1 !! key = Some t).
Proof.
  split; [compute_done|].
  apply (merge_AB_restriction weighted_sum Sample.half Sample.A Sample.B
           Sample.sum_AB.1.1 Sample.sum_AB.1.2 Sample.sum_AB.2).
  compute_done.
Defined.

(** C1, as it is stated, fails: under "No change" for every block, the keys
    of the VAE and of the text encoder of A are blended with those of B. *)
Lemma vae_and_te_keys_are_blended :
  save_v (Sample.plain ["A"; "B"] WeightedSum Sample.half) = "No change"
  ∧ save_t (Sample.plain ["A"; "B"] WeightedSum Sample.half) = "No change"
  ∧ classify Sample.vae_key = Some Vae
  ∧ classify Sample.te_key = Some TextEncoder
  ∧ Sample.A !! Sample.vae_key = Some (Sample.vec [2])
  ∧ Sample.A !! Sample.te_key = Some (Sample.vec [10])
  ∧ merge_AB weighted_sum Sample.half Sample.A Sample.B = Ok Sample.sum_AB
  ∧ Sample.sum_AB.1.1 !! Sample.vae_key = Some (Sample.vec [3])
  ∧ Sample.sum_AB.1.1 !! Sample.te_key = Some (Sample.vec [15])
  ∧ Sample.run (Sample.plain ["A"; "B"] WeightedSum Sample.half)
    = Ok (Sample.saved_by (Sample.plain ["A"; "B"] WeightedSum Sample.half))
  ∧ saved_theta (Sample.saved_by (Sample.plain ["A"; "B"] WeightedSum Sample.half))
      !! Sample.vae_key = Some (Sample.vec [3])
  ∧ saved_theta (Sample.saved_by (Sample.plain ["A"; "B"] WeightedSum Sample.half))
      !! Sample.te_key = Some (Sample.vec [15]).
Proof. repeat split; compute_done. Qed.

Lemma merge_BC_lookup (f1 : tensor → tensor → res tensor)
    (theta_1 theta_2 delta : gmap string tensor) (key : string) :
  merge_BC f1 theta_1 theta_2 = Ok delta →
  match theta_1 !! key with
  | Some b => ∃ d, merge_BC_key f1 theta_2 key b = Ok d ∧ delta !! key = Some d
  | None => delta !! key = None
  end.
Proof. unfold merge_BC. intros H. apply (traverse_Ok _ theta_1 delta key H). Qed.

(** C2, amended. In the loop "Merging B and C", a key of B that C does not
    have is given the zero tensor of its shape when it contains "model" and
    is not the key of the position ids, and is left as it is otherwise;
    the keys that only C has are not in the result.  In the loop "Merging A
    and B", a key of A that the other dict does not have keeps the value of
    A, and the keys that only the other dict has are not in the result. *)
Theorem one_sided_keys (f1 : tensor → tensor → res tensor)
    (f2 : tensor → tensor → float → res tensor) (alpha : float)
    (theta_0 theta_1 theta_2 delta other theta' : gmap string tensor) (i p : bool) :
  merge_BC f1 theta_1 theta_2 = Ok delta →
  merge_AB f2 alpha theta_0 other = Ok (theta', i, p) →
  (∀ key b, theta_1 !! key = Some b → theta_2 !! key = None →
     delta !! key
     = Some (if Str.contains "model" key
                && negb (bool_decide (key ∈ checkpoint_dict_skip_on_merge))
             then Torch.zeros_like b else b))
  ∧ (∀ key, theta_1 !! key = None → delta !! key = None)
  ∧ (∀ key, other !! key = None → theta' !! key = theta_0 !! key)
  ∧ (∀ key, theta_0 !! key = None → theta' !! key = None).
Proof.
  intros Hbc Hab. repeat split.
  - intros key b Hb Hc.
    pose proof (merge_BC_lookup f1 theta_1 theta_2 delta key Hbc) as L.
    rewrite Hb in L. destruct L as (d & Hkey & ->).
    unfold merge_BC_key in Hkey. rewrite Hc in Hkey.
    rewrite (bool_decide_eq_false_2 (is_Some None)) in Hkey by (by intros [? ?]).
    case_bool_decide; destruct (Str.contains "model" key); simpl in *; by simplify_eq.
  - intros key Hb.
    pose proof (merge_BC_lookup f1 theta_1 theta_2 delta key Hbc) as L.
    by rewrite Hb in L.
  - intros key Ho.
    apply (merge_AB_passed_over f2 alpha theta_0 other theta' i p key Hab). by left.
  - intros key Ha. by apply (merge_AB_keys f2 alpha theta_0 other theta' i p key Hab).
Qed.

Lemma one_sided_keys_witness :
  merge_BC get_difference Sample.B Sample.C = Ok Sample.delta_BC
  ∧ merge_AB add_difference Float.one Sample.A Sample.delta_BC = Ok Sample.sum_A_delta
  ∧ Sample.delta_BC !! Sample.unet_key = Some (Torch.zeros_like (Sample.conv [3; 4; 5; 6]))
  ∧ Sample.delta_BC !! Sample.encoder_key = None
  ∧ Sample.sum_A_delta.1.1 !! Sample.encoder_key = Some (Sample.vec [1])
  ∧ Sample.sum_A_delta.1.1 !! "model.only_in_B_and_C" = None.
Proof.
  assert (merge_BC get_difference Sample.B Sample.C = Ok Sample.delta_BC) as BC
    by compute_done.
  assert (merge_AB add_difference Float.one Sample.A Sample.delta_BC
          = Ok (Sample.sum_A_delta.1.1, Sample.sum_A_delta.1.2, Sample.sum_A_delta.2)) as AB
    by compute_done.
  destruct (one_sided_keys get_difference add_difference Float.one
              Sample.A Sample.B Sample.C Sample.delta_BC Sample.delta_BC
              Sample.sum_A_delta.1.1 Sample.sum_A_delta.1.2 Sample.sum_A_delta.2 BC AB)
    as (H1 & H2 & H3 & H4).
  split; [exact BC|]. split; [compute_done|].
  split; [apply (H1 Sample.unet_key (Sample.conv [3; 4; 5; 6])); compute_done|].
  split; [apply (H2 Sample.encoder_key); compute_done|].
  split; [rewrite (H3 Sample.encoder_key); compute_done|].
  apply (H4 "model.only_in_B_and_C"). compute_done.
Defined.

(** C2, as it is stated, fails: a key that B has and C has not is given
    zero, not the value of B, so that the run leaves the value of A under
    it, where the difference of B and a zero tensor would have added B. *)
Lemma missing_in_C_is_zero_not_B :
  Sample.B !! Sample.unet_key = Some (Sample.conv [3; 4; 5; 6])
  ∧ Sample.C !! Sample.unet_key = None
  ∧ get_difference (Sample.conv [3; 4; 5; 6]) (Torch.zeros_like (Sample.conv [3; 4; 5; 6]))
    = Ok (Sample.conv [3; 4; 5; 6])
  ∧ merge_BC get_difference Sample.B Sample.C = Ok Sample.delta_BC
  ∧ Sample.delta_BC !! Sample.unet_key = Some (Sample.conv [0; 0; 0; 0])
  ∧ Sample.delta_BC !! Sample.unet_key ≠ Some (Sample.conv [3; 4; 5; 6])
  ∧ Sample.run (Sample.plain ["A"; "B"; "C"] AddDifference Float.one)
    = Ok (Sample.saved_by (Sample.plain ["A"; "B"; "C"] AddDifference Float.one))
  ∧ saved_theta (Sample.saved_by (Sample.plain ["A"; "B"; "C"] AddDifference Float.one))
      !! Sample.unet_key = Some (Sample.conv [1; 2; 3; 4])
  ∧ add_difference (Sample.conv [1; 2; 3; 4]) (Sample.conv [3; 4; 5; 6]) Float.one
    = Ok (Sample.conv [4; 6; 8; 10]).
Proof. repeat split; compute_done. Qed.

(** ** Tensors that differ in the number of channels *)

Lemma channels_are_Ok (t : tensor) (c n : nat) :
  shape t !! 1 = Some c → channels_are t n = Ok (bool_decide (c = n)).
Proof. unfold channels_are, Torch.shape_at. by intros ->. Qed.

(** The test of the source on the shapes, for shapes that agree on every
    dimension but the second. *)
Lemma channel_test (a b : tensor) (ca cb : nat) :
  Torch.shape_but_1 a = Torch.shape_but_1 b →
  shape a !! 1 = Some ca → shape b !! 1 = Some cb → ca ≠ cb →
  bool_decide (shape a ≠ shape b)
  && bool_decide (Torch.shape_but_1 a = Torch.shape_but_1 b) = true.
Proof.
  intros Hs Ha Hb Hne.
  rewrite (bool_decide_eq_true_2 _ Hs), andb_true_r.
  apply bool_decide_eq_true_2. intros Heq. rewrite Heq in Ha. congruence.
Qed.

Lemma merge_fails_on_key (E : env) (r : request)
    (f2 : tensor → tensor → float → res tensor)
    (theta_0 theta_1 : gmap string tensor) (key : string) (a : tensor) (e : abort) :
  theta_func2 (interp_method r) = Some f2 →
  load_all E r = Ok (theta_0, Some theta_1) →
  theta_0 !! key = Some a → is_Some (theta_1 !! key) →
  merge_AB_key f2 (multiplier r) theta_1 key a = Err e →
  ∃ e' key' a', run_modelmerger E r = Err e' ∧ theta_0 !! key' = Some a'
                ∧ merge_AB_key f2 (multiplier r) theta_1 key' a' = Err e'.
Proof.
  intros Hf2 Hload Ha [b Hb] Hkey.
  destruct (traverse_fails (merge_AB_key f2 (multiplier r) theta_1) theta_0 key a e Ha Hkey)
    as (e' & key' & a' & Ht & Ha' & He').
  exists e', key', a'. split; [|done].
  unfold run_modelmerger. rewrite Hload. simpl. unfold merge_and_save.
  assert (Str.contains "Extract" (interp_name (interp_method r)) = false) as ->.
  { destruct (interp_method r); simpl in Hf2; try discriminate; reflexivity. }
  unfold merge. rewrite bool_decide_eq_false_2.
  - rewrite Hf2. unfold merge_AB. rewrite Ht. reflexivity.
  - intros ->. by rewrite lookup_empty in Hb.
Qed.

Lemma raises_only_Ok {A} (a : A) : raises_only (Ok a).
Proof. intros msg. discriminate. Qed.

Lemma raises_only_raise {A} (e : exn) : raises_only (raise e : res A).
Proof. intros msg. discriminate. Qed.

Lemma raises_only_bind {A B} (m : res A) (f : A → res B) :
  raises_only m → (∀ a, raises_only (f a)) → raises_only (bind m f).
Proof.
  intros Hm Hf msg. destruct m as [a|e]; simpl.
  - apply Hf.
  - intros [= ->]. by apply (Hm msg).
Qed.

Lemma raises_only_binop (op : Float.format → float → float → float) (a b : tensor) :
  raises_only (Torch.binop op a b).
Proof.
  unfold Torch.binop. intros msg.
  destruct (Torch.broadcast_shapes (shape a) (shape b)) as [s|]; [|discriminate].
  simpl. repeat case_match; discriminate.
Qed.

Lemma raises_only_theta_func2 (m : interp) (f2 : tensor → tensor → float → res tensor)
    (a b : tensor) (alpha : float) :
  theta_func2 m = Some f2 → raises_only (f2 a b alpha).
Proof. destruct m; intros [= <-]; apply raises_only_binop. Qed.

Lemma raises_only_channels_are (t : tensor) (n : nat) : raises_only (channels_are t n).
Proof.
  unfold channels_are, Torch.shape_at. intros msg.
  destruct (shape t !! 1); simpl; discriminate.
Qed.

Lemma raises_only_and_then (x y : res bool) :
  raises_only x → raises_only y → raises_only (and_then x y).
Proof.
  intros Hx Hy. apply raises_only_bind; [done|].
  intros []; [done|apply raises_only_Ok].
Qed.

Lemma raises_only_get_channels (lo hi : nat) (t : tensor) :
  raises_only (Torch.get_channels lo hi t).
Proof.
  unfold Torch.get_channels. intros msg.
  destruct (shape t) as [|n [|c [|r1 [|r2 rest]]]]; try discriminate;
    by destruct (Torch.clamp lo hi c).
Qed.

Lemma raises_only_set_channels (lo hi : nat) (t v : tensor) :
  raises_only (Torch.set_channels lo hi t v).
Proof.
  unfold Torch.set_channels. intros msg.
  destruct (shape t) as [|n [|c [|r1 [|r2 rest]]]]; try discriminate;
    destruct (Torch.clamp lo hi c); by destruct (Torch.expand_to _ _).
Qed.

Lemma raises_only_merge_common_channels (m : interp)
    (f2 : tensor → tensor → float → res tensor) (alpha : float) (a b : tensor) :
  theta_func2 m = Some f2 → raises_only (merge_common_channels f2 alpha a b).
Proof.
  intros Hf2. unfold merge_common_channels.
  apply raises_only_bind; [apply raises_only_get_channels|]. intros a4.
  apply raises_only_bind; [by eapply raises_only_theta_func2|]. intros t.
  apply raises_only_set_channels.
Qed.

(** A turn of the loop "Merging A and B" that does not go through raises. *)
Lemma raises_only_merge_AB_key (m : interp) (f2 : tensor → tensor → float → res tensor)
    (alpha : float) (theta_1 : gmap string tensor) (key : string) (a : tensor) :
  theta_func2 m = Some f2 → raises_only (merge_AB_key f2 alpha theta_1 key a).
Proof.
  intros Hf2. unfold merge_AB_key.
  destruct (theta_1 !! key) as [b|]; [|apply raises_only_Ok].
  destruct (Str.contains "model" key); [|apply raises_only_Ok].
  case_bool_decide; [apply raises_only_Ok|].
  destruct (_ && _).
  - apply raises_only_bind;
      [apply raises_only_and_then; apply raises_only_channels_are|].
    intros []; [apply raises_only_raise|].
    apply raises_only_bind;
      [apply raises_only_and_then; apply raises_only_channels_are|].
    intros []; [apply raises_only_raise|].
    apply raises_only_bind;
      [apply raises_only_and_then; apply raises_only_channels_are|].
    intros [].
    + apply raises_only_bind; [by eapply raises_only_merge_common_channels|].
      intros t. apply raises_only_Ok.
    + apply raises_only_bind;
        [apply raises_only_and_then; apply raises_only_channels_are|].
      intros []; [|apply raises_only_raise].
      apply raises_only_bind; [by eapply raises_only_merge_common_channels|].
      intros t. apply raises_only_Ok.
  - apply raises_only_bind; [by eapply raises_only_theta_func2|].
    intros t. apply raises_only_Ok.
Qed.

(** C5. When the tensors of A and of B under a merged key agree on every
    dimension but the second, where A has 4 channels, the turn of the loop
    raises [RuntimeError]: with the message that A must be the inpainting
    model when B has 9 channels, and that A must be the instruct-pix2pix
    model when B has 8.  The run then ends on an exception of the loop, and
    nothing is saved. *)
Theorem four_channel_primary_rejected (E : env) (r : request)
    (f2 : tensor → tensor → float → res tensor)
    (theta_0 theta_1 : gmap string tensor) (key : string) (a b : tensor) (cb : nat) :
  theta_func2 (interp_method r) = Some f2 →
  load_all E r = Ok (theta_0, Some theta_1) →
  theta_0 !! key = Some a → theta_1 !! key = Some b →
  Str.contains "model" key = true → key ∉ checkpoint_dict_skip_on_merge →
  Torch.shape_but_1 a = Torch.shape_but_1 b →
  shape a !! 1 = Some 4 → shape b !! 1 = Some cb → cb = 9 ∨ cb = 8 →
  merge_AB_key f2 (multiplier r) theta_1 key a
  = raise (RuntimeError (if decide (cb = 9) then inpainting_message
                         else instruct_pix2pix_message))
  ∧ ∃ e key' a', run_modelmerger E r = Err (Raised e) ∧ theta_0 !! key' = Some a'
                 ∧ merge_AB_key f2 (multiplier r) theta_1 key' a' = Err (Raised e).
Proof.
  intros Hf2 Hload Ha Hb Hm Hskip Hs Hca Hcb Hcase.
  assert (merge_AB_key f2 (multiplier r) theta_1 key a
          = raise (RuntimeError (if decide (cb = 9) then inpainting_message
                                 else instruct_pix2pix_message))) as Hkey.
  { unfold merge_AB_key. rewrite Hb, Hm, (bool_decide_eq_false_2 _ Hskip).
    rewrite (channel_test a b 4 cb Hs Hca Hcb) by lia.
    rewrite (channels_are_Ok a 4 4 Hca), (channels_are_Ok b cb 9 Hcb),
      (channels_are_Ok b cb 8 Hcb).
    destruct Hcase as [-> | ->]; reflexivity. }
  split; [exact Hkey|].
  destruct (merge_fails_on_key E r f2 theta_0 theta_1 key a _ Hf2 Hload Ha
              (mk_is_Some _ _ Hb) Hkey) as (e' & key' & a' & Hrun & Ha' & He').
  destruct e' as [msg|e'].
  - by destruct (raises_only_merge_AB_key _ f2 (multiplier r) theta_1 key' a' Hf2 msg).
  - exists e', key', a'. done.
Qed.

Lemma four_channel_primary_rejected_witness :
  theta_func2 WeightedSum = Some weighted_sum
  ∧ load_all (Sample.sample_env Sample.files)
      (Sample.plain ["A"; "inpainting"] WeightedSum Sample.half)
    = Ok (Sample.A, Some Sample.inpainting)
  ∧ Sample.A !! Sample.unet_key = Some (Sample.conv [1; 2; 3; 4])
  ∧ Sample.inpainting !! Sample.unet_key
    = Some (Sample.conv [10; 20; 30; 40; 50; 60; 70; 80; 90])
  ∧ Sample.run (Sample.plain ["A"; "inpainting"] WeightedSum Sample.half)
    = raise (RuntimeError inpainting_message)
  ∧ merge_AB_key weighted_sum Sample.half Sample.inpainting Sample.unet_key
      (Sample.conv [1; 2; 3; 4])
    = raise (RuntimeError inpainting_message)
  ∧ ∃ e key' a',
      Sample.run (Sample.plain ["A"; "inpainting"] WeightedSum Sample.half) = Err (Raised e)
      ∧ Sample.A !! key' = Some a'
      ∧ merge_AB_key weighted_sum Sample.half Sample.inpainting key' a' = Err (Raised e).
Proof.
  split; [reflexivity|]. split; [compute_done|]. split; [compute_done|].
  split; [compute_done|]. split; [compute_done|].
  apply (four_channel_primary_rejected (Sample.sample_env Sample.files)
           (Sample.plain ["A"; "inpainting"] WeightedSum Sample.half) weighted_sum
           Sample.A Sample.inpainting Sample.unet_key (Sample.conv [1; 2; 3; 4])
           (Sample.conv [10; 20; 30; 40; 50; 60; 70; 80; 90]) 9).
  - reflexivity.
  - compute_done.
  - compute_done.
  - compute_done.
  - reflexivity.
  - compute_done.
  - reflexivity.
  - reflexivity.
  - reflexivity.
  - left. reflexivity.
Defined.

(** ** Rows of channels *)

Section rows.

Context {X : Type}.
Implicit Types (d r w : list X) (l : list (list X)).

Lemma length_rows (n row : nat) d : length (Torch.rows n row d) = n.
Proof. revert d. induction n as [|n IH]; intros d; simpl; [done|]. by rewrite IH. Qed.

Lemma Forall_rows (n row : nat) d :
  n * row ≤ length d → Forall (λ r, length r = row) (Torch.rows n row d).
Proof.
  revert d. induction n as [|n IH]; intros d Hlen; simpl; [constructor|].
  constructor.
  - apply length_take_le. lia.
  - apply IH. rewrite length_drop. lia.
Qed.

Lemma concat_rows (n row : nat) d :
  length d = n * row → concat (Torch.rows n row d) = d.
Proof.
  revert d. induction n as [|n IH]; intros d Hlen; simpl.
  - symmetry. by apply nil_length_inv.
  - rewrite IH; [apply take_drop|]. rewrite length_drop. lia.
Qed.

Lemma rows_concat (row : nat) l :
  Forall (λ r, length r = row) l → Torch.rows (length l) row (concat l) = l.
Proof.
  induction 1 as [|r l Hr _ IH]; simpl; [done|].
  rewrite take_app_length', drop_app_length' by done. by rewrite IH.
Qed.

Lemma length_concat_uniform (k : nat) l :
  Forall (λ r, length r = k) l → length (concat l) = length l * k.
Proof.
  induction 1 as [|r l Hr _ IH]; simpl; [done|]. rewrite length_app, IH, Hr. lia.
Qed.

Lemma length_sub_row (lo len : nat) r :
  lo + len ≤ length r → length (Torch.sub_row lo len r) = len.
Proof. intros H. unfold Torch.sub_row. rewrite length_take, length_drop. lia. Qed.

Lemma length_put_row (lo hi : nat) r w :
  hi = lo + length w → hi ≤ length r → length (Torch.put_row lo hi r w) = length r.
Proof.
  intros Hhi Hr. unfold Torch.put_row.
  rewrite !length_app, length_take, length_drop. lia.
Qed.

Lemma sub_put_row (lo hi : nat) r w :
  lo ≤ length r → Torch.sub_row lo (length w) (Torch.put_row lo hi r w) = w.
Proof.
  intros Hlo. unfold Torch.sub_row, Torch.put_row.
  rewrite drop_app_length' by (rewrite length_take; lia).
  by rewrite take_app_length.
Qed.

Lemma sub_after_put_row (lo hi len : nat) r w :
  hi = lo + length w → lo ≤ length r →
  Torch.sub_row hi len (Torch.put_row lo hi r w) = Torch.sub_row hi len r.
Proof.
  intros Hhi Hlo. unfold Torch.sub_row, Torch.put_row. f_equal.
  rewrite (assoc_L (++)). apply drop_app_length'.
  rewrite length_app, length_take. lia.
Qed.

(** Rows in which the part from [lo] to [hi] is replaced, row by row. *)
Lemma zip_put_rows (lo hi len row : nat) l (l' : list (list X)) :
  hi = lo + len → hi ≤ row → length l = length l' →
  Forall (λ r, length r = row) l → Forall (λ w, length w = len) l' →
  Forall (λ r, length r = row) (zip_with (Torch.put_row lo hi) l l')
  ∧ length (zip_with (Torch.put_row lo hi) l l') = length l
  ∧ Torch.sub_row lo len <$> zip_with (Torch.put_row lo hi) l l' = l'
  ∧ ∀ k, Torch.sub_row hi k <$> zip_with (Torch.put_row lo hi) l l'
         = Torch.sub_row hi k <$> l.
Proof.
  intros Hhi Hrow Hlen Hl. revert l' Hlen.
  induction Hl as [|r l Hr _ IH]; intros [|w l'] Hlen Hl'; simplify_eq/=.
  - repeat split; constructor.
  - apply Forall_cons in Hl' as [Hw Hl'].
    destruct (IH l' Hlen Hl') as (IH1 & IH2 & IH3 & IH4).
    repeat split.
    + constructor; [|done]. apply length_put_row; lia.
    + by rewrite IH2.
    + rewrite IH3. f_equal. rewrite <- Hw. apply sub_put_row. lia.
    + intros k. rewrite IH4. f_equal. apply sub_after_put_row; lia.
Qed.

End rows.

Lemma clamp_inside (lo hi c : nat) : lo ≤ hi → hi ≤ c → Torch.clamp lo hi c = (lo, hi).
Proof. intros H1 H2. unfold Torch.clamp. by rewrite (Nat.min_l hi c), (Nat.min_l lo hi). Qed.

Lemma get_channels_Ok (lo hi len : nat) (t : tensor) (n c : nat) (rest : list nat) :
  shape t = n :: c :: rest → 2 ≤ length rest → lo ≤ hi → hi ≤ c → len = hi - lo →
  Torch.get_channels lo hi t
  = Ok (Tensor (n :: len :: rest) (format t)
          (concat (Torch.sub_row (lo * numel rest) (len * numel rest)
                     <$> Torch.rows n (c * numel rest) (data t)))).
Proof.
  intros Hs Hrank Hlo Hhi ->. unfold Torch.get_channels. rewrite Hs.
  destruct rest as [|r1 [|r2 rest]]; cbn [length] in Hrank; try lia.
  by rewrite clamp_inside.
Qed.

Lemma set_channels_Ok (lo hi len : nat) (t v : tensor) (n c : nat) (rest : list nat) :
  shape t = n :: c :: rest → 2 ≤ length rest → lo ≤ hi → hi ≤ c → len = hi - lo →
  shape v = n :: len :: rest →
  Torch.set_channels lo hi t v
  = Ok (Tensor (shape t) (format t)
          (concat (zip_with (Torch.put_row (lo * numel rest) (hi * numel rest))
                     (Torch.rows n (c * numel rest) (data t))
                     (Torch.rows n (len * numel rest)
                        (data (Torch.convert (format t) v)))))).
Proof.
  intros Hs Hrank Hlo Hhi -> Hv. unfold Torch.set_channels. rewrite Hs.
  destruct rest as [|r1 [|r2 rest]]; cbn [length] in Hrank; try lia.
  rewrite clamp_inside by done. unfold Torch.expand_to.
  by rewrite decide_True by (by rewrite convert_shape).
Qed.

Lemma numel_cons (n : nat) (s : list nat) : numel (n :: s) = n * numel s.
Proof. reflexivity. Qed.

(** The operators of a merge, on tensors of one shape. *)
Lemma theta_func2_same_shape (m : interp) (f2 : tensor → tensor → float → res tensor)
    (x y : tensor) (alpha : float) :
  theta_func2 m = Some f2 → shape x = shape y → length (data x) = length (data y) →
  ∃ z, f2 x y alpha = Ok z ∧ shape z = shape x ∧ length (data z) = length (data x).
Proof.
  intros Hf2 Hs Hlen.
  destruct m; simplify_eq/=; unfold weighted_sum, add_difference, Torch.add;
    rewrite binop_same_shape by done; eexists; (split; [reflexivity|]); simpl;
    (split; [done|]); rewrite length_zip_with, !convert_length; simpl;
    rewrite ?length_fmap; lia.
Qed.

Lemma sets_flag_true (v : variant) (m : gmap string (tensor * option variant))
    (key : string) (t : tensor) :
  m !! key = Some (t, Some v) → sets_flag v m = true.
Proof.
  intros H. unfold sets_flag. apply bool_decide_eq_true_2.
  exists key, (t, Some v). done.
Qed.

(** The turn of the loop on a tensor of A of [c] channels, 8 or 9, and a
    tensor of B of 4, of four dimensions or more. *)
Lemma merge_AB_key_extra_channels (f2 : tensor → tensor → float → res tensor) (alpha : float)
    (theta_1 : gmap string tensor) (key : string) (a b : tensor)
    (n c : nat) (rest : list nat) (v : variant) :
  theta_1 !! key = Some b → Str.contains "model" key = true →
  key ∉ checkpoint_dict_skip_on_merge →
  shape a = n :: c :: rest → shape b = n :: 4 :: rest →
  (c = 9 ∧ v = Inpainting) ∨ (c = 8 ∧ v = InstructPix2Pix) →
  merge_AB_key f2 alpha theta_1 key a
  = (do t <- merge_common_channels f2 alpha a b; Ok (t, Some v)).
Proof.
  intros Hb Hm Hskip Ha Hsb Hc. unfold merge_AB_key.
  rewrite Hb, Hm, (bool_decide_eq_false_2 _ Hskip).
  assert (shape a !! 1 = Some c) as Hca by (by rewrite Ha).
  assert (shape b !! 1 = Some 4) as Hcb by (by rewrite Hsb).
  rewrite (channel_test a b c 4); [|by unfold Torch.shape_but_1; rewrite Ha, Hsb|done|done|lia].
  rewrite !(channels_are_Ok a c _ Hca), !(channels_are_Ok b 4 _ Hcb).
  destruct Hc as [[-> ->]|[-> ->]]; reflexivity.
Qed.

(** C6, amended. When the tensors of A and of B under a merged key have
    four dimensions or more and agree on every dimension but the second,
    where A has 9 channels (8) and B has 4, the turn of the loop succeeds:
    the first 4 channels of the new tensor are the operator of the merge
    applied to the first 4 channels of A and to B (in the format of A, to
    which the assignment converts), the channels from 4 on are those of A,
    and the run is flagged as an inpainting model (as an instruct-pix2pix
    model). *)
Theorem extra_channels_pass_through (m : interp)
    (f2 : tensor → tensor → float → res tensor) (alpha : float)
    (theta_1 : gmap string tensor) (key : string) (a b : tensor)
    (n c : nat) (rest : list nat) (v : variant) :
  theta_func2 m = Some f2 →
  theta_1 !! key = Some b → Str.contains "model" key = true →
  key ∉ checkpoint_dict_skip_on_merge →
  well_formed a → well_formed b →
  shape a = n :: c :: rest → shape b = n :: 4 :: rest → 2 ≤ length rest →
  (c = 9 ∧ v = Inpainting) ∨ (c = 8 ∧ v = InstructPix2Pix) →
  ∃ a4 blend t,
    Torch.get_channels 0 4 a = Ok a4
    ∧ f2 a4 b alpha = Ok blend
    ∧ merge_AB_key f2 alpha theta_1 key a = Ok (t, Some v)
    ∧ shape t = shape a
    ∧ Torch.get_channels 0 4 t = Ok (Torch.convert (format a) blend)
    ∧ Torch.get_channels 4 c t = Torch.get_channels 4 c a
    ∧ ∀ theta_0 theta' i p,
        theta_0 !! key = Some a →
        merge_AB f2 alpha theta_0 theta_1 = Ok (theta', i, p) →
        theta' !! key = Some t ∧ flag_of v i p = true.
Proof.
  intros Hf2 Hb Hm Hskip Hwa Hwb Ha Hsb Hrank Hc.
  assert (4 ≤ c) as Hc4 by (destruct Hc as [[-> _]|[-> _]]; lia).
  set (inner := numel rest).
  unfold well_formed in Hwa, Hwb. rewrite Ha in Hwa. rewrite Hsb in Hwb.
  rewrite !numel_cons in Hwa, Hwb. fold inner in Hwa, Hwb.
  assert (Forall (λ r, length r = c * inner) (Torch.rows n (c * inner) (data a))) as Hrows
    by (apply Forall_rows; by rewrite Hwa).
  (* the first four channels of A *)
  pose proof (get_channels_Ok 0 4 4 a n c rest Ha Hrank ltac:(lia) Hc4 eq_refl) as Hget.
  fold inner in Hget.
  set (a4 := Tensor (n :: 4 :: rest) (format a)
               (concat (Torch.sub_row (0 * inner) (4 * inner)
                          <$> Torch.rows n (c * inner) (data a)))) in *.
  assert (length (data a4) = n * (4 * inner)) as Hla4.
  { unfold a4. simpl data. rewrite (length_concat_uniform (4 * inner)).
    - by rewrite length_fmap, length_rows.
    - apply Forall_fmap. eapply Forall_impl; [exact Hrows|].
      intros r Hr. cbv beta in Hr |- *. apply length_sub_row. rewrite Hr.
      pose proof (Nat.mul_le_mono_r 4 c inner Hc4). lia. }
  (* the operator on them and on B *)
  destruct (theta_func2_same_shape m f2 a4 b alpha Hf2) as (blend & Hblend & Hsh & Hlb).
  { by rewrite Hsb. }
  { lia. }
  assert (shape blend = n :: 4 :: rest) as Hsblend by (by rewrite Hsh).
  rewrite Hla4 in Hlb.
  set (cb := Torch.convert (format a) blend).
  assert (shape cb = n :: 4 :: rest) as Hscb by (unfold cb; by rewrite convert_shape).
  assert (length (data cb) = n * (4 * inner)) as Hlcb
    by (unfold cb; by rewrite convert_length).
  (* written back over the first four channels *)
  pose proof (set_channels_Ok 0 4 4 a blend n c rest Ha Hrank ltac:(lia) Hc4 eq_refl Hsblend)
    as Hset.
  fold inner cb in Hset.
  set (new := zip_with (Torch.put_row (0 * inner) (4 * inner))
                (Torch.rows n (c * inner) (data a))
                (Torch.rows n (4 * inner) (data cb))) in *.
  destruct (zip_put_rows (0 * inner) (4 * inner) (4 * inner) (c * inner)
              (Torch.rows n (c * inner) (data a))
              (Torch.rows n (4 * inner) (data cb)))
    as (Hnew_rows & Hnew_len & Hfirst & Hafter).
  { lia. } { apply Nat.mul_le_mono_r, Hc4. } { by rewrite !length_rows. } { exact Hrows. }
  { apply Forall_rows. lia. }
  fold new in Hnew_rows, Hnew_len, Hfirst, Hafter.
  rewrite length_rows in Hnew_len.
  set (t := Tensor (shape a) (format a) (concat new)) in *.
  assert (shape t = n :: c :: rest) as Hst by exact Ha.
  assert (Torch.rows n (c * inner) (data t) = new) as Hrows_t.
  { unfold t. simpl data. rewrite <- Hnew_len at 1. by apply rows_concat. }
  assert (merge_AB_key f2 alpha theta_1 key a = Ok (t, Some v)) as Hkey.
  { rewrite (merge_AB_key_extra_channels f2 alpha theta_1 key a b n c rest v) by done.
    unfold merge_common_channels. rewrite Hget. simpl. rewrite Hblend. simpl.
    rewrite Hset. reflexivity. }
  exists a4, blend, t. repeat split; try done.
  - rewrite (get_channels_Ok 0 4 4 t n c rest Hst Hrank ltac:(lia) Hc4 eq_refl).
    fold inner. rewrite Hrows_t, Hfirst, concat_rows by lia.
    change (format t) with (format a).
    rewrite <- (convert_format (format a) blend) at 1. fold cb.
    by rewrite <- Hscb, tensor_eta.
  - rewrite (get_channels_Ok 4 c (c - 4) t n c rest Hst Hrank Hc4 ltac:(lia) eq_refl).
    rewrite (get_channels_Ok 4 c (c - 4) a n c rest Ha Hrank Hc4 ltac:(lia) eq_refl).
    fold inner. by rewrite Hrows_t, Hafter.
  - pose proof (merge_AB_lookup f2 alpha theta_0 theta_1 theta' i p key H0) as L.
    rewrite H in L. destruct L as (t' & v' & Hkey' & ->). congruence.
  - unfold merge_AB in H0. inv_bind.
    pose proof (traverse_Ok _ theta_0 x key Hstep) as T. rewrite H in T.
    destruct T as (tv & Hkey' & Hx). rewrite Hkey in Hkey'. simplify_eq.
    destruct Hc as [[_ ->]|[_ ->]]; simpl; by eapply sets_flag_true.
Qed.

Lemma extra_channels_pass_through_witness :
  theta_func2 WeightedSum = Some weighted_sum
  ∧ Sample.B !! Sample.unet_key = Some (Sample.conv [3; 4; 5; 6])
  ∧ well_formed (Sample.conv [10; 20; 30; 40; 50; 60; 70; 80; 90])
  ∧ well_formed (Sample.conv [3; 4; 5; 6])
  ∧ merge_AB_key weighted_sum Float.one Sample.B Sample.unet_key
      (Sample.conv [10; 20; 30; 40; 50; 60; 70; 80; 90])
    = Ok (Sample.conv [3; 4; 5; 6; 50; 60; 70; 80; 90], Some Inpainting)
  ∧ Sample.run (Sample.plain ["inpainting"; "B"] WeightedSum Float.one)
    = Ok (Sample.saved_by (Sample.plain ["inpainting"; "B"] WeightedSum Float.one))
  ∧ result_is_inpainting_model
      (Sample.saved_by (Sample.plain ["inpainting"; "B"] WeightedSum Float.one)) = true
  ∧ ∃ a4 blend t,
      Torch.get_channels 0 4 (Sample.conv [10; 20; 30; 40; 50; 60; 70; 80; 90]) = Ok a4
      ∧ weighted_sum a4 (Sample.conv [3; 4; 5; 6]) Float.one = Ok blend
      ∧ merge_AB_key weighted_sum Float.one Sample.B Sample.unet_key
          (Sample.conv [10; 20; 30; 40; 50; 60; 70; 80; 90]) = Ok (t, Some Inpainting)
      ∧ shape t = shape (Sample.conv [10; 20; 30; 40; 50; 60; 70; 80; 90])
      ∧ Torch.get_channels 0 4 t
        = Ok (Torch.convert (format (Sample.conv [10; 20; 30; 40; 50; 60; 70; 80; 90])) blend)
      ∧ Torch.get_channels 4 9 t
        = Torch.get_channels 4 9 (Sample.conv [10; 20; 30; 40; 50; 60; 70; 80; 90])
      ∧ ∀ theta_0 theta' i p,
          theta_0 !! Sample.unet_key
          = Some (Sample.conv [10; 20; 30; 40; 50; 60; 70; 80; 90]) →
          merge_AB weighted_sum Float.one theta_0 Sample.B = Ok (theta', i, p) →
          theta' !! Sample.unet_key = Some t ∧ flag_of Inpainting i p = true.
Proof.
  split; [reflexivity|]. split; [compute_done|]. split; [reflexivity|].
  split; [reflexivity|]. split; [compute_done|]. split; [compute_done|].
  split; [vm_compute; reflexivity|].
  apply (extra_channels_pass_through WeightedSum weighted_sum Float.one Sample.B Sample.unet_key
           (Sample.conv [10; 20; 30; 40; 50; 60; 70; 80; 90]) (Sample.conv [3; 4; 5; 6])
           1 9 [1; 1] Inpainting).
  - reflexivity.
  - compute_done.
  - reflexivity.
  - compute_done.
  - reflexivity.
  - reflexivity.
  - reflexivity.
  - reflexivity.
  - simpl. lia.
  - left. split; reflexivity.
Defined.

(** C6, as it is stated, fails: two matrices that differ in their second
    dimension only, 9 against 4, are taken for an inpainting model, and the
    four indices of the slice raise [IndexError]. *)
Lemma flat_tensors_raise :
  shape Sample.flat9 ≠ shape Sample.flat4
  ∧ Torch.shape_but_1 Sample.flat9 = Torch.shape_but_1 Sample.flat4
  ∧ shape Sample.flat9 !! 1 = Some 9
  ∧ shape Sample.flat4 !! 1 = Some 4
  ∧ well_formed Sample.flat9 ∧ well_formed Sample.flat4
  ∧ Str.contains "model" "model.weight" = true
  ∧ merge_AB_key weighted_sum Sample.half {[ "model.weight" := Sample.flat4 ]}
      "model.weight" Sample.flat9
    = raise IndexError
  ∧ merge_AB weighted_sum Sample.half {[ "model.weight" := Sample.flat9 ]}
      {[ "model.weight" := Sample.flat4 ]}
    = raise IndexError.
Proof. repeat split; compute_done. Qed.

(** * Further properties *)

(** ** The two loops *)


Lemma traverse_entry {X Y} (f : string → X → res Y) (theta : gmap string X)
    (m : gmap string Y) (key : string) (y : Y) :
  traverse f theta = Ok m → m !! key = Some y →
  ∃ v, theta !! key = Some v ∧ f key v = Ok y.
Proof.
  intros H Hm. pose proof (traverse_Ok f theta m key H) as T.
  destruct (theta !! key) as [v|]; [|congruence].
  destruct T as (v' & Hf & Hv'). exists v. split; [done|]. congruence.
Qed.

(** X3. The loop "Merging A and B" adds no key to A and removes none. *)
Theorem merge_AB_dom (f2 : tensor → tensor → float → res tensor) (alpha : float)
    (theta_0 theta_1 theta' : gmap string tensor) (i p : bool) :
  merge_AB f2 alpha theta_0 theta_1 = Ok (theta', i, p) →
  dom theta' = dom theta_0.
Proof.
  intros H. apply set_eq. intros key. rewrite !elem_of_dom, <- !not_eq_None_Some.
  by rewrite (merge_AB_keys f2 alpha theta_0 theta_1 theta' i p key H).
Qed.

Lemma merge_AB_dom_witness :
  merge_AB weighted_sum Sample.half Sample.A Sample.B = Ok Sample.sum_AB
  ∧ dom Sample.sum_AB.1.1 = dom Sample.A.
Proof.
  split; [compute_done|].
  apply (merge_AB_dom weighted_sum Sample.half Sample.A Sample.B
           Sample.sum_AB.1.1 Sample.sum_AB.1.2 Sample.sum_AB.2).
  compute_done.
Defined.

(** X4. The loop "Merging B and C" adds no key to B and removes none, and a
    key of B that does not contain "model", or is the key of the position
    ids, keeps the tensor of B, whether C has the key or not. *)
Theorem merge_BC_frame (f1 : tensor → tensor → res tensor)
    (theta_1 theta_2 delta : gmap string tensor) :
  merge_BC f1 theta_1 theta_2 = Ok delta →
  dom delta = dom theta_1
  ∧ ∀ key, Str.contains "model" key = false ∨ key ∈ checkpoint_dict_skip_on_merge →
           delta !! key = theta_1 !! key.
Proof.
  intros H. split.
  - apply set_eq. intros key. rewrite !elem_of_dom.
    pose proof (merge_BC_lookup f1 theta_1 theta_2 delta key H) as L.
    destruct (theta_1 !! key) as [b|].
    + destruct L as (d & _ & ->). split; eauto.
    + rewrite L. done.
  - intros key Hkey.
    pose proof (merge_BC_lookup f1 theta_1 theta_2 delta key H) as L.
    destruct (theta_1 !! key) as [b|]; [|done].
    destruct L as (d & Hd & ->). unfold merge_BC_key in Hd.
    destruct Hkey as [Hm|Hskip].
    + rewrite Hm in Hd. case_bool_decide; by simplify_eq.
    + rewrite (bool_decide_eq_true_2 _ Hskip) in Hd. by simplify_eq.
Qed.

Lemma merge_BC_frame_witness :
  merge_BC get_difference Sample.B Sample.C = Ok Sample.delta_BC
  ∧ dom Sample.delta_BC = dom Sample.B
  ∧ ∀ key, Str.contains "model" key = false ∨ key ∈ checkpoint_dict_skip_on_merge →
           Sample.delta_BC !! key = Sample.B !! key.
Proof.
  split; [compute_done|].
  apply (merge_BC_frame get_difference Sample.B Sample.C Sample.delta_BC).
  compute_done.
Defined.

Lemma merge_AB_key_no_flag (f2 : tensor → tensor → float → res tensor) (alpha : float)
    (theta_1 : gmap string tensor) (key : string) (a t : tensor) (v : option variant) :
  (∀ b, theta_1 !! key = Some b → shape a = shape b) →
  merge_AB_key f2 alpha theta_1 key a = Ok (t, v) → v = None.
Proof.
  intros Hs. unfold merge_AB_key.
  destruct (theta_1 !! key) as [b|]; [|by intros [= _ <-]].
  destruct (Str.contains "model" key); [|by intros [= _ <-]].
  case_bool_decide; [by intros [= _ <-]|].
  rewrite (bool_decide_eq_false_2 (shape a ≠ shape b)) by (specialize (Hs b eq_refl); tauto).
  simpl. intros Hkey. inv_bind. done.
Qed.

Lemma sets_flag_false (v : variant) (m : gmap string (tensor * option variant)) :
  (∀ key x, m !! key = Some x → x.2 = None) → sets_flag v m = false.
Proof.
  intros H. unfold sets_flag. apply bool_decide_eq_false_2.
  intros (key & x & Hm & Hx). rewrite (H key x Hm) in Hx. discriminate.
Qed.

(** X5. When every key that A and [theta_1] share holds tensors of one shape
    in both, the loop "Merging A and B" sets neither flag: a result is an
    inpainting or instruct-pix2pix model only through a difference of
    shapes. *)
Theorem same_shapes_set_no_flag (f2 : tensor → tensor → float → res tensor) (alpha : float)
    (theta_0 theta_1 theta' : gmap string tensor) (i p : bool) :
  (∀ key a b, theta_0 !! key = Some a → theta_1 !! key = Some b → shape a = shape b) →
  merge_AB f2 alpha theta_0 theta_1 = Ok (theta', i, p) →
  i = false ∧ p = false.
Proof.
  intros Hs H. unfold merge_AB in H. inv_bind.
  assert (∀ key y, x !! key = Some y → y.2 = None) as Hnone.
  { intros key [t v] Hx.
    destruct (traverse_entry _ theta_0 x key (t, v) Hstep Hx) as (a & Ha & Hkey).
    simpl. eapply merge_AB_key_no_flag; [|exact Hkey]. intros b Hb. by eapply Hs. }
  by rewrite !sets_flag_false.
Qed.

Lemma same_shapes_set_no_flag_witness :
  (∀ key a b, Sample.A !! key = Some a → Sample.B !! key = Some b → shape a = shape b)
  ∧ merge_AB weighted_sum Sample.half Sample.A Sample.B = Ok Sample.sum_AB
  ∧ Sample.sum_AB.1.2 = false ∧ Sample.sum_AB.2 = false.
Proof.
  assert (∀ key a b, Sample.A !! key = Some a → Sample.B !! key = Some b →
                     shape a = shape b) as Hs.
  { assert (map_Forall (λ key a, match Sample.B !! key with
                                   | Some b => bool_decide (shape a = shape b)
                                   | None => true
                                   end = true) Sample.A) as HA by compute_done.
    intros key a b Ha Hb. specialize (HA key a Ha). cbv beta in HA.
    rewrite Hb in HA. by apply bool_decide_eq_true_1 in HA. }
  split; [exact Hs|]. split; [compute_done|].
  apply (same_shapes_set_no_flag weighted_sum Sample.half Sample.A Sample.B
           Sample.sum_AB.1.1 Sample.sum_AB.1.2 Sample.sum_AB.2 Hs).
  compute_done.
Defined.




(** X7. When the tensors of A and of B under a merged key agree on every
    dimension but the second, and their numbers of channels are none of
    4 and 9, 4 and 8, 8 and 4, 9 and 4, the turn of the loop raises
    [AssertionError]. *)
Theorem unknown_channels_rejected (f2 : tensor → tensor → float → res tensor) (alpha : float)
    (theta_1 : gmap string tensor) (key : string) (a b : tensor) (ca cb : nat) :
  theta_1 !! key = Some b → Str.contains "model" key = true →
  key ∉ checkpoint_dict_skip_on_merge →
  Torch.shape_but_1 a = Torch.shape_but_1 b →
  shape a !! 1 = Some ca → shape b !! 1 = Some cb → ca ≠ cb →
  (ca, cb) ∉ known_channels →
  merge_AB_key f2 alpha theta_1 key a = raise (AssertionError key).
Proof.
  intros Hb Hm Hskip Hs Hca Hcb Hne Hknown. unfold merge_AB_key.
  rewrite Hb, Hm, (bool_decide_eq_false_2 _ Hskip).
  rewrite (channel_test a b ca cb Hs Hca Hcb Hne).
  rewrite !(channels_are_Ok a ca _ Hca), !(channels_are_Ok b cb _ Hcb).
  unfold known_channels in Hknown. rewrite !not_elem_of_cons in Hknown.
  destruct Hknown as (H1 & H2 & H3 & H4 & _).
  unfold and_then. simpl.
  repeat (case_bool_decide; simpl; try done); subst; done.
Qed.

Lemma unknown_channels_rejected_witness :
  Case.B !! Sample.unet_key = Some (Sample.conv [3; 4; 5; 6; 7])
  ∧ ((4, 5) ∉ known_channels)
  ∧ merge_AB_key weighted_sum Sample.half Case.B Sample.unet_key (Sample.conv [1; 2; 3; 4])
    = raise (AssertionError Sample.unet_key).
Proof.
  split; [compute_done|]. split; [compute_done|].
  apply (unknown_channels_rejected weighted_sum Sample.half Case.B Sample.unet_key
           (Sample.conv [1; 2; 3; 4]) (Sample.conv [3; 4; 5; 6; 7]) 4 5).
  - compute_done.
  - reflexivity.
  - compute_done.
  - reflexivity.
  - reflexivity.
  - reflexivity.
  - lia.
  - compute_done.
Defined.

(** ** [load_model], and what an extraction saves *)

Lemma strip_unwanted_stripped (r : request) (theta : gmap string tensor) :
  ∃ theta', strip_unwanted r theta = Ok theta'
    ∧ ∀ key, theta' !! key = if stripped r key then None else theta !! key.
Proof.
  destruct (strip_unwanted_lookup r theta "") as (theta' & Hs & _).
  exists theta'. split; [done|]. intros key.
  destruct (strip_unwanted_lookup r theta key) as (theta'' & Hs' & Hl).
  rewrite Hs in Hs'. by simplify_eq.
Qed.

Lemma load_model_spec (E : env) (r : request) (filename : string)
    (file theta : gmap string tensor) (key : string) :
  load_torch_file E filename = Ok file →
  load_model E r filename = Ok theta →
  theta !! key
  = if stripped r key || discarded E r key then None
    else (if calc_fp32 r then tensor_to E Float32 else id) <$> file !! key.
Proof.
  intros Hfile. unfold load_model. rewrite Hfile. simpl. intros H. inv_bind.
  destruct (strip_unwanted_stripped r file) as (theta' & Hs & Hl).
  rewrite Hs in Hstep. injection Hstep as <-.
  assert (x0 !! key = if stripped r key || discarded E r key then None else file !! key)
    as Hx0.
  { rewrite (discard_lookup E r theta' x0 key Hstep0), Hl. unfold discarded.
    unfold discard in Hstep0. case_bool_decide; simpl.
    - destruct (re_compile E (discard_weights r)) as [search|]; [|discriminate].
      destruct (stripped r key), (search key); done.
    - by rewrite orb_false_r. }
  destruct (calc_fp32 r).
  - rewrite lookup_fmap, Hx0. by destruct (_ || _).
  - rewrite Hx0. destruct (_ || _); [done|]. by destruct (file !! key).
Qed.

(** X8. [load_model] keeps the keys of the file that neither the pattern of
    the stripped blocks nor the pattern of [discard_weights] finds, and no
    other key; the tensors it keeps are those of the file, converted to
    float32 when [calc_fp32] is set. *)
Theorem load_model_lookup (E : env) (r : request) (filename : string)
    (file theta : gmap string tensor) :
  load_torch_file E filename = Ok file →
  load_model E r filename = Ok theta →
  ∀ key, theta !! key
         = if stripped r key || discarded E r key then None
           else (if calc_fp32 r then tensor_to E Float32 else id) <$> file !! key.
Proof. intros Hfile Hload key. by eapply load_model_spec. Qed.

Lemma load_model_lookup_witness :
  load_torch_file Case.marking_env "A" = Ok Case.A
  ∧ load_model Case.marking_env Case.extract_vae "A"
    = Ok (value ∅ (load_model Case.marking_env Case.extract_vae "A"))
  ∧ value ∅ (load_model Case.marking_env Case.extract_vae "A") !! Sample.unet_key = None
  ∧ ∀ key, value ∅ (load_model Case.marking_env Case.extract_vae "A") !! key
           = if stripped Case.extract_vae key || discarded Case.marking_env Case.extract_vae key
             then None
             else (if calc_fp32 Case.extract_vae then tensor_to Case.marking_env Float32 else id)
                  <$> Case.A !! key.
Proof.
  split; [compute_done|]. split; [compute_done|]. split; [compute_done|].
  apply (load_model_lookup Case.marking_env Case.extract_vae "A" Case.A); compute_done.
Defined.

(** X9. [load_model] raises only what the reader of the file raises, or
    [re.error] on a pattern of [discard_weights] that does not compile: the
    variable [regex] is bound whenever it is read. *)
Theorem load_model_errors (E : env) (r : request) (filename : string) (e : abort) :
  load_model E r filename = Err e →
  load_torch_file E filename = Err e
  ∨ (e = Raised (ReError (discard_weights r)) ∧ discard_weights r ≠ ""
     ∧ re_compile E (discard_weights r) = None).
Proof.
  unfold load_model. destruct (load_torch_file E filename) as [file|e'];
    [|intros [= ->]; by left].
  simpl. destruct (strip_unwanted_stripped r file) as (theta' & -> & _). simpl.
  unfold discard. case_bool_decide; [|discriminate].
  destruct (re_compile E (discard_weights r)) as [search|]; simpl; [discriminate|].
  intros [= <-]. by right.
Qed.

Lemma load_model_errors_witness :
  load_model Case.marking_env (Request ["A"] InterpNone Float.zero "" "" "" false "None" [] "(") "A"
  = Err (Raised (ReError "("))
  ∧ (load_torch_file Case.marking_env "A" = Err (Raised (ReError "("))
     ∨ (Raised (ReError "(") = Raised (ReError "(") ∧ "(" ≠ ""
        ∧ re_compile Case.marking_env "(" = None)).
Proof.
  split; [compute_done|].
  apply (load_model_errors Case.marking_env
           (Request ["A"] InterpNone Float.zero "" "" "" false "None" [] "(") "A").
  compute_done.
Defined.

Lemma pop_matching_twice (regex : Re.regex) (theta : gmap string tensor) :
  pop_matching regex (pop_matching regex theta) = pop_matching regex theta.
Proof.
  apply map_eq. intros key. rewrite !pop_matching_lookup.
  by destruct (Re.search regex key).
Qed.

(** X10. The pass on [discard_weights] is idempotent: run on what it has
    left, as it is before the file is saved, it removes nothing more. *)
Theorem discard_idempotent (E : env) (r : request) (theta theta' : gmap string tensor) :
  discard E r theta = Ok theta' → discard E r theta' = Ok theta'.
Proof.
  unfold discard. case_bool_decide; [|by intros [= ->]].
  destruct (re_compile E (discard_weights r)) as [search|]; simpl; [|discriminate].
  intros [= <-]. by rewrite pop_matching_twice.
Qed.

Lemma discard_idempotent_witness :
  discard (Sample.sample_env Sample.files) Sample.bake_and_discard Sample.A
  = Ok (value ∅ (discard (Sample.sample_env Sample.files) Sample.bake_and_discard Sample.A))
  ∧ value ∅ (discard (Sample.sample_env Sample.files) Sample.bake_and_discard Sample.A)
      !! Sample.encoder_key = None
  ∧ discard (Sample.sample_env Sample.files) Sample.bake_and_discard
      (value ∅ (discard (Sample.sample_env Sample.files) Sample.bake_and_discard Sample.A))
    = Ok (value ∅ (discard (Sample.sample_env Sample.files) Sample.bake_and_discard Sample.A)).
Proof.
  split; [compute_done|]. split; [compute_done|].
  apply (discard_idempotent (Sample.sample_env Sample.files) Sample.bake_and_discard Sample.A).
  compute_done.
Defined.

Lemma extract_branch (m : interp) :
  is_extract m = true → Str.contains "Extract" (interp_name m) = true.
Proof. by destruct m. Qed.

Lemma extract_funcs (m : interp) :
  is_extract m = true → theta_func1 m = None ∧ theta_func2 m = None.
Proof. by destruct m. Qed.

Lemma run_extract (E : env) (r : request) (name filename : string) :
  is_extract (interp_method r) = true →
  model_names r !! 0 = Some name → name ≠ "" →
  checkpoint_aliases E name = Some filename →
  run_modelmerger E r
  = (do theta <- load_model E r filename;
     Ok (Saved theta (extracted_type (interp_method r)) false false)).
Proof.
  intros Hx Hname Hne Halias.
  destruct (extract_funcs _ Hx) as [Hf1 Hf2].
  unfold run_modelmerger, load_all, resolve.
  rewrite Hname. simpl. rewrite (bool_decide_eq_false_2 _ Hne), Halias. simpl.
  rewrite Hf2, Hf1. simpl.
  destruct (load_model E r filename) as [theta|e]; simpl; [|done].
  unfold merge_and_save. rewrite (extract_branch _ Hx).
  unfold extract. by destruct (interp_method r).
Qed.

Lemma strips_extract (r r' : request) (b : block) :
  is_extract (interp_method r) = true →
  interp_method r' = interp_method r →
  bake_in_vae r' = bake_in_vae r → bake_in_te r' = bake_in_te r →
  (own_policy r' = "None (remove)" ↔ own_policy r = "None (remove)") →
  strips r' b = strips r b.
Proof.
  unfold own_policy, strips. intros Hx -> -> -> Hown.
  destruct (interp_method r); try done; destruct b; simpl;
    rewrite ?orb_true_r; try done; by rewrite (bool_decide_ext _ _ Hown).
Qed.

Lemma load_model_extract (E : env) (r r' : request) (filename : string) :
  is_extract (interp_method r) = true →
  interp_method r' = interp_method r →
  calc_fp32 r' = calc_fp32 r →
  bake_in_vae r' = bake_in_vae r → bake_in_te r' = bake_in_te r →
  discard_weights r' = discard_weights r →
  (own_policy r' = "None (remove)" ↔ own_policy r = "None (remove)") →
  load_model E r' filename = load_model E r filename.
Proof.
  intros Hx Hm Hfp Hv Ht Hd Hown.
  unfold load_model, strip_unwanted, strip_code, discard.
  by rewrite !(strips_extract r r') , Hfp, Hd.
Qed.

(** X11. An extraction reads of the request the method, the first model
    name, [calc_fp32], the two bake sources, the pattern of the weights to
    discard, and whether the policy of the block it saves is "None
    (remove)": two requests that agree on these end alike, on the same
    saved dict or on the same error, whatever their other model names,
    their multipliers, and the rest of their save policies. *)
Theorem extraction_ignores_rest (E : env) (r r' : request) :
  is_extract (interp_method r) = true →
  interp_method r' = interp_method r →
  model_names r' !! 0 = model_names r !! 0 →
  calc_fp32 r' = calc_fp32 r →
  bake_in_vae r' = bake_in_vae r → bake_in_te r' = bake_in_te r →
  discard_weights r' = discard_weights r →
  (own_policy r' = "None (remove)" ↔ own_policy r = "None (remove)") →
  run_modelmerger E r' = run_modelmerger E r.
Proof.
  intros Hx Hm Hn Hfp Hv Ht Hd Hown.
  destruct (extract_funcs _ Hx) as [Hf1 Hf2].
  unfold run_modelmerger, load_all, resolve. rewrite Hm, Hn, Hf1, Hf2.
  destruct (model_names r !! 0) as [name|]; simpl; [|done].
  case_bool_decide; [done|].
  destruct (checkpoint_aliases E name) as [filename|]; simpl; [|done].
  rewrite (load_model_extract E r r') by done.
  destruct (load_model E r filename) as [theta|e]; simpl; [|done].
  unfold merge_and_save, extract. by rewrite Hm, (extract_branch _ Hx).
Qed.

Lemma extraction_ignores_rest_witness :
  is_extract (interp_method Case.extract_vae) = true
  ∧ interp_method Case.extract_vae_again = interp_method Case.extract_vae
  ∧ model_names Case.extract_vae_again !! 0 = model_names Case.extract_vae !! 0
  ∧ calc_fp32 Case.extract_vae_again = calc_fp32 Case.extract_vae
  ∧ bake_in_vae Case.extract_vae_again = bake_in_vae Case.extract_vae
  ∧ bake_in_te Case.extract_vae_again = bake_in_te Case.extract_vae
  ∧ discard_weights Case.extract_vae_again = discard_weights Case.extract_vae
  ∧ (own_policy Case.extract_vae_again = "None (remove)"
     ↔ own_policy Case.extract_vae = "None (remove)")
  ∧ run_modelmerger Case.marking_env Case.extract_vae
    = Ok (Saved {[ Sample.vae_key := Sample.vec [2]; "model_ema.decay" := Sample.vec [9] ]}
            VAE false false)
  ∧ run_modelmerger Case.marking_env Case.extract_vae_again
    = run_modelmerger Case.marking_env Case.extract_vae.
Proof.
  do 7 (split; [reflexivity|]).
  split; [split; discriminate|].
  split; [compute_done|].
  apply (extraction_ignores_rest Case.marking_env Case.extract_vae Case.extract_vae_again);
    first [reflexivity | split; discriminate].
Defined.

Lemma run_extract_saved (E : env) (r : request) (s : saved) :
  is_extract (interp_method r) = true → run_modelmerger E r = Ok s →
  ∃ filename, load_model E r filename = Ok (saved_theta s).
Proof.
  intros Hx Hrun. unfold run_modelmerger in Hrun. inv_bind.
  destruct x as [theta_0 theta_1].
  destruct (load_all_primary E r theta_0 theta_1 Hstep) as (filename & Hload).
  exists filename. unfold merge_and_save in Hrun.
  rewrite (extract_branch _ Hx) in Hrun. unfold extract in Hrun.
  destruct (interp_method r); inv_bind; done.
Qed.

(** X12. An extraction of the VAE or of the text encoders saves no key in
    which the marker of the backbone is found. *)
Theorem extraction_drops_backbone (E : env) (r : request) (s : saved) (key : string) :
  interp_method r = ExtractVAE ∨ interp_method r = ExtractTE →
  run_modelmerger E r = Ok s →
  marked Backbone key = true →
  saved_theta s !! key = None.
Proof.
  intros Hm Hrun Hkey.
  destruct (run_extract_saved E r s) as (filename & Hload); [|done|].
  { destruct Hm as [-> | ->]; reflexivity. }
  apply (load_model_None E r filename _ key Hload). left. exists Backbone.
  split; [|done]. simpl. destruct Hm as [-> | ->]; simpl; by rewrite ?orb_true_r.
Qed.

Lemma extraction_drops_backbone_witness :
  (interp_method Case.extract_vae = ExtractVAE ∨ interp_method Case.extract_vae = ExtractTE)
  ∧ run_modelmerger Case.marking_env Case.extract_vae
    = Ok (value (Saved ∅ Checkpoint false false)
            (run_modelmerger Case.marking_env Case.extract_vae))
  ∧ marked Backbone Sample.unet_key = true
  ∧ Case.A !! Sample.unet_key = Some (Sample.conv [1; 2; 3; 4])
  ∧ saved_theta (value (Saved ∅ Checkpoint false false)
                   (run_modelmerger Case.marking_env Case.extract_vae))
      !! Sample.unet_key = None.
Proof.
  split; [by left|]. split; [compute_done|]. split; [reflexivity|].
  split; [compute_done|].
  apply (extraction_drops_backbone Case.marking_env Case.extract_vae).
  - by left.
  - compute_done.
  - reflexivity.
Defined.

(** X13. An extraction keeps the keys of A in which no marker is found and
    that [discard_weights] does not find: what it saves is not made of the
    keys of the extracted block only. *)
Theorem extraction_keeps_unmarked (E : env) (r : request) (name filename : string)
    (file : gmap string tensor) (s : saved) (key : string) :
  is_extract (interp_method r) = true →
  model_names r !! 0 = Some name → name ≠ "" →
  checkpoint_aliases E name = Some filename →
  load_torch_file E filename = Ok file →
  run_modelmerger E r = Ok s →
  (∀ b, marked b key = false) → discarded E r key = false →
  saved_theta s !! key
  = (if calc_fp32 r then tensor_to E Float32 else id) <$> file !! key.
Proof.
  intros Hx Hname Hne Halias Hfile Hrun Hun Hdis.
  rewrite (run_extract E r name filename Hx Hname Hne Halias) in Hrun. inv_bind.
  simpl. rewrite (load_model_spec E r filename file x key Hfile Hstep).
  unfold stripped. by rewrite !Hun, Hdis, !andb_false_r.
Qed.

Lemma extraction_keeps_unmarked_witness :
  is_extract (interp_method Case.extract_vae) = true
  ∧ classify "model_ema.decay" = None
  ∧ (∀ b, marked b "model_ema.decay" = false)
  ∧ saved_theta (value (Saved ∅ Checkpoint false false)
                   (run_modelmerger Case.marking_env Case.extract_vae))
      !! "model_ema.decay"
    = (if calc_fp32 Case.extract_vae then tensor_to Case.marking_env Float32 else id)
      <$> Case.A !! "model_ema.decay".
Proof.
  split; [reflexivity|]. split; [reflexivity|].
  assert (∀ b, marked b "model_ema.decay" = false) as Hun by (by intros []).
  split; [exact Hun|].
  apply (extraction_keeps_unmarked Case.marking_env Case.extract_vae "A" "A" Case.A).
  - reflexivity.
  - reflexivity.
  - discriminate.
  - compute_done.
  - compute_done.
  - compute_done.
  - exact Hun.
  - reflexivity.
Defined.

(** ** The change of precision *)

Lemma precision_case_None (E : env) (s : string) :
  s ∉ precisions → precision_case E s = None.
Proof.
  unfold precisions. rewrite !not_elem_of_cons. intros (H1 & H2 & H3 & H4 & _).
  unfold precision_case. by rewrite !bool_decide_eq_false_2.
Qed.

Lemma precision_case_Some (E : env) (s : string) (to : tensor → tensor) :
  precision_case E s = Some to → s ≠ "None" ∧ s ≠ "No change".
Proof.
  unfold precision_case. repeat case_bool_decide; intros ?; by simplify_eq.
Qed.

Lemma recast_step_policy (E : env) (regex : Re.regex) (theta : gmap string tensor)
    (s : string) :
  recast_step E (Ok (Some regex, theta)) (Policy s)
  = Ok (Some regex, match precision_case E s with
                    | Some to => cast_matching regex to theta
                    | None => theta
                    end).
Proof.
  unfold recast_step. simpl.
  destruct (precision_case E s) as [to|] eqn:Hp.
  - destruct (precision_case_Some E s to Hp) as [H1 H2].
    by rewrite !bool_decide_eq_true_2.
  - by destruct (_ && _).
Qed.

Lemma converted_by_lookup (E : env) (regex : Re.regex) (s : string)
    (theta : gmap string tensor) (key : string) :
  match precision_case E s with
  | Some to => cast_matching regex to theta
  | None => theta
  end !! key = converted_by E regex s key <$> theta !! key.
Proof.
  unfold converted_by. destruct (precision_case E s) as [to|].
  - apply cast_matching_lookup.
  - by destruct (theta !! key).
Qed.

Lemma recast_spec (E : env) (r : request) (theta : gmap string tensor) :
  ∃ theta', recast E r theta = Ok theta'
    ∧ ∀ key, theta' !! key
             = (λ v, converted_by E te_cast_regex (save_t r) key
                       (converted_by E vae_cast_regex (save_v r) key
                          (converted_by E unet_cast_regex (save_u r) key v)))
               <$> theta !! key.
Proof.
  unfold recast, saves. cbn [foldl].
  change (recast_step E (Ok (None, theta)) (Block 0))
    with (Ok (Some unet_cast_regex, theta) : res (option Re.regex * gmap string tensor)).
  rewrite recast_step_policy.
  match goal with
  | |- context [recast_step E (Ok (Some _, ?t)) (Block 1)] =>
      change (recast_step E (Ok (Some unet_cast_regex, t)) (Block 1))
        with (Ok (Some vae_cast_regex, t) : res (option Re.regex * gmap string tensor))
  end.
  rewrite recast_step_policy.
  match goal with
  | |- context [recast_step E (Ok (Some _, ?t)) (Block 2)] =>
      change (recast_step E (Ok (Some vae_cast_regex, t)) (Block 2))
        with (Ok (Some te_cast_regex, t) : res (option Re.regex * gmap string tensor))
  end.
  rewrite recast_step_policy. simpl.
  eexists. split; [reflexivity|]. intros key.
  rewrite !converted_by_lookup. by destruct (theta !! key).
Qed.

(** X14. The change of precision never raises and keeps every key.  The
    tensor under a key goes through the conversion of the backbone policy
    if the unanchored pattern "model.diffusion_model." finds the key, then
    that of the VAE policy, then that of the text-encoder policy, each only
    when the policy names a precision. *)
Theorem recast_lookup (E : env) (r : request) (theta : gmap string tensor) :
  ∃ theta', recast E r theta = Ok theta'
    ∧ ∀ key, theta' !! key
             = (λ v, converted_by E te_cast_regex (save_t r) key
                       (converted_by E vae_cast_regex (save_v r) key
                          (converted_by E unet_cast_regex (save_u r) key v)))
               <$> theta !! key.
Proof. apply recast_spec. Qed.

(** X15. With save policies that name no precision ("None (remove)", "None",
    "No change" or any other string), the change of precision returns the
    dict as it is. *)
Theorem recast_without_precision (E : env) (r : request) (theta : gmap string tensor) :
  save_u r ∉ precisions → save_v r ∉ precisions → save_t r ∉ precisions →
  recast E r theta = Ok theta.
Proof.
  intros Hu Hv Ht. destruct (recast_spec E r theta) as (theta' & -> & Hl).
  f_equal. apply map_eq. intros key. rewrite Hl. unfold converted_by.
  rewrite !precision_case_None by done. by destruct (theta !! key).
Qed.

Lemma recast_without_precision_witness :
  (save_u Sample.remove_vae ∉ precisions)
  ∧ (save_v Sample.remove_vae ∉ precisions)
  ∧ (save_t Sample.remove_vae ∉ precisions)
  ∧ recast Case.marking_env Sample.remove_vae Sample.A = Ok Sample.A.
Proof.
  split; [compute_done|]. split; [compute_done|]. split; [compute_done|].
  apply (recast_without_precision Case.marking_env Sample.remove_vae Sample.A);
    compute_done.
Defined.

(** X16. The precision of the text-encoder policy is not applied to a key
    that only the marker "cond_stage_model.model" makes a key of the text
    encoders: the pattern of the conversion has two of the three
    alternatives of the pattern of the stripping.  Such a key, when neither
    of the two other patterns finds it, keeps its tensor. *)
Theorem recast_misses_cond_stage_model (E : env) (r : request)
    (theta theta' : gmap string tensor) (key : string) :
  recast E r theta = Ok theta' →
  Re.search unet_cast_regex key = false →
  Re.search vae_cast_regex key = false →
  Re.search te_cast_regex key = false →
  theta' !! key = theta !! key.
Proof.
  intros H Hu Hv Ht. destruct (recast_spec E r theta) as (theta'' & Hr & Hl).
  rewrite Hr in H. injection H as <-. rewrite Hl. unfold converted_by.
  rewrite Hu, Hv, Ht.
  destruct (precision_case E (save_u r)), (precision_case E (save_v r)),
    (precision_case E (save_t r)), (theta !! key); done.
Qed.

Lemma recast_misses_cond_stage_model_witness :
  marked TextEncoder "cond_stage_model.model.ln_final.weight" = true
  ∧ recast Case.marking_env (Request ["A"] InterpNone Float.zero "float16" "float16" "float16"
                               false "None" [] "")
      {[ "cond_stage_model.model.ln_final.weight" := Sample.vec [1];
         Sample.te_key := Sample.vec [2] ]}
    = Ok {[ "cond_stage_model.model.ln_final.weight" := Sample.vec [1];
            Sample.te_key := Tensor [16; 1] Float.Single [Sample.q 2] ]}
  ∧ ({[ "cond_stage_model.model.ln_final.weight" := Sample.vec [1];
        Sample.te_key := Tensor [16; 1] Float.Single [Sample.q 2] ]} : gmap string tensor)
      !! "cond_stage_model.model.ln_final.weight"
    = ({[ "cond_stage_model.model.ln_final.weight" := Sample.vec [1];
          Sample.te_key := Sample.vec [2] ]} : gmap string tensor)
      !! "cond_stage_model.model.ln_final.weight".
Proof.
  split; [reflexivity|]. split; [compute_done|].
  apply (recast_misses_cond_stage_model Case.marking_env
           (Request ["A"] InterpNone Float.zero "float16" "float16" "float16" false "None" [] "")).
  - compute_done.
  - reflexivity.
  - reflexivity.
  - reflexivity.
Defined.

(** ** The checks of the model names *)

(** X17. Without a name for A the run returns through [fail], with the
    message that a primary model is required, whatever the rest of the
    request. *)
Theorem primary_required (E : env) (r : request) :
  model_names r !! 0 = Some "" →
  run_modelmerger E r = Err (Failed "Failed: Merging requires a primary model.").
Proof.
  intros Hname. unfold run_modelmerger, load_all, resolve. by rewrite Hname.
Qed.

Lemma primary_required_witness :
  model_names (Sample.plain [""; "B"] WeightedSum Sample.half) !! 0 = Some ""
  ∧ Sample.run (Sample.plain [""; "B"] WeightedSum Sample.half)
    = Err (Failed "Failed: Merging requires a primary model.").
Proof.
  split; [reflexivity|].
  apply (primary_required (Sample.sample_env Sample.files)
           (Sample.plain [""; "B"] WeightedSum Sample.half)).
  reflexivity.
Defined.

(** X18. When the method merges A with B and A is known, an empty name for
    B makes the run return through [fail], with the message that a
    secondary model is required, and a list of names that stops after A
    makes it raise [UnboundLocalError]. *)
Theorem secondary_required (E : env) (r : request)
    (f2 : tensor → tensor → float → res tensor) (name filename : string) :
  theta_func2 (interp_method r) = Some f2 →
  model_names r !! 0 = Some name → name ≠ "" →
  checkpoint_aliases E name = Some filename →
  (model_names r !! 1 = Some "" →
   run_modelmerger E r = Err (Failed "Failed: Merging requires a secondary model."))
  ∧ (model_names r !! 1 = None →
     run_modelmerger E r = raise (UnboundLocalError "secondary_model_name")).
Proof.
  intros Hf2 Hname Hne Halias.
  split; intros Hb; unfold run_modelmerger, load_all, resolve;
    rewrite Hname; simpl; rewrite (bool_decide_eq_false_2 _ Hne), Halias; simpl;
    rewrite Hf2, Hb; reflexivity.
Qed.

Lemma secondary_required_witness :
  theta_func2 WeightedSum = Some weighted_sum
  ∧ checkpoint_aliases (Sample.sample_env Sample.files) "A" = Some "A"
  ∧ Sample.run (Sample.plain ["A"; ""] WeightedSum Sample.half)
    = Err (Failed "Failed: Merging requires a secondary model.")
  ∧ Sample.run (Sample.plain ["A"] WeightedSum Sample.half)
    = raise (UnboundLocalError "secondary_model_name").
Proof.
  split; [reflexivity|]. split; [compute_done|]. split.
  - apply (secondary_required (Sample.sample_env Sample.files)
             (Sample.plain ["A"; ""] WeightedSum Sample.half) weighted_sum "A" "A");
      [reflexivity|reflexivity|discriminate|compute_done|reflexivity].
  - apply (secondary_required (Sample.sample_env Sample.files)
             (Sample.plain ["A"] WeightedSum Sample.half) weighted_sum "A" "A");
      [reflexivity|reflexivity|discriminate|compute_done|reflexivity].
Defined.

(** X19. With "Add difference", A and B known and an empty name for C, the
    run returns through [fail], with the message that the method requires a
    tertiary model. *)
Theorem tertiary_required (E : env) (r : request) (name_a file_a name_b file_b : string) :
  interp_method r = AddDifference →
  model_names r !! 0 = Some name_a → name_a ≠ "" →
  checkpoint_aliases E name_a = Some file_a →
  model_names r !! 1 = Some name_b → name_b ≠ "" →
  checkpoint_aliases E name_b = Some file_b →
  model_names r !! 2 = Some "" →
  run_modelmerger E r
  = Err (Failed "Failed: Interpolation method (Add difference) requires a tertiary model.").
Proof.
  intros Hm Ha Hna Hfa Hb Hnb Hfb Hc.
  unfold run_modelmerger, load_all, resolve.
  rewrite Ha. simpl. rewrite (bool_decide_eq_false_2 _ Hna), Hfa. simpl.
  rewrite Hm. simpl. rewrite Hb. simpl.
  rewrite (bool_decide_eq_false_2 _ Hnb), Hfb. simpl. rewrite Hc. reflexivity.
Qed.

Lemma tertiary_required_witness :
  interp_method (Sample.plain ["A"; "B"; ""] AddDifference Float.one) = AddDifference
  ∧ checkpoint_aliases (Sample.sample_env Sample.files) "A" = Some "A"
  ∧ checkpoint_aliases (Sample.sample_env Sample.files) "B" = Some "B"
  ∧ Sample.run (Sample.plain ["A"; "B"; ""] AddDifference Float.one)
    = Err (Failed "Failed: Interpolation method (Add difference) requires a tertiary model.").
Proof.
  split; [reflexivity|]. split; [compute_done|]. split; [compute_done|].
  apply (tertiary_required (Sample.sample_env Sample.files)
           (Sample.plain ["A"; "B"; ""] AddDifference Float.one) "A" "A" "B" "B");
    first [reflexivity | discriminate | compute_done].
Defined.

(** ** Baking *)

(** X20. A bake under a known architecture writes to the working dict every
    key of the remapped dict but the probe key: the tensor of the working
    dict under the probe key is never replaced, and the placeholder never
    reaches the working dict through that key. *)
Theorem bake_keeps_probe_key (E : env) (g : guess_t E) (source theta_0 : gmap string tensor)
    (probe : string) (converted : gmap (option string) tensor) :
  replace_state_dict E {[ Some probe := placeholder ]} source g = Ok converted →
  is_Some (converted !! Some probe) →
  ∃ theta', bake E (Some probe) g source theta_0 = Ok theta'
    ∧ theta' !! probe = theta_0 !! probe
    ∧ ∀ key, key ≠ probe →
             theta' !! key = match converted !! Some key with
                             | Some v => Some v
                             | None => theta_0 !! key
                             end.
Proof.
  intros Hconv [v Hv]. unfold bake. rewrite Hconv. simpl. rewrite Hv.
  eexists. split; [reflexivity|]. split.
  - rewrite overlay_lookup. by rewrite lookup_delete_eq.
  - intros key Hne. rewrite overlay_lookup.
    rewrite lookup_delete_ne by congruence. done.
Qed.

Lemma bake_keeps_probe_key_witness :
  replace_state_dict (Sample.sample_env Sample.files)
    {[ Some "decoder.probe" := placeholder ]} Sample.ext_vae ()
  = Ok (Sample.prefixed Sample.ext_vae ∪ {[ Some "decoder.probe" := placeholder ]})
  ∧ ∃ theta', bake (Sample.sample_env Sample.files) (Some "decoder.probe") ()
                Sample.ext_vae Sample.A = Ok theta'
      ∧ theta' !! "decoder.probe" = Sample.A !! "decoder.probe"
      ∧ ∀ key, key ≠ "decoder.probe" →
               theta' !! key
               = match (Sample.prefixed Sample.ext_vae ∪ {[ Some "decoder.probe" := placeholder ]})
                         !! Some key with
                 | Some v => Some v
                 | None => Sample.A !! key
                 end.
Proof.
  split; [reflexivity|].
  apply (bake_keeps_probe_key (Sample.sample_env Sample.files) ()
           Sample.ext_vae Sample.A "decoder.probe"
           (Sample.prefixed Sample.ext_vae ∪ {[ Some "decoder.probe" := placeholder ]})).
  - reflexivity.
  - compute_done.
Defined.

Lemma bake_te_fold_Err (E : env) (probe : option string) (g : guess_t E)
    (l : list string) (e : abort) :
  foldl (λ acc te,
           do theta <- acc;
           do filename <- of_option (KeyError te) (module_list E te);
           do te_dict <- load_torch_file E filename;
           bake E probe g te_dict theta) (Err e) l = Err e.
Proof. induction l as [|te l IH]; simpl; [done|]. exact IH. Qed.

Lemma bake_te_fold_missing (E : env) (probe : option string) (g : guess_t E)
    (l : list string) (te : string) (acc : res (gmap string tensor)) :
  te ∈ l → module_list E te = None →
  ∃ e, foldl (λ acc te,
                do theta <- acc;
                do filename <- of_option (KeyError te) (module_list E te);
                do te_dict <- load_torch_file E filename;
                bake E probe g te_dict theta) acc l = Err e.
Proof.
  intros Hin Hmiss. revert acc.
  induction l as [|x l IH]; intros acc; [by inversion Hin|].
  apply elem_of_cons in Hin as [<-|Hin]; simpl.
  - destruct acc as [theta|e]; simpl.
    + rewrite Hmiss. simpl. rewrite bake_te_fold_Err. eauto.
    + rewrite bake_te_fold_Err. eauto.
  - by apply IH.
Qed.

(** X21. A text encoder of the list [bake_in_te] that the registry of
    modules does not have makes the bake raise; this is so for the entry
    "Built in (A)" too, which the test on "Built in" lets through since it
    compares whole entries of the list. *)
Theorem bake_te_unknown_module (E : env) (r : request) (probe : option string)
    (g : guess_t E) (theta_0 : gmap string tensor) (te : string) :
  te ∈ bake_in_te r → "Built in" ∉ bake_in_te r →
  module_list E te = None →
  bakes_te r = true ∧ ∃ e, bake_te E r probe g theta_0 = Err e.
Proof.
  intros Hin Hbuilt Hmiss.
  assert (bakes_te r = true) as Hb.
  { unfold bakes_te. rewrite (bool_decide_eq_false_2 _ Hbuilt), andb_true_r.
    apply bool_decide_eq_true_2. intros Hnil. rewrite Hnil in Hin. by inversion Hin. }
  split; [done|]. unfold bake_te. rewrite Hb.
  by apply (bake_te_fold_missing E probe g (bake_in_te r) te).
Qed.

Lemma bake_te_unknown_module_witness :
  "Built in (A)" ∈ bake_in_te Case.built_in_te
  ∧ ("Built in" ∉ bake_in_te Case.built_in_te)
  ∧ module_list Case.marking_env "Built in (A)" = None
  ∧ run_modelmerger Case.marking_env Case.built_in_te = raise (KeyError "Built in (A)")
  ∧ bakes_te Case.built_in_te = true
  ∧ ∃ e, bake_te Case.marking_env Case.built_in_te None () Case.A = Err e.
Proof.
  split; [compute_done|]. split; [compute_done|]. split; [reflexivity|].
  split; [compute_done|].
  apply (bake_te_unknown_module Case.marking_env Case.built_in_te None () Case.A
           "Built in (A)").
  - compute_done.
  - compute_done.
  - reflexivity.
Defined.

(** ** [run_pnginfo] *)

Section strings.

Lemma string_app_assoc (s1 s2 s3 : string) : (s1 +:+ s2) +:+ s3 = s1 +:+ (s2 +:+ s3).
Proof.
  induction s1 as [|c s1 IH]; [done|].
  change (String c ((s1 +:+ s2) +:+ s3) = String c (s1 +:+ (s2 +:+ s3))).
  by rewrite IH.
Qed.

Lemma string_app_length (s1 s2 : string) :
  String.length (s1 +:+ s2) = String.length s1 + String.length s2.
Proof.
  induction s1 as [|c s1 IH]; [done|].
  change (S (String.length (s1 +:+ s2)) = S (String.length s1 + String.length s2)).
  by rewrite IH.
Qed.

(** Whitespace at the end of a string is all that [rstrip] removes. *)
Lemma rstrip_app (s t : string) :
  Py.rstrip t ≠ "" → Py.rstrip (s +:+ t) = s +:+ Py.rstrip t.
Proof.
  intros Ht. induction s as [|c s IH]; [done|].
  change (Py.rstrip (String c (s +:+ t)) = String c (s +:+ Py.rstrip t)).
  simpl. rewrite IH.
  destruct (s +:+ Py.rstrip t) eqn:Hs; [|done].
  exfalso. apply Ht. destruct s as [|c' s]; [exact Hs|discriminate Hs].
Qed.

Lemma rstrip_app_nonempty (s t : string) : Py.rstrip t ≠ "" → Py.rstrip (s +:+ t) ≠ "".
Proof.
  intros Ht. rewrite rstrip_app by done.
  destruct s as [|c s]; [exact Ht|discriminate].
Qed.

End strings.

Section dicts.

Context {V : Type}.

Lemma dict_set_nonempty (d : list (string * V)) (k : string) (v : V) :
  Py.dict_set d k v ≠ [].
Proof. destruct d as [|[k' v'] d]; simpl; [done|]. by case_decide. Qed.

Lemma dict_merge_nonempty (d items : list (string * V)) :
  d ≠ [] → Py.dict_merge d items ≠ [].
Proof.
  unfold Py.dict_merge. revert d.
  induction items as [|[k v] items IH]; intros d Hd; simpl; [done|].
  apply IH, dict_set_nonempty.
Qed.

Lemma dict_set_fresh (d : list (string * V)) (k : string) (v : V) :
  k ∉ d.*1 → Py.dict_set d k v = d ++ [(k, v)].
Proof.
  induction d as [|[k' v'] d IH]; simpl; [done|]. intros Hk.
  apply not_elem_of_cons in Hk as [Hne Hk].
  rewrite decide_False by done. by rewrite IH.
Qed.

Lemma dict_get_None (d : list (string * V)) (k : string) :
  k ∉ d.*1 → Py.dict_get d k = None.
Proof.
  induction d as [|[k' v'] d IH]; simpl; [done|]. intros Hk.
  apply not_elem_of_cons in Hk as [Hne Hk].
  rewrite decide_False by done. by apply IH.
Qed.

Lemma dict_merge_parameters (v : V) (acc items : list (string * V)) :
  NoDup (items.*1) → (∀ k, k ∈ acc.*1 → k ∉ items.*1) → "parameters" ∉ acc.*1 →
  Py.dict_merge (("parameters", v) :: acc) items
  = ("parameters", default v (Py.dict_get items "parameters"))
    :: acc ++ filter (λ kv, kv.1 ≠ "parameters") items.
Proof.
  unfold Py.dict_merge. revert v acc.
  induction items as [|[k x] items IH]; intros v acc Hnd Hdisj Hp.
  - simpl. by rewrite app_nil_r.
  - apply NoDup_cons in Hnd as [Hk Hnd]. cbn [foldl fst snd Py.dict_set].
    destruct (decide ("parameters" = k)) as [<-|Hne].
    + rewrite IH; [|done| |done].
      * cbn [Py.dict_get]. rewrite decide_True by done.
        rewrite dict_get_None by done. simpl.
        rewrite filter_cons_False by (simpl; tauto). done.
      * intros k' Hk'. specialize (Hdisj k' Hk'). cbn in Hdisj.
        by apply not_elem_of_cons in Hdisj as [_ ?].
    + rewrite dict_set_fresh.
      2:{ intros Hin. apply (Hdisj k Hin). cbn. apply elem_of_cons. by left. }
      rewrite IH; [|done| |].
      * cbn [Py.dict_get]. rewrite decide_False by done.
        rewrite filter_cons_True by (simpl; congruence).
        by rewrite <- app_assoc.
      * intros k'. rewrite fmap_app, elem_of_app. intros [Hk'|Hk'].
        -- specialize (Hdisj k' Hk'). cbn in Hdisj.
           by apply not_elem_of_cons in Hdisj as [_ ?].
        -- cbn in Hk'. apply list_elem_of_singleton in Hk' as ->. done.
      * rewrite fmap_app, elem_of_app. intros [?|Hk']; [done|].
        cbn in Hk'. apply list_elem_of_singleton in Hk'. done.
Qed.

(** X24. The dict that [run_pnginfo] shows starts with the key 'parameters'
    and goes on with the other keys of the image, in their order.  The text
    under 'parameters' is that of the image's own entry 'parameters' when
    it has one, and [geninfo] otherwise. *)
Theorem shown_items (geninfo : V) (items : list (string * V)) :
  NoDup (items.*1) →
  Py.dict_merge [("parameters", geninfo)] items
  = ("parameters", default geninfo (Py.dict_get items "parameters"))
    :: filter (λ kv, kv.1 ≠ "parameters") items.
Proof.
  intros Hnd. rewrite (dict_merge_parameters geninfo [] items Hnd); [done| |].
  - intros k Hk. by apply elem_of_nil in Hk.
  - apply not_elem_of_nil.
Qed.

End dicts.

Section pnginfo_properties.

Context {Image V : Type}.
Context (read_info_from_image : Image → V * list (string * V)).
Context (plaintext_to_html : string → string) (str : V → string).

Lemma info_block_eq (key : string) (text : V) :
  info_block plaintext_to_html str key text
  = "<div>" +:+ Py.newline
    +:+ "<p><b>" +:+ plaintext_to_html key +:+ "</b></p>" +:+ Py.newline
    +:+ "<p>" +:+ plaintext_to_html (str text) +:+ "</p>" +:+ Py.newline
    +:+ "</div>" +:+ Py.newline.
Proof.
  unfold info_block, Py.strip.
  set (x := plaintext_to_html key). set (y := plaintext_to_html (str text)).
  change (Py.lstrip (Py.newline +:+ "<div>" +:+ Py.newline +:+ "<p><b>" +:+ x
                     +:+ "</b></p>" +:+ Py.newline +:+ "<p>" +:+ y +:+ "</p>"
                     +:+ Py.newline +:+ "</div>" +:+ Py.newline))
    with (("<div>" +:+ Py.newline +:+ "<p><b>") +:+ x
          +:+ ("</b></p>" +:+ Py.newline +:+ "<p>") +:+ y
          +:+ ("</p>" +:+ Py.newline +:+ "</div>" +:+ Py.newline)).
  assert (Py.rstrip ("</p>" +:+ Py.newline +:+ "</div>" +:+ Py.newline)
          = "</p>" +:+ Py.newline +:+ "</div>") as Hend by reflexivity.
  assert (Py.rstrip ("</p>" +:+ Py.newline +:+ "</div>" +:+ Py.newline) ≠ "") as Hne
    by (rewrite Hend; discriminate).
  rewrite rstrip_app by (do 3 apply rstrip_app_nonempty; exact Hne).
  rewrite rstrip_app by (do 2 apply rstrip_app_nonempty; exact Hne).
  rewrite rstrip_app by (apply rstrip_app_nonempty; exact Hne).
  rewrite rstrip_app by exact Hne.
  rewrite Hend. rewrite !string_app_assoc. reflexivity.
Qed.

(** X22. What a turn of the loop of [run_pnginfo] adds to [info] is the
    block of the template between its first and its last newline, and a
    newline: [strip] removes nothing of the two texts, whatever whitespace
    they start or end with. *)
Theorem info_block_template (key : string) (text : V) :
  info_block plaintext_to_html str key text
  = "<div>" +:+ Py.newline
    +:+ "<p><b>" +:+ plaintext_to_html key +:+ "</b></p>" +:+ Py.newline
    +:+ "<p>" +:+ plaintext_to_html (str text) +:+ "</p>" +:+ Py.newline
    +:+ "</div>" +:+ Py.newline.
Proof. apply info_block_eq. Qed.

Lemma info_fold_app (acc : string) (l : list (string * V)) :
  foldl (λ info kv, info +:+ info_block plaintext_to_html str kv.1 kv.2) acc l
  = acc +:+ foldl (λ info kv, info +:+ info_block plaintext_to_html str kv.1 kv.2) "" l.
Proof.
  revert acc. induction l as [|kv l IH]; intros acc; simpl.
  - induction acc as [|c acc IHacc]; [done|].
    change (String c acc = String c (acc +:+ "")). by rewrite <- IHacc.
  - rewrite IH, (IH (_ +:+ _)). change ("" +:+ ?s) with s.
    by rewrite string_app_assoc.
Qed.

Lemma info_starts_with_div (l : list (string * V)) :
  l ≠ [] →
  ∃ rest, foldl (λ info kv, info +:+ info_block plaintext_to_html str kv.1 kv.2) "" l
          = "<div>" +:+ Py.newline +:+ rest.
Proof.
  destruct l as [|kv l]; [done|]. intros _. simpl.
  rewrite info_fold_app. change ("" +:+ ?s) with s.
  rewrite info_block_eq, !string_app_assoc. eauto.
Qed.

(** X23. [run_pnginfo] never returns the message "Nothing found in the
    image.": the dict it walks always has the key 'parameters', so [info]
    is not empty when the test on its length is reached.  Without an image
    it returns three empty strings. *)
Theorem run_pnginfo_message_is_dead (image : option Image) :
  match image with
  | None => run_pnginfo read_info_from_image plaintext_to_html str None = ("", EmptyStr, "")
  | Some i =>
      ∃ rest,
        run_pnginfo read_info_from_image plaintext_to_html str (Some i)
        = ("", Geninfo (read_info_from_image i).1, "<div>" +:+ Py.newline +:+ rest)
        ∧ "<div>" +:+ Py.newline +:+ rest ≠ nothing_found
  end.
Proof.
  destruct image as [i|]; [|done]. unfold run_pnginfo.
  destruct (read_info_from_image i) as [geninfo items]. simpl.
  destruct (info_starts_with_div (Py.dict_merge [("parameters", geninfo)] items))
    as [rest Hrest].
  { by apply dict_merge_nonempty. }
  exists rest. rewrite Hrest. split; [|discriminate].
  rewrite bool_decide_eq_false_2; [done|]. rewrite !string_app_length. simpl. lia.
Qed.

End pnginfo_properties.

Lemma shown_items_witness :
  NoDup (Case.items.*1)
  ∧ Py.dict_merge [("parameters", "a dog")] Case.items
    = [("parameters", "a cat"); ("Software", "webui"); ("Comment", " x ")].
Proof.
  split; [compute_done|].
  apply (shown_items "a dog" Case.items). compute_done.
Defined.

(** ** [create_config] *)

Section create_config_properties.

Context {Info : Type}.
Context (find_checkpoint_config_near_filename : Info → option string).
Context (sd_default_config : string) (splitext : string → string * string).

Lemma config_not_default (x : option Info) :
  config find_checkpoint_config_near_filename sd_default_config x ≠ Some sd_default_config.
Proof. unfold config. by case_bool_decide. Qed.

Lemma or_not_default (x y : option string) :
  x ≠ Some sd_default_config → y ≠ Some sd_default_config →
  Py.or x y ≠ Some sd_default_config.
Proof. unfold Py.or. by destruct (Py.truthy x). Qed.

(** X25. [create_config] never copies the default config: the file it hands
    to [shutil.copyfile], from whichever of A, B and C it comes, is not
    [sd_default_config], and the copy is named after the checkpoint, with
    the extension ".yaml". *)
Theorem create_config_never_default (ckpt_result : string) (config_source : nat)
    (a b c : option Info) (src dst : string) :
  create_config find_checkpoint_config_near_filename sd_default_config splitext
    ckpt_result config_source a b c = Some (src, dst) →
  src ≠ sd_default_config ∧ dst = (splitext ckpt_result).1 +:+ ".yaml".
Proof.
  unfold create_config.
  set (cfg := match config_source with
              | 0 => Py.or (Py.or (config _ _ a) (config _ _ b)) (config _ _ c)
              | 1 => config _ _ b
              | 2 => config _ _ c
              | _ => None
              end).
  assert (cfg ≠ Some sd_default_config) as Hcfg.
  { unfold cfg. destruct config_source as [|[|[|n]]];
      repeat apply or_not_default; try apply config_not_default. done. }
  destruct cfg as [f|]; [|discriminate].
  destruct (splitext ckpt_result) as [filename ext]. intros [= <- <-].
  split; [congruence|done].
Qed.

End create_config_properties.

Lemma create_config_never_default_witness :
  create_config (λ x : string, Some (x +:+ ".yaml")) "v1-inference.yaml"
    (λ p, (p, "")) "out/merged" 0 (Some "v1-inference") (Some "b") None
  = Some ("b.yaml", "out/merged.yaml")
  ∧ "b.yaml" ≠ "v1-inference.yaml"
  ∧ "out/merged.yaml" = ((λ p : string, (p, "")) "out/merged").1 +:+ ".yaml".
Proof.
  split; [reflexivity|].
  apply (create_config_never_default (λ x : string, Some (x +:+ ".yaml")) "v1-inference.yaml"
           (λ p, (p, "")) "out/merged" 0 (Some "v1-inference") (Some "b") None).
  reflexivity.
Defined.

(** ** The names of the saved file *)

Section filename_properties.

Context (round2 : float → string) (a : string) (b c : option string).

Lemma filename_generator_longer (m : interp) (multiplier : float) (f : string) :
  filename_generator round2 a b c m multiplier = Ok f →
  String.length a < String.length f.
Proof.
  destruct m; simpl;
    unfold filename_weighted_sum, filename_add_difference, filename_nothing,
      filename_unet, filename_vae, filename_te;
    intros H; inv_bind; rewrite !string_app_length; simpl; lia.
Qed.

(** X26. Without a custom name, the file of a merge or of an extraction is
    never named as A with the extension ".safetensors": every generated
    name is longer than the name of A. *)
Theorem generated_name_differs (m : interp) (multiplier : float)
    (inpainting instruct_pix2pix : bool) (f : string) :
  merged_filename round2 a b c m multiplier "" inpainting instruct_pix2pix = Ok f
  ∨ extracted_filename round2 a b c m multiplier "" = Ok f →
  f ≠ a +:+ ".safetensors".
Proof.
  unfold merged_filename, extracted_filename. simpl.
  intros [H|H]; inv_bind; apply filename_generator_longer in Hstep;
    intros Heq; apply (f_equal String.length) in Heq;
    rewrite !string_app_length in Heq; simpl in Heq; lia.
Qed.

End filename_properties.

Lemma generated_name_differs_witness :
  merged_filename (λ _, "0.5") "A" (Some "B") None WeightedSum Sample.half "" true false
  = Ok "0.5(A) + 0.5(B).inpainting.safetensors"
  ∧ "0.5(A) + 0.5(B).inpainting.safetensors" ≠ "A" +:+ ".safetensors".
Proof.
  split; [reflexivity|].
  apply (generated_name_differs (λ _, "0.5") "A" (Some "B") None WeightedSum Sample.half
           true false).
  left. reflexivity.
Defined.

(** ** The metadata of the saved file *)

Section metadata_properties.

Context {V : Type} (of_str : string → V).
Context (update_from_json : string → gmap string V → gmap string V).

(** X27. Without [save_metadata] the file is saved with no metadata,
    whatever the two other flags.  With it, the metadata is never empty and
    its field "format" is "pt", whatever the models and the JSON of the
    user say; with [add_merge_recipe] too, the fields "sd_merge_recipe" and
    "sd_merge_models" are the two strings of the recipe. *)
Theorem metadata_format (copy_metadata_fields add_merge_recipe : bool)
    (primary : gmap string V) (secondary tertiary : option (gmap string V))
    (metadata_json merge_recipe sd_merge_models : string) :
  assemble_metadata of_str update_from_json false copy_metadata_fields add_merge_recipe
    primary secondary tertiary metadata_json merge_recipe sd_merge_models = None
  ∧ ∃ metadata,
      assemble_metadata of_str update_from_json true copy_metadata_fields add_merge_recipe
        primary secondary tertiary metadata_json merge_recipe sd_merge_models
      = Some metadata
      ∧ metadata !! "format" = Some (of_str "pt")
      ∧ (add_merge_recipe = true →
         metadata !! "sd_merge_recipe" = Some (of_str merge_recipe)
         ∧ metadata !! "sd_merge_models" = Some (of_str sd_merge_models)).
Proof.
  split; [reflexivity|]. unfold assemble_metadata. cbn [andb].
  destruct add_merge_recipe.
  - eexists. split.
    + rewrite bool_decide_eq_true_2; [reflexivity|].
      apply Nat.neq_0_lt_0, map_size_non_empty_iff, insert_non_empty.
    + split; [|intros _; split].
      * rewrite !lookup_insert_ne by done. apply lookup_insert_eq.
      * rewrite lookup_insert_ne by done. apply lookup_insert_eq.
      * apply lookup_insert_eq.
  - eexists. split.
    + rewrite bool_decide_eq_true_2; [reflexivity|].
      apply Nat.neq_0_lt_0, map_size_non_empty_iff, insert_non_empty.
    + split; [apply lookup_insert_eq|discriminate].
Qed.

(** X28. With [save_metadata] and [copy_metadata_fields], a field that the
    JSON of the user leaves as it is, and that is none of "format",
    "sd_merge_recipe" and "sd_merge_models", has in the saved metadata the
    value it has in the metadata of C, else of B, else of A. *)
Theorem metadata_precedence (add_merge_recipe : bool)
    (primary : gmap string V) (secondary tertiary : option (gmap string V))
    (metadata_json merge_recipe sd_merge_models : string) (key : string) :
  (∀ m, update_from_json metadata_json m !! key = m !! key) →
  key ∉ ["format"; "sd_merge_recipe"; "sd_merge_models"] →
  ∃ metadata,
    assemble_metadata of_str update_from_json true true add_merge_recipe
      primary secondary tertiary metadata_json merge_recipe sd_merge_models
    = Some metadata
    ∧ metadata !! key = copied_field primary secondary tertiary key.
Proof.
  intros Hleft Hkey. rewrite !not_elem_of_cons in Hkey.
  destruct Hkey as (H1 & H2 & H3 & _).
  unfold assemble_metadata. cbn [andb].
  assert (∀ m : gmap string V,
            (if add_merge_recipe
             then <["sd_merge_models" := of_str sd_merge_models]>
                    (<["sd_merge_recipe" := of_str merge_recipe]>
                       (<["format" := of_str "pt"]> (update_from_json metadata_json m)))
             else <["format" := of_str "pt"]> (update_from_json metadata_json m)) !! key
            = m !! key) as Hlook.
  { intros m. destruct add_merge_recipe; rewrite !lookup_insert_ne by done; apply Hleft. }
  eexists. split.
  - rewrite bool_decide_eq_true_2; [reflexivity|].
    apply Nat.neq_0_lt_0, map_size_non_empty_iff.
    destruct add_merge_recipe; apply insert_non_empty.
  - rewrite Hlook. unfold copied_field.
    destruct tertiary as [t|], secondary as [s|]; simpl;
      rewrite ?lookup_union, ?lookup_empty;
      repeat match goal with
      | |- context [?m !! key] => destruct (m !! key); simpl
      end; done.
Qed.

End metadata_properties.

Lemma metadata_precedence_witness :
  (∀ m : gmap string string, (λ (_ : string) (m : gmap string string), m) "{}" m !! "author"
                             = m !! "author")
  ∧ ("author" ∉ ["format"; "sd_merge_recipe"; "sd_merge_models"])
  ∧ ∃ metadata,
      assemble_metadata id (λ _ m, m) true true false
        {[ "author" := "a"; "title" := "A" ]} (Some {[ "author" := "b" ]}) None
        "{}" "recipe" "models"
      = Some metadata
      ∧ metadata !! "author"
        = copied_field {[ "author" := "a"; "title" := "A" ]} (Some {[ "author" := "b" ]})
            None "author".
Proof.
  split; [done|]. split; [compute_done|].
  apply (metadata_precedence id (λ _ m, m) false
           {[ "author" := "a"; "title" := "A" ]} (Some {[ "author" := "b" ]}) None
           "{}" "recipe" "models" "author").
  - done.
  - compute_done.
Defined.
